(** * A/B testing tracker SDK: assignment, exposure and attribution engine

    Shallow embedding of [snippet/ab-tracker-sdk/src/index.ts]
    (class [ABTrackerEnterprise]) and the properties its specification
    states about it.

    Modelling conventions.
    - JavaScript numbers that the code uses as integers (hashes, weights,
      percentages, millisecond timestamps, counters) are [Z]; the 32-bit
      wrap-around of the bit operators is written out with [ToInt32].
    - ISO date strings produced by [toISOString] and read back by
      [new Date(s).getTime()] are the millisecond timestamp they denote.
    - Strings are [string]; [charCodeAt] is the code of the character.
      The hash is defined on lists of code units, so that it also covers
      UTF-16 code units above 255.
    - The two dictionaries [assignments] and [exposures] are [gmap string _]
      (own keys only, no prototype chain; [Object.entries] enumerates in
      the order of the map); the two [Set<string>] fields are [gset string].
    - Object literals with spread ([{a: 1, ...data}]) are association
      lists with update in place, so that a spread key overrides an
      earlier one exactly as in JavaScript.
    - The browser (storage slots, clock, location, cookies, data layer,
      requests sent, change instructions handed to the DOM) is an explicit
      [Browser] record threaded with the instance. A storage slot holds the
      value that [JSON.parse] would give back; writes to storage succeed.
    - Host functions the code calls but does not define (regular
      expressions, selectors, [String], [Number], [parseInt]) are the
      class [Host].
    - Code that can throw lives in the monad [Js]; state changes made
      before a throw are kept, as in JavaScript.
    - Asynchronous code is cut at its suspension points: [init] is taken
      from the moment the configuration request has settled, and the DOM
      changes of a variant are the list handed to [applyChanges].
    - [this.log] only writes to the console and is not modelled.
    - [generateUUID] takes the bytes of [crypto.getRandomValues] as a
      function of the number of the call; the constructor takes the two
      identifiers it would draw as arguments.
    - [SafeStorage] and [MemoryStorage] are modelled on their own, over a
      browser storage that can deny access or reject a write;
      [CookieUtils.get] is modelled on the string [document.cookie]. The
      instance itself reads and writes the typed storage slots and the
      cookie map of [Browser]. *)

From Stdlib Require Import ZArith Lia Ascii.
From stdpp Require Import base strings gmap list.

Local Open Scope Z_scope.
Local Set Warnings "-register-all,-clear-no-such-hyp".

(** ** JavaScript values and object literals *)

Inductive JsVal : Type :=
  | JUndefined
  | JNull
  | JBool (b : bool)
  | JNum (n : Z)
  | JStr (s : string)
  | JArr (items : list JsVal)
  | JObj (fields : list (string * JsVal)).

Abbreviation Obj := (list (string * JsVal)).

Definition optStr (o : option string) : JsVal :=
  match o with Some s => JStr s | None => JUndefined end.

Fixpoint obj_get (k : string) (o : Obj) : option JsVal :=
  match o with
  | [] => None
  | (k', v) :: o' => if String.eqb k' k then Some v else obj_get k o'
  end.

(** [o[k] = v]: replaces the value of an existing key, appends a new key. *)
Fixpoint obj_set (k : string) (v : JsVal) (o : Obj) : Obj :=
  match o with
  | [] => [(k, v)]
  | (k', v') :: o' =>
      if String.eqb k' k then (k, v) :: o' else (k', v') :: obj_set k v o'
  end.

(** [{...o, ...extra}] *)
Definition spread (o extra : Obj) : Obj :=
  fold_left (fun acc kv => obj_set kv.1 kv.2 acc) extra o.

(** [{...o, ...data}] where [data] may be [undefined]. *)
Definition spreadOpt (o : Obj) (data : option Obj) : Obj :=
  match data with Some d => spread o d | None => o end.

Definition isNullish (v : JsVal) : bool :=
  match v with JUndefined | JNull => true | _ => false end.

(** [hay.indexOf(needle) > -1] *)
Definition strIncludes (hay needle : string) : bool :=
  match String.index 0 needle hay with Some _ => true | None => false end.

(** ** 32-bit integer arithmetic and the hash *)

Definition ToInt32 (z : Z) : Z := (z + 2 ^ 31) mod 2 ^ 32 - 2 ^ 31.

Definition charCode (a : Ascii.ascii) : Z := Z.of_nat (Ascii.nat_of_ascii a).

Definition codeUnits (s : string) : list Z :=
  charCode <$> String.list_ascii_of_string s.

(** One turn of the loop of [hashCode]:
    [hash = (hash << 5) - hash + char; hash = hash & hash]. *)
Definition hashStep (hash char : Z) : Z :=
  let hash := ToInt32 (Z.shiftl (ToInt32 hash) 5) - hash + char in
  Z.land (ToInt32 hash) (ToInt32 hash).

Definition hashCodeUnits (cs : list Z) : Z := Z.abs (fold_left hashStep cs 0).

Definition hashCode (str : string) : Z := hashCodeUnits (codeUnits str).

(** ** Configuration *)

Inductive ExperimentStatus : Type := RUNNING | PAUSED.

Inductive GoalType : Type :=
  | PAGE_VIEW | CLICK | FORM_SUBMIT | CUSTOM_EVENT | SCROLL | ELEMENT_VISIBILITY.

Inductive ChangeAction : Type :=
  | setText | setHTML | setAttr | setStyle | addClass | removeClass
  | insertAdjacentHTML | replaceNode | runScript | moveNode.

Record ChangeInstruction : Type := {
  chg_selector : string;
  chg_action : ChangeAction;
  chg_value : option string;
  chg_attributeName : option string;
  chg_allowInnerHTML : option bool;
  chg_waitForSelector : option Z
}.

Record VariantConfig : Type := {
  var_id : string;
  var_name : option string;
  var_isControl : option bool;
  trafficWeight : Z;
  changes : list ChangeInstruction
}.

(** [type] and [operator] arrive as JSON strings; the [switch] statements
    of [checkAudiences] have a [default] branch for the other ones. *)
Record AudienceConfig : Type := {
  aud_type : string;
  aud_key : option string;
  aud_operator : string;
  aud_value : JsVal
}.

Record ExperimentConfig : Type := {
  exp_id : string;
  exp_name : option string;
  exp_status : ExperimentStatus;
  trafficAllocation : Z;
  exp_urlPattern : string;
  audiences : option (list AudienceConfig);
  variants : list VariantConfig
}.

Record GoalConfig : Type := {
  goal_id : string;
  goal_name : option string;
  goal_type : GoalType;
  goal_selector : option string;
  goal_urlPattern : option string;
  goal_eventName : option string;
  experimentIds : option (list string)
}.

Record ProjectConfig : Type := {
  cfg_projectId : string;
  experiments : list ExperimentConfig;
  goals : list GoalConfig;
  cfg_version : option Z
}.

(** ** Persisted per-visitor records *)

Record Assignment : Type := {
  asg_variantId : string;
  asg_variantName : option string;
  asg_experimentName : option string;
  assignedAt : Z
}.

Record Exposure : Type := {
  xp_variantId : string;
  exposedAt : Z;
  exposureCount : Z
}.

(** An entry of [attributedExperiments]. *)
Record Attributed : Type := {
  at_experimentId : string;
  at_experimentName : option string;
  at_variantId : string;
  at_variantName : option string
}.

Definition attributedToJs (a : Attributed) : JsVal :=
  JObj [("experimentId", JStr (at_experimentId a));
        ("experimentName", optStr (at_experimentName a));
        ("variantId", JStr (at_variantId a));
        ("variantName", optStr (at_variantName a))].

(** ** Host functions *)

Class Host : Type := {
  Regex : Type;
  (** [new RegExp(p)]; [None] when it throws a [SyntaxError] *)
  regexCompile : string -> option Regex;
  regexTest : Regex -> string -> bool;
  (** [/Mobi|Android/i.test(ua)] *)
  isMobileUA : string -> bool;
  (** [String(v)] *)
  ToString : JsVal -> string;
  (** [Number(a) > Number(b)] and [Number(a) < Number(b)] *)
  numberGt : JsVal -> JsVal -> bool;
  numberLt : JsVal -> JsVal -> bool;
  (** [parseInt(s, 10)]; [None] for [NaN] *)
  parseInt10 : string -> option Z;
  (** whether [matches], [closest] and [querySelectorAll] accept the
      selector; they throw a [SyntaxError] otherwise *)
  selectorValid : string -> bool
}.

(** ** The browser around an SDK instance *)

Record Page : Type := {
  now : Z;
  href : string;
  pathname : string;
  referrer : string;
  userAgent : string;
  queryParam : string -> option string;
  windowVar : string -> JsVal
}.

Record Browser : Type := {
  page : Page;
  cookies : gmap string string;
  ls_visitorId : option string;
  ls_lastActivity : option Z;
  ls_assignments : option (gmap string Assignment);
  ls_exposures : option (gmap string Exposure);
  ls_configCache : option (Z * ProjectConfig);
  ss_sessionId : option string;
  (** keys passed to [LS.setItem], oldest first *)
  ls_setItems : list string;
  dataLayer : list Obj;
  (** bodies handed to [fetch(ingestUrl, {method: "POST", ...})] *)
  posted : list (list Obj);
  (** change lists handed to [applyChanges] *)
  domChanges : list ChangeInstruction;
  pageHidden : bool
}.

(** ** The SDK instance *)

Record Tracker : Type := {
  projectId : string;
  ingestUrl : string;
  configUrl : string;
  visitorId : string;
  sessionId : string;
  assignments : gmap string Assignment;
  exposures : gmap string Exposure;
  config : option ProjectConfig;
  eventQueue : list Obj;
  debug : bool;
  activeExperiments : gset string;
  antiFlickerTimeout : Z;
  attributionWindowDays : Z;
  isRevealed : bool;
  trackedGoals : gset string;
  (** goals captured by the scroll listener and by the intersection
      observer, once [setupGoals] has installed them *)
  scrollGoals : option (list GoalConfig);
  visibilityGoals : option (list GoalConfig)
}.

Record State : Type := { sdk : Tracker; env : Browser }.

Module STORAGE_KEYS.
Definition VISITOR_ID : string := "ab_ent_vid".
Definition SESSION_ID : string := "ab_ent_sid".
Definition ASSIGNMENTS : string := "ab_ent_assignments".
Definition EXPOSURES : string := "ab_ent_exposures".
Definition CONFIG_CACHE : string := "ab_ent_config".
Definition LAST_ACTIVITY : string := "ab_ent_last_active".
End STORAGE_KEYS.

(** ** Field updates

    [upd_f x r] is the assignment [this.f = x] (for a field of the
    instance) or the corresponding change of the browser. *)

Definition upd_assignments (x : gmap string Assignment) (t : Tracker) : Tracker :=
  {| projectId := projectId t; ingestUrl := ingestUrl t;
     configUrl := configUrl t; visitorId := visitorId t;
     sessionId := sessionId t; assignments := x; exposures := exposures t;
     config := config t; eventQueue := eventQueue t; debug := debug t;
     activeExperiments := activeExperiments t;
     antiFlickerTimeout := antiFlickerTimeout t;
     attributionWindowDays := attributionWindowDays t;
     isRevealed := isRevealed t; trackedGoals := trackedGoals t;
     scrollGoals := scrollGoals t; visibilityGoals := visibilityGoals t |}.

Definition upd_exposures (x : gmap string Exposure) (t : Tracker) : Tracker :=
  {| projectId := projectId t; ingestUrl := ingestUrl t;
     configUrl := configUrl t; visitorId := visitorId t;
     sessionId := sessionId t; assignments := assignments t; exposures := x;
     config := config t; eventQueue := eventQueue t; debug := debug t;
     activeExperiments := activeExperiments t;
     antiFlickerTimeout := antiFlickerTimeout t;
     attributionWindowDays := attributionWindowDays t;
     isRevealed := isRevealed t; trackedGoals := trackedGoals t;
     scrollGoals := scrollGoals t; visibilityGoals := visibilityGoals t |}.

Definition upd_config (x : option ProjectConfig) (t : Tracker) : Tracker :=
  {| projectId := projectId t; ingestUrl := ingestUrl t;
     configUrl := configUrl t; visitorId := visitorId t;
     sessionId := sessionId t; assignments := assignments t;
     exposures := exposures t; config := x; eventQueue := eventQueue t;
     debug := debug t; activeExperiments := activeExperiments t;
     antiFlickerTimeout := antiFlickerTimeout t;
     attributionWindowDays := attributionWindowDays t;
     isRevealed := isRevealed t; trackedGoals := trackedGoals t;
     scrollGoals := scrollGoals t; visibilityGoals := visibilityGoals t |}.

Definition upd_eventQueue (x : list Obj) (t : Tracker) : Tracker :=
  {| projectId := projectId t; ingestUrl := ingestUrl t;
     configUrl := configUrl t; visitorId := visitorId t;
     sessionId := sessionId t; assignments := assignments t;
     exposures := exposures t; config := config t; eventQueue := x;
     debug := debug t; activeExperiments := activeExperiments t;
     antiFlickerTimeout := antiFlickerTimeout t;
     attributionWindowDays := attributionWindowDays t;
     isRevealed := isRevealed t; trackedGoals := trackedGoals t;
     scrollGoals := scrollGoals t; visibilityGoals := visibilityGoals t |}.

Definition upd_activeExperiments (x : gset string) (t : Tracker) : Tracker :=
  {| projectId := projectId t; ingestUrl := ingestUrl t;
     configUrl := configUrl t; visitorId := visitorId t;
     sessionId := sessionId t; assignments := assignments t;
     exposures := exposures t; config := config t;
     eventQueue := eventQueue t; debug := debug t; activeExperiments := x;
     antiFlickerTimeout := antiFlickerTimeout t;
     attributionWindowDays := attributionWindowDays t;
     isRevealed := isRevealed t; trackedGoals := trackedGoals t;
     scrollGoals := scrollGoals t; visibilityGoals := visibilityGoals t |}.

Definition upd_isRevealed (x : bool) (t : Tracker) : Tracker :=
  {| projectId := projectId t; ingestUrl := ingestUrl t;
     configUrl := configUrl t; visitorId := visitorId t;
     sessionId := sessionId t; assignments := assignments t;
     exposures := exposures t; config := config t;
     eventQueue := eventQueue t; debug := debug t;
     activeExperiments := activeExperiments t;
     antiFlickerTimeout := antiFlickerTimeout t;
     attributionWindowDays := attributionWindowDays t; isRevealed := x;
     trackedGoals := trackedGoals t; scrollGoals := scrollGoals t;
     visibilityGoals := visibilityGoals t |}.

Definition upd_trackedGoals (x : gset string) (t : Tracker) : Tracker :=
  {| projectId := projectId t; ingestUrl := ingestUrl t;
     configUrl := configUrl t; visitorId := visitorId t;
     sessionId := sessionId t; assignments := assignments t;
     exposures := exposures t; config := config t;
     eventQueue := eventQueue t; debug := debug t;
     activeExperiments := activeExperiments t;
     antiFlickerTimeout := antiFlickerTimeout t;
     attributionWindowDays := attributionWindowDays t;
     isRevealed := isRevealed t; trackedGoals := x;
     scrollGoals := scrollGoals t; visibilityGoals := visibilityGoals t |}.

Definition upd_scrollGoals (x : option (list GoalConfig)) (t : Tracker) : Tracker :=
  {| projectId := projectId t; ingestUrl := ingestUrl t;
     configUrl := configUrl t; visitorId := visitorId t;
     sessionId := sessionId t; assignments := assignments t;
     exposures := exposures t; config := config t;
     eventQueue := eventQueue t; debug := debug t;
     activeExperiments := activeExperiments t;
     antiFlickerTimeout := antiFlickerTimeout t;
     attributionWindowDays := attributionWindowDays t;
     isRevealed := isRevealed t; trackedGoals := trackedGoals t;
     scrollGoals := x; visibilityGoals := visibilityGoals t |}.

Definition upd_visibilityGoals (x : option (list GoalConfig)) (t : Tracker) : Tracker :=
  {| projectId := projectId t; ingestUrl := ingestUrl t;
     configUrl := configUrl t; visitorId := visitorId t;
     sessionId := sessionId t; assignments := assignments t;
     exposures := exposures t; config := config t;
     eventQueue := eventQueue t; debug := debug t;
     activeExperiments := activeExperiments t;
     antiFlickerTimeout := antiFlickerTimeout t;
     attributionWindowDays := attributionWindowDays t;
     isRevealed := isRevealed t; trackedGoals := trackedGoals t;
     scrollGoals := scrollGoals t; visibilityGoals := x |}.

Definition upd_page (x : Page) (b : Browser) : Browser :=
  {| page := x; cookies := cookies b; ls_visitorId := ls_visitorId b;
     ls_lastActivity := ls_lastActivity b;
     ls_assignments := ls_assignments b; ls_exposures := ls_exposures b;
     ls_configCache := ls_configCache b; ss_sessionId := ss_sessionId b;
     ls_setItems := ls_setItems b; dataLayer := dataLayer b;
     posted := posted b; domChanges := domChanges b;
     pageHidden := pageHidden b |}.

Definition upd_cookies (x : gmap string string) (b : Browser) : Browser :=
  {| page := page b; cookies := x; ls_visitorId := ls_visitorId b;
     ls_lastActivity := ls_lastActivity b;
     ls_assignments := ls_assignments b; ls_exposures := ls_exposures b;
     ls_configCache := ls_configCache b; ss_sessionId := ss_sessionId b;
     ls_setItems := ls_setItems b; dataLayer := dataLayer b;
     posted := posted b; domChanges := domChanges b;
     pageHidden := pageHidden b |}.

Definition upd_ls_visitorId (x : option string) (b : Browser) : Browser :=
  {| page := page b; cookies := cookies b; ls_visitorId := x;
     ls_lastActivity := ls_lastActivity b;
     ls_assignments := ls_assignments b; ls_exposures := ls_exposures b;
     ls_configCache := ls_configCache b; ss_sessionId := ss_sessionId b;
     ls_setItems := ls_setItems b; dataLayer := dataLayer b;
     posted := posted b; domChanges := domChanges b;
     pageHidden := pageHidden b |}.

Definition upd_ls_lastActivity (x : option Z) (b : Browser) : Browser :=
  {| page := page b; cookies := cookies b; ls_visitorId := ls_visitorId b;
     ls_lastActivity := x; ls_assignments := ls_assignments b;
     ls_exposures := ls_exposures b; ls_configCache := ls_configCache b;
     ss_sessionId := ss_sessionId b; ls_setItems := ls_setItems b;
     dataLayer := dataLayer b; posted := posted b;
     domChanges := domChanges b; pageHidden := pageHidden b |}.

Definition upd_ls_assignments (x : option (gmap string Assignment)) (b : Browser) : Browser :=
  {| page := page b; cookies := cookies b; ls_visitorId := ls_visitorId b;
     ls_lastActivity := ls_lastActivity b; ls_assignments := x;
     ls_exposures := ls_exposures b; ls_configCache := ls_configCache b;
     ss_sessionId := ss_sessionId b; ls_setItems := ls_setItems b;
     dataLayer := dataLayer b; posted := posted b;
     domChanges := domChanges b; pageHidden := pageHidden b |}.

Definition upd_ls_exposures (x : option (gmap string Exposure)) (b : Browser) : Browser :=
  {| page := page b; cookies := cookies b; ls_visitorId := ls_visitorId b;
     ls_lastActivity := ls_lastActivity b;
     ls_assignments := ls_assignments b; ls_exposures := x;
     ls_configCache := ls_configCache b; ss_sessionId := ss_sessionId b;
     ls_setItems := ls_setItems b; dataLayer := dataLayer b;
     posted := posted b; domChanges := domChanges b;
     pageHidden := pageHidden b |}.

Definition upd_ls_configCache (x : option (Z * ProjectConfig)) (b : Browser) : Browser :=
  {| page := page b; cookies := cookies b; ls_visitorId := ls_visitorId b;
     ls_lastActivity := ls_lastActivity b;
     ls_assignments := ls_assignments b; ls_exposures := ls_exposures b;
     ls_configCache := x; ss_sessionId := ss_sessionId b;
     ls_setItems := ls_setItems b; dataLayer := dataLayer b;
     posted := posted b; domChanges := domChanges b;
     pageHidden := pageHidden b |}.

Definition upd_ss_sessionId (x : option string) (b : Browser) : Browser :=
  {| page := page b; cookies := cookies b; ls_visitorId := ls_visitorId b;
     ls_lastActivity := ls_lastActivity b;
     ls_assignments := ls_assignments b; ls_exposures := ls_exposures b;
     ls_configCache := ls_configCache b; ss_sessionId := x;
     ls_setItems := ls_setItems b; dataLayer := dataLayer b;
     posted := posted b; domChanges := domChanges b;
     pageHidden := pageHidden b |}.

Definition upd_ls_setItems (x : list string) (b : Browser) : Browser :=
  {| page := page b; cookies := cookies b; ls_visitorId := ls_visitorId b;
     ls_lastActivity := ls_lastActivity b;
     ls_assignments := ls_assignments b; ls_exposures := ls_exposures b;
     ls_configCache := ls_configCache b; ss_sessionId := ss_sessionId b;
     ls_setItems := x; dataLayer := dataLayer b; posted := posted b;
     domChanges := domChanges b; pageHidden := pageHidden b |}.

Definition upd_dataLayer (x : list Obj) (b : Browser) : Browser :=
  {| page := page b; cookies := cookies b; ls_visitorId := ls_visitorId b;
     ls_lastActivity := ls_lastActivity b;
     ls_assignments := ls_assignments b; ls_exposures := ls_exposures b;
     ls_configCache := ls_configCache b; ss_sessionId := ss_sessionId b;
     ls_setItems := ls_setItems b; dataLayer := x; posted := posted b;
     domChanges := domChanges b; pageHidden := pageHidden b |}.

Definition upd_posted (x : list (list Obj)) (b : Browser) : Browser :=
  {| page := page b; cookies := cookies b; ls_visitorId := ls_visitorId b;
     ls_lastActivity := ls_lastActivity b;
     ls_assignments := ls_assignments b; ls_exposures := ls_exposures b;
     ls_configCache := ls_configCache b; ss_sessionId := ss_sessionId b;
     ls_setItems := ls_setItems b; dataLayer := dataLayer b; posted := x;
     domChanges := domChanges b; pageHidden := pageHidden b |}.

Definition upd_domChanges (x : list ChangeInstruction) (b : Browser) : Browser :=
  {| page := page b; cookies := cookies b; ls_visitorId := ls_visitorId b;
     ls_lastActivity := ls_lastActivity b;
     ls_assignments := ls_assignments b; ls_exposures := ls_exposures b;
     ls_configCache := ls_configCache b; ss_sessionId := ss_sessionId b;
     ls_setItems := ls_setItems b; dataLayer := dataLayer b;
     posted := posted b; domChanges := x; pageHidden := pageHidden b |}.

Definition upd_pageHidden (x : bool) (b : Browser) : Browser :=
  {| page := page b; cookies := cookies b; ls_visitorId := ls_visitorId b;
     ls_lastActivity := ls_lastActivity b;
     ls_assignments := ls_assignments b; ls_exposures := ls_exposures b;
     ls_configCache := ls_configCache b; ss_sessionId := ss_sessionId b;
     ls_setItems := ls_setItems b; dataLayer := dataLayer b;
     posted := posted b; domChanges := domChanges b; pageHidden := x |}.

Definition onSdk (f : Tracker -> Tracker) (st : State) : State :=
  {| sdk := f (sdk st); env := env st |}.

Definition onEnv (f : Browser -> Browser) (st : State) : State :=
  {| sdk := sdk st; env := f (env st) |}.

(** [LS.setItem(key, JSON.stringify(value))] for the slots the model keeps. *)
Definition LS_set (key : string) (b : Browser) : Browser :=
  upd_ls_setItems (ls_setItems b ++ [key]) b.

Definition LS_setExposures (x : gmap string Exposure) (b : Browser) : Browser :=
  LS_set STORAGE_KEYS.EXPOSURES (upd_ls_exposures (Some x) b).

Definition LS_setAssignments (x : gmap string Assignment) (b : Browser) : Browser :=
  LS_set STORAGE_KEYS.ASSIGNMENTS (upd_ls_assignments (Some x) b).

Definition LS_setLastActivity (t : Z) (b : Browser) : Browser :=
  LS_set STORAGE_KEYS.LAST_ACTIVITY (upd_ls_lastActivity (Some t) b).

Definition LS_setConfigCache (c : Z * ProjectConfig) (b : Browser) : Browser :=
  LS_set STORAGE_KEYS.CONFIG_CACHE (upd_ls_configCache (Some c) b).

Definition LS_setVisitorId (v : string) (b : Browser) : Browser :=
  LS_set STORAGE_KEYS.VISITOR_ID (upd_ls_visitorId (Some v) b).

(** ** Computations that can throw *)

Inductive JsError : Type := SyntaxError | TypeError.

Inductive Completion (A : Type) : Type :=
  | Normal (a : A)
  | Abrupt (e : JsError).
Arguments Normal {A} a.
Arguments Abrupt {A} e.

Definition Js (A : Type) : Type := State -> Completion A * State.

Definition ret {A : Type} (a : A) : Js A := fun st => (Normal a, st).

Definition throw {A : Type} (e : JsError) : Js A := fun st => (Abrupt e, st).

Definition bind {A B : Type} (m : Js A) (f : A -> Js B) : Js B :=
  fun st =>
    match m st with
    | (Normal a, st') => f a st'
    | (Abrupt e, st') => (Abrupt e, st')
    end.

Notation "'let*' x := m 'in' k" := (bind m (fun x => k))
  (at level 10, x name, m at level 100, k at level 200, only parsing).
Notation "m >> k" := (bind m (fun _ => k))
  (at level 100, k at level 200, right associativity, only parsing).

Definition getState : Js State := fun st => (Normal st, st).

(** A statement sequence that cannot throw. *)
Definition exec (f : State -> State) : Js unit := fun st => (Normal tt, f st).

Definition liftC {A : Type} (c : Completion A) : Js A := fun st => (c, st).

(** [try { m } catch (e) { this.log(...) }], and
    [m().catch(e => this.log(...))] for an async [m] without awaits
    before its last statement. *)
Definition tryCatch (m : Js unit) : Js unit := fun st => (Normal tt, (m st).2).

(** [l.forEach(f)] and [for (const x of l) f(x)] *)
Fixpoint forEach {A : Type} (f : A -> Js unit) (l : list A) : Js unit :=
  match l with
  | [] => ret tt
  | x :: l' => f x >> forEach f l'
  end.

(** [new RegExp(p)] *)
Definition newRegExp `{Host} (p : string) : Completion Regex :=
  match regexCompile p with
  | Some r => Normal r
  | None => Abrupt SyntaxError
  end.

(** ** Event dispatcher *)

(** The object literal of [enqueueEvent]. *)
Definition envelopeOf (projectId visitorId : string) (sessionId : JsVal)
    (p : Page) (type : string) (data : Obj) : Obj :=
  spread [("projectId", JStr projectId);
          ("visitorId", JStr visitorId);
          ("sessionId", sessionId);
          ("timestamp", JNum (now p));
          ("eventType", JStr type);
          ("url", JStr (href p))] data.

Definition envelope (st : State) (type : string) (data : Obj) : Obj :=
  envelopeOf (projectId (sdk st)) (visitorId (sdk st)) (JStr (sessionId (sdk st)))
    (page (env st)) type data.

Definition flushEvents (st : State) : State :=
  match eventQueue (sdk st) with
  | [] => st
  | payload =>
      onEnv (fun b => upd_posted (posted b ++ [payload]) b)
            (onSdk (upd_eventQueue []) st)
  end.

Definition enqueueEvent (type : string) (data : Obj) (st : State) : State :=
  let st1 :=
    onSdk (fun t => upd_eventQueue (eventQueue t ++ [envelope st type data]) t) st in
  if Nat.leb 5 (length (eventQueue (sdk st1))) then flushEvents st1 else st1.

(** Every envelope the instance has queued so far, delivered or not,
    oldest first. *)
Definition enqueued (st : State) : list Obj :=
  concat (posted (env st)) ++ eventQueue (sdk st).

(** ** Anti-flicker *)

Definition revealPage (st : State) : State :=
  if isRevealed (sdk st) then st
  else onEnv (upd_pageHidden false) (onSdk (upd_isRevealed true) st).

(** ** Exposure ledger *)

Definition recordExposure (experimentId variantId : string) (st : State) : State :=
  let now := now (page (env st)) in
  let exposures' :=
    match exposures (sdk st) !! experimentId with
    | Some x =>
        <[experimentId := {| xp_variantId := xp_variantId x;
                             exposedAt := exposedAt x;
                             exposureCount := exposureCount x + 1 |}]>
          (exposures (sdk st))
    | None =>
        <[experimentId := {| xp_variantId := variantId;
                             exposedAt := now;
                             exposureCount := 1 |}]>
          (exposures (sdk st))
    end in
  onEnv (LS_setExposures exposures') (onSdk (upd_exposures exposures') st).

(** The exposure map once [recordExposure] has run. *)
Definition exposedOnce (experimentId variantId : string) (st : State)
    : gmap string Exposure :=
  exposures (sdk (recordExposure experimentId variantId st)).

Definition isExposedToExperiment (experimentId : string) (st : State) : bool :=
  match exposures (sdk st) !! experimentId with Some _ => true | None => false end.

Definition hasAnyExposure (st : State) : bool :=
  Nat.ltb 0 (length (map_to_list (exposures (sdk st)))).

Definition getExposedExperiments (st : State) : list Attributed :=
  omap (fun entry : string * Exposure =>
          match assignments (sdk st) !! entry.1 with
          | Some assignment =>
              Some {| at_experimentId := entry.1;
                      at_experimentName := asg_experimentName assignment;
                      at_variantId := xp_variantId entry.2;
                      at_variantName := asg_variantName assignment |}
          | None => None
          end)
       (map_to_list (exposures (sdk st))).

Definition windowMs (st : State) : Z :=
  attributionWindowDays (sdk st) * 24 * 60 * 60 * 1000.

(** [now - exposedAt > windowMs] *)
Definition expired (now windowMs : Z) (exposure : Exposure) : bool :=
  Z.ltb windowMs (now - exposedAt exposure).

Definition cleanupStep (now windowMs : Z)
    (acc : gmap string Exposure * bool) (entry : string * Exposure)
    : gmap string Exposure * bool :=
  if expired now windowMs entry.2
  then (delete entry.1 acc.1, true)
  else acc.

(** The loop over [Object.entries] has the dictionary and the flag
    [changed] as its state. *)
Definition cleanupExpiredExposures (st : State) : State :=
  let '(exposures', changed) :=
    fold_left (cleanupStep (now (page (env st))) (windowMs st))
              (map_to_list (exposures (sdk st)))
              (exposures (sdk st), false) in
  let st1 := onSdk (upd_exposures exposures') st in
  if changed then onEnv (LS_setExposures exposures') st1 else st1.

(** ** Targeting *)

Definition orEmpty (o : option string) : string :=
  match o with Some s => s | None => "" end.

(** The callback of [audiences.every] in [checkAudiences]. The first
    [switch] resolves the observed value ([None]: its [default] branch,
    which returns [true] at once). *)
Definition observedValue `{Host} (p : Page) (cookies : gmap string string)
    (aud : AudienceConfig) : option JsVal :=
  if String.eqb (aud_type aud) "DEVICE" then
    Some (JStr (if isMobileUA (userAgent p) then "mobile" else "desktop"))
  else if String.eqb (aud_type aud) "BROWSER" then
    Some (JStr (userAgent p))
  else if String.eqb (aud_type aud) "QUERY_PARAM" then
    Some (match queryParam p (orEmpty (aud_key aud)) with
          | Some v => JStr v
          | None => JNull
          end)
  else if String.eqb (aud_type aud) "COOKIE" then
    Some (match cookies !! orEmpty (aud_key aud) with
          | Some v => JStr v
          | None => JNull
          end)
  else if String.eqb (aud_type aud) "JS_VAR" then
    Some (windowVar p (orEmpty (aud_key aud)))
  else None.

Definition applyOperator `{Host} (operator : string) (userValue value : JsVal)
    : Completion bool :=
  if String.eqb operator "IS" then
    Normal (String.eqb (ToString userValue) (ToString value))
  else if String.eqb operator "IS_NOT" then
    Normal (negb (String.eqb (ToString userValue) (ToString value)))
  else if String.eqb operator "CONTAINS" then
    Normal (strIncludes (ToString userValue) (ToString value))
  else if String.eqb operator "NOT_CONTAINS" then
    Normal (negb (strIncludes (ToString userValue) (ToString value)))
  else if String.eqb operator "MATCHES_REGEX" then
    match newRegExp (ToString value) with
    | Normal r => Normal (regexTest r (ToString userValue))
    | Abrupt e => Abrupt e
    end
  else if String.eqb operator "GREATER_THAN" then
    Normal (numberGt userValue value)
  else if String.eqb operator "LESS_THAN" then
    Normal (numberLt userValue value)
  else Normal true.

Definition checkAudience `{Host} (b : Browser) (aud : AudienceConfig)
    : Completion bool :=
  match observedValue (page b) (cookies b) aud with
  | None => Normal true
  | Some userValue =>
      if isNullish userValue then Normal false
      else applyOperator (aud_operator aud) userValue (aud_value aud)
  end.

(** [audiences.every(cb)]: stops at the first [false], and at a throw. *)
Fixpoint checkAudiences `{Host} (b : Browser) (audiences : list AudienceConfig)
    : Completion bool :=
  match audiences with
  | [] => Normal true
  | aud :: rest =>
      match checkAudience b aud with
      | Normal true => checkAudiences b rest
      | Normal false => Normal false
      | Abrupt e => Abrupt e
      end
  end.

(** ** Assignment *)

(** The [for] loop of [bucket]; [None] when it ends without [return]. *)
Fixpoint bucketLoop (hash weightSum : Z) (variants : list VariantConfig)
    : option string :=
  match variants with
  | [] => None
  | v :: rest =>
      let weightSum := weightSum + trafficWeight v in
      if Z.ltb (Z.rem hash 100) weightSum then Some (var_id v)
      else bucketLoop hash weightSum rest
  end.

(** [variants[0].id] throws a [TypeError] on an empty list. *)
Definition bucket (visitorId salt : string) (variants : list VariantConfig)
    : Completion string :=
  let hash := hashCode (visitorId +:+ salt) in
  match bucketLoop hash 0 variants with
  | Some id => Normal id
  | None =>
      match variants with
      | v0 :: _ => Normal (var_id v0)
      | [] => Abrupt TypeError
      end
  end.

Definition isUserInSample (visitorId expId : string) (allocation : Z) : bool :=
  let hash := hashCode (visitorId +:+ expId +:+ "alloc") in
  Z.ltb (Z.rem hash 100) allocation.

(** [exp.variants.find((v) => v.id === variantId)] *)
Definition findVariant (variantId : string) (variants : list VariantConfig)
    : option VariantConfig :=
  List.find (fun v => String.eqb (var_id v) variantId) variants.

(** [this.assignments[id]?.variantId], as far as its truthiness goes:
    [None] when the entry is missing or its [variantId] is the empty
    string. *)
Definition storedVariantId (id : string) (st : State) : option string :=
  match assignments (sdk st) !! id with
  | Some a => if String.eqb (asg_variantId a) "" then None else Some (asg_variantId a)
  | None => None
  end.

Definition isControlOr (d : bool) (variant : option VariantConfig) : bool :=
  match variant with
  | Some v => match var_isControl v with Some b => b | None => d end
  | None => d
  end.

Definition applyChanges (changes : list ChangeInstruction) (st : State) : State :=
  onEnv (fun b => upd_domChanges (domChanges b ++ changes) b) st.

Definition pushExperimentView (experimentId : string) (experimentName : option string)
    (variantId : string) (variantName : option string) (isControl : bool)
    (st : State) : State :=
  onEnv (fun b =>
    upd_dataLayer
      (dataLayer b ++
       [[("event", JStr "ab_experiment_view");
         ("ab_test", JObj [("experiment_id", JStr experimentId);
                           ("experiment_name", optStr experimentName);
                           ("variant_id", JStr variantId);
                           ("variant_name", optStr variantName);
                           ("is_control", JBool isControl)])]]) b) st.

(** What follows the assignment in the loop body of
    [processExperiments]: changes, exposure, view event. *)
Definition exposeAndLog (exp : ExperimentConfig) (variantId : string)
    (variant : option VariantConfig) (st : State) : State :=
  let st1 :=
    match variant with
    | Some v => if isControlOr false variant then st else applyChanges (changes v) st
    | None => st
    end in
  let st2 := recordExposure (exp_id exp) variantId st1 in
  if bool_decide (exp_id exp ∈ activeExperiments (sdk st2)) then st2
  else
    let st3 :=
      onSdk (fun t => upd_activeExperiments ({[exp_id exp]} ∪ activeExperiments t) t) st2 in
    let st4 :=
      enqueueEvent "EXPERIMENT_VIEW"
        [("experimentId", JStr (exp_id exp));
         ("experimentName", optStr (exp_name exp));
         ("variantId", JStr variantId);
         ("variantName", optStr (match variant with Some v => var_name v | None => None end));
         ("isControl", JBool (isControlOr false variant))] st3 in
    pushExperimentView (exp_id exp) (exp_name exp) variantId
      (match variant with Some v => var_name v | None => None end)
      (isControlOr false variant) st4.

(** The checks at the head of the loop body of [processExperiments]:
    status, URL pattern, audiences. [Normal false] where the source says
    [continue]. *)
Definition targeted `{Host} (exp : ExperimentConfig) (b : Browser) : Completion bool :=
  match exp_status exp with
  | PAUSED => Normal false
  | RUNNING =>
      match newRegExp (exp_urlPattern exp) with
      | Abrupt e => Abrupt e
      | Normal regex =>
          if negb (regexTest regex (href (page b)))
             && negb (regexTest regex (pathname (page b)))
          then Normal false
          else
            match audiences exp with
            | Some auds => checkAudiences b auds
            | None => Normal true
            end
      end
  end.

(** [this.assignments[exp.id] = {...}] and its write to storage. *)
Definition assign (exp : ExperimentConfig) (variantId : string)
    (variant : option VariantConfig) (st : State) : State :=
  let assignments' :=
    <[exp_id exp :=
        {| asg_variantId := variantId;
           asg_variantName := match variant with Some v => var_name v | None => None end;
           asg_experimentName := exp_name exp;
           assignedAt := now (page (env st)) |}]>
      (assignments (sdk st)) in
  onEnv (LS_setAssignments assignments') (onSdk (upd_assignments assignments') st).

(** The body of the loop of [processExperiments]; [ret tt] where the
    source says [continue]. *)
Definition processExperiment `{Host} (exp : ExperimentConfig) : Js unit :=
  let* st := getState in
  let* matched := liftC (targeted exp (env st)) in
  if negb matched then ret tt
  else
    match storedVariantId (exp_id exp) st with
    | None =>
        if negb (isUserInSample (visitorId (sdk st)) (exp_id exp)
                   (trafficAllocation exp))
        then ret tt
        else
          let* variantId :=
            liftC (bucket (visitorId (sdk st)) (exp_id exp) (variants exp)) in
          let variant := findVariant variantId (variants exp) in
          exec (assign exp variantId variant) >>
          exec (exposeAndLog exp variantId variant)
    | Some variantId =>
        exec (exposeAndLog exp variantId (findVariant variantId (variants exp)))
    end.

Definition processExperiments `{Host} : Js unit :=
  let* st := getState in
  match config (sdk st) with
  | None => ret tt
  | Some cfg => forEach processExperiment (experiments cfg)
  end.

(** ** Goal and conversion tracking *)

Definition goalTypeName (t : GoalType) : string :=
  match t with
  | PAGE_VIEW => "PAGE_VIEW"
  | CLICK => "CLICK"
  | FORM_SUBMIT => "FORM_SUBMIT"
  | CUSTOM_EVENT => "CUSTOM_EVENT"
  | SCROLL => "SCROLL"
  | ELEMENT_VISIBILITY => "ELEMENT_VISIBILITY"
  end.

Definition goalTypeEqb (a b : GoalType) : bool :=
  String.eqb (goalTypeName a) (goalTypeName b).

Definition experimentsToDataLayer (l : list Attributed) : JsVal :=
  JArr (map (fun e =>
               JObj [("experiment_id", JStr (at_experimentId e));
                     ("experiment_name", optStr (at_experimentName e));
                     ("variant_id", JStr (at_variantId e));
                     ("variant_name", optStr (at_variantName e))]) l).

Definition pushGoalConversion (goal : GoalConfig) (l : list Attributed)
    (customData : option Obj) (st : State) : State :=
  onEnv (fun b =>
    upd_dataLayer
      (dataLayer b ++
       [spreadOpt
          [("event", JStr "ab_goal_conversion");
           ("ab_goal", JObj [("goal_id", JStr (goal_id goal));
                             ("goal_name", optStr (goal_name goal));
                             ("goal_type", JStr (goalTypeName (goal_type goal)))]);
           ("ab_experiments", experimentsToDataLayer l)]
          customData]) b) st.

Definition pushCustomEvent (eventName : string) (l : list Attributed)
    (customData : option Obj) (st : State) : State :=
  onEnv (fun b =>
    upd_dataLayer
      (dataLayer b ++
       [spreadOpt
          [("event", JStr eventName);
           ("ab_experiments", experimentsToDataLayer l)]
          customData]) b) st.

Definition goalSessionKey (goal : GoalConfig) (st : State) : string :=
  goal_id goal +:+ "_" +:+ sessionId (sdk st).

(** [goal.experimentIds && goal.experimentIds.length > 0] *)
Definition restriction (goal : GoalConfig) : option (list string) :=
  match experimentIds goal with
  | Some (id :: ids) => Some (id :: ids)
  | _ => None
  end.

(** The experiments a conversion of [goal] is attributed to, or [None]
    when the goal is restricted and the filtered list is empty. *)
Definition attribution (goal : GoalConfig) (st : State) : option (list Attributed) :=
  let attributedExperiments := getExposedExperiments st in
  match restriction goal with
  | Some ids =>
      match filter (fun e => at_experimentId e ∈ ids) attributedExperiments with
      | [] => None
      | l => Some l
      end
  | None => Some attributedExperiments
  end.

Definition conversionData (goal : GoalConfig) (l : list Attributed)
    (customData : option Obj) : Obj :=
  spreadOpt [("goalId", JStr (goal_id goal));
             ("goalName", optStr (goal_name goal));
             ("goalType", JStr (goalTypeName (goal_type goal)));
             ("attributedExperiments", JArr (map attributedToJs l))]
            customData.

Definition tryRecordConversion (goal : GoalConfig) (customData : option Obj)
    (st : State) : State :=
  let key := goalSessionKey goal st in
  if bool_decide (key ∈ trackedGoals (sdk st)) then st
  else if negb (hasAnyExposure st) then st
  else
    match attribution goal st with
    | None => st
    | Some attributedExperiments =>
        let st1 := onSdk (fun t => upd_trackedGoals ({[key]} ∪ trackedGoals t) t) st in
        let st2 :=
          enqueueEvent "GOAL_CONVERSION"
            (conversionData goal attributedExperiments customData) st1 in
        pushGoalConversion goal attributedExperiments customData st2
    end.

Definition updateActivity (st : State) : State :=
  onEnv (LS_setLastActivity (now (page (env st)))) st.

(** A selector that is present and not the empty string. *)
Definition truthy (o : option string) : option string :=
  match o with
  | Some s => if String.eqb s "" then None else Some s
  | None => None
  end.

(** The target of a DOM event, seen through the selectors it is tested
    against: [matches s] is [target.matches(s)], [closest s] is
    [target.closest(s) !== null], for a valid selector [s]. *)
Record Target : Type := {
  matches : string -> bool;
  closest : string -> bool
}.

Definition handleGoalInteraction `{Host} (target : Target) (type : GoalType) : Js unit :=
  let* st := getState in
  match config (sdk st) with
  | None => ret tt
  | Some cfg =>
      exec updateActivity >>
      forEach (fun goal =>
        match truthy (goal_selector goal) with
        | None => ret tt
        | Some selector =>
            if negb (goalTypeEqb (goal_type goal) type) then ret tt
            else if negb (selectorValid selector) then throw SyntaxError
            else if negb (matches target selector) && negb (closest target selector)
            then ret tt
            else exec (tryRecordConversion goal None)
        end) (goals cfg)
  end.

(** [setupScrollGoals]: installs the listener unless there is no
    [SCROLL] goal. *)
Definition setupScrollGoals (st : State) : State :=
  match config (sdk st) with
  | None => st
  | Some cfg =>
      match filter (fun g => goalTypeEqb (goal_type g) SCROLL = true) (goals cfg) with
      | [] => st
      | l => onSdk (upd_scrollGoals (Some l)) st
      end
  end.

(** The scroll listener, once the animation frame runs. [scrollPercent]
    is the integer part of the percentage: the threshold it is compared
    with is an integer. *)
Definition onScroll `{Host} (scrollPercent : Z) (st : State) : State :=
  match scrollGoals (sdk st) with
  | None => st
  | Some l =>
      fold_left (fun st goal =>
        match parseInt10 (match truthy (goal_selector goal) with
                          | Some s => s
                          | None => "50"
                          end) with
        | Some threshold =>
            if Z.leb threshold scrollPercent
            then tryRecordConversion goal None st
            else st
        | None => st
        end) l st
  end.

(** [setupVisibilityGoals]: the observer is created first, then
    [querySelectorAll] is called with each selector. *)
Definition setupVisibilityGoals `{Host} : Js unit :=
  let* st := getState in
  match config (sdk st) with
  | None => ret tt
  | Some cfg =>
      match filter (fun g => goalTypeEqb (goal_type g) ELEMENT_VISIBILITY = true
                             ∧ truthy (goal_selector g) ≠ None) (goals cfg) with
      | [] => ret tt
      | l =>
          exec (onSdk (upd_visibilityGoals (Some l))) >>
          forEach (fun goal =>
            if selectorValid (orEmpty (goal_selector goal)) then ret tt
            else throw SyntaxError) l
      end
  end.

(** The observer callback for one intersecting entry. *)
Definition onIntersect `{Host} (target : Target) : Js unit :=
  let* st := getState in
  match visibilityGoals (sdk st) with
  | None => ret tt
  | Some l =>
      forEach (fun goal =>
        if negb (selectorValid (orEmpty (goal_selector goal)))
        then throw SyntaxError
        else if matches target (orEmpty (goal_selector goal))
        then exec (tryRecordConversion goal None)
        else ret tt) l
  end.

Definition checkPageviewGoals `{Host} : Js unit :=
  let* st := getState in
  match config (sdk st) with
  | None => ret tt
  | Some cfg =>
      forEach (fun goal =>
        match goal_type goal, truthy (goal_urlPattern goal) with
        | PAGE_VIEW, Some urlPattern =>
            let* regex := liftC (newRegExp urlPattern) in
            if regexTest regex (href (page (env st)))
            then exec (tryRecordConversion goal None)
            else ret tt
        | _, _ => ret tt
        end) (goals cfg)
  end.

Definition setupGoals `{Host} : Js unit :=
  let* st := getState in
  match config (sdk st) with
  | None => ret tt
  | Some _ =>
      exec setupScrollGoals >>
      setupVisibilityGoals >>
      checkPageviewGoals
  end.

(** The public [trackEvent(eventName, data)]. *)
Definition trackEvent (eventName : string) (data : option Obj) (st : State) : State :=
  if negb (hasAnyExposure st) then st
  else
    let exposedExperiments := getExposedExperiments st in
    let st1 :=
      match config (sdk st) with
      | Some cfg =>
          fold_left (fun st goal =>
            match goal_type goal with
            | CUSTOM_EVENT =>
                if bool_decide (goal_eventName goal = Some eventName)
                then tryRecordConversion goal data st
                else st
            | _ => st
            end) (goals cfg) st
      | None => st
      end in
    let st2 := pushCustomEvent eventName exposedExperiments data st1 in
    enqueueEvent "CUSTOM_EVENT"
      (spreadOpt [("eventName", JStr eventName);
                  ("attributedExperiments", JArr (map attributedToJs exposedExperiments))]
                 data) st2.

(** [handleUrlChange], run on [popstate], [pushState] and [replaceState]. *)
Definition handleUrlChange `{Host} : Js unit :=
  tryCatch processExperiments >> checkPageviewGoals.

(** ** Configuration store and initialisation *)

(** What the [fetch] of [loadConfig] comes to: a configuration, or a
    failure (network error, abort after 800 ms, status that is not ok,
    body that is not JSON). *)
Inductive FetchResult : Type :=
  | FetchOk (cfg : ProjectConfig)
  | FetchFailed.

Definition CACHE_TTL : Z := 60 * 1000.

Definition loadConfig (response : FetchResult) (st : State) : State :=
  let cached := ls_configCache (env st) in
  let fresh :=
    match cached with
    | Some (ts, data) =>
        if Z.ltb (now (page (env st)) - ts) CACHE_TTL then Some data else None
    | None => None
    end in
  match fresh with
  | Some data => onSdk (upd_config (Some data)) st
  | None =>
      match response with
      | FetchOk cfg =>
          onEnv (LS_setConfigCache (now (page (env st)), cfg))
                (onSdk (upd_config (Some cfg)) st)
      | FetchFailed =>
          match cached with
          | Some (_, data) => onSdk (upd_config (Some data)) st
          | None => st
          end
      end
  end.

(** [init], from the point where the configuration request has settled.
    Without configuration the [try] block reveals the page and returns,
    and the [finally] block reveals it once more. *)
Definition init `{Host} (response : FetchResult) : Js unit :=
  exec (loadConfig response) >>
  let* st := getState in
  match config (sdk st) with
  | None => exec revealPage >> exec revealPage
  | Some _ => tryCatch (processExperiments >> setupGoals) >> exec revealPage
  end.

(** ** Identity and construction *)

Record InitOptions : Type := {
  opt_projectId : string;
  opt_ingestUrl : string;
  opt_configUrl : string;
  opt_debug : option bool;
  opt_antiFlickerTimeout : option Z;
  opt_attributionWindowDays : option Z
}.

(** [uuid] is what [generateUUID()] would return. *)
Definition resolveVisitorId (uuid : string) (b : Browser) : string * Browser :=
  let vid :=
    match truthy (cookies b !! STORAGE_KEYS.VISITOR_ID) with
    | Some v => v
    | None =>
        match truthy (ls_visitorId b) with
        | Some v => v
        | None => uuid
        end
    end in
  (vid, LS_setVisitorId vid (upd_cookies (<[STORAGE_KEYS.VISITOR_ID := vid]> (cookies b)) b)).

Definition SESSION_TIMEOUT_MS : Z := 30 * 60 * 1000.

(** Returns the session id and, for a new session, the [SESSION_START]
    envelope. [enqueueEvent] runs here before the constructor has
    assigned [this.sessionId], so the envelope carries [undefined]. *)
Definition resolveSessionId (projectId visitorId uuid : string) (b : Browser)
    : string * list Obj * Browser :=
  let now := now (page b) in
  let lastActive := match ls_lastActivity b with Some t => t | None => 0 end in
  match truthy (ss_sessionId b) with
  | Some sid =>
      if Z.ltb SESSION_TIMEOUT_MS (now - lastActive)
      then (uuid,
            [envelopeOf projectId visitorId JUndefined (page b) "SESSION_START"
               [("referrer", JStr (referrer (page b)))]],
            LS_setLastActivity now (upd_ss_sessionId (Some uuid) b))
      else (sid, [], LS_setLastActivity now b)
  | None =>
      (uuid,
       [envelopeOf projectId visitorId JUndefined (page b) "SESSION_START"
          [("referrer", JStr (referrer (page b)))]],
       LS_setLastActivity now (upd_ss_sessionId (Some uuid) b))
  end.

(** The constructor, up to the call of [init]. The listeners it installs
    are the handlers above. *)
Definition construct (opts : InitOptions) (uuidV uuidS : string) (b : Browser) : State :=
  let b0 := upd_pageHidden true b in
  let '(vid, b1) := resolveVisitorId uuidV b0 in
  let '(sid, queue, b2) := resolveSessionId (opt_projectId opts) vid uuidS b1 in
  cleanupExpiredExposures
    {| sdk :=
         {| projectId := opt_projectId opts;
            ingestUrl := opt_ingestUrl opts;
            configUrl := opt_configUrl opts;
            visitorId := vid;
            sessionId := sid;
            assignments := match ls_assignments b2 with Some a => a | None => ∅ end;
            exposures := match ls_exposures b2 with Some x => x | None => ∅ end;
            config := None;
            eventQueue := queue;
            debug := match opt_debug opts with Some d => d | None => false end;
            activeExperiments := ∅;
            antiFlickerTimeout :=
              match opt_antiFlickerTimeout opts with Some t => t | None => 1500 end;
            attributionWindowDays :=
              match opt_attributionWindowDays opts with Some d => d | None => 30 end;
            isRevealed := false;
            trackedGoals := ∅;
            scrollGoals := None;
            visibilityGoals := None |};
       env := b2 |}.

(** ** Life of an instance *)

Inductive Event : Type :=
  | ConfigSettled (response : FetchResult)
  | FailsafeTimeout
  | Click (target : Target)
  | Submit (target : Target)
  | Scroll (scrollPercent : Z)
  | Intersect (target : Target)
  | UrlChange
  | TrackEvent (eventName : string) (data : option Obj)
  | VisibilityHidden
  | PageHide
  | Flush.

Definition handler `{Host} (ev : Event) : Js unit :=
  match ev with
  | ConfigSettled response => init response
  | FailsafeTimeout => exec revealPage
  | Click target => handleGoalInteraction target CLICK
  | Submit target => handleGoalInteraction target FORM_SUBMIT
  | Scroll scrollPercent => exec (onScroll scrollPercent)
  | Intersect target => onIntersect target
  | UrlChange => handleUrlChange
  | TrackEvent eventName data => exec (trackEvent eventName data)
  | VisibilityHidden | PageHide | Flush => exec flushEvents
  end.

(** One turn of the event loop: the browser shows [p] (clock, location)
    and runs the handler; what a handler throws goes to the console. *)
Definition dispatch `{Host} (st : State) (turn : Page * Event) : State :=
  (handler turn.2 (onEnv (upd_page turn.1) st)).2.

Definition run `{Host} (turns : list (Page * Event)) (st : State) : State :=
  fold_left dispatch turns st.

(** A reload of the page in the same tab: storage and cookies stay, the
    document and its data layer are new, and the constructor runs again. *)
Definition reloadBrowser (p : Page) (b : Browser) : Browser :=
  upd_page p (upd_dataLayer [] (upd_domChanges [] b)).

Definition reload (opts : InitOptions) (uuidV uuidS : string) (p : Page)
    (st : State) : State :=
  construct opts uuidV uuidS (reloadBrowser p (env st)).

(** ** The bucketing rule in the words of the specification

    These definitions follow the specification, not the code; they are
    compared with [hashCode] and [bucket] below. *)

(** "shift-5 minus self, add char code, truncate to 32 bits" *)
Definition specHashStep (hash charCode : Z) : Z :=
  ToInt32 (hash * 2 ^ 5 - hash + charCode).

(** "a 32-bit signed hash ... take absolute value" *)
Definition specHash (s : string) : Z :=
  Z.abs (fold_left specHashStep (codeUnits s) 0).

(** The polynomial the rolling hash evaluates, on unbounded integers. *)
Definition polynomial31 (cs : list Z) : Z :=
  fold_left (fun acc c => 31 * acc + c) cs 0.

(** "accumulating [trafficWeight]": the running sums, in declared order. *)
Fixpoint runningSums (acc : Z) (weights : list Z) : list Z :=
  match weights with
  | [] => []
  | w :: rest => (acc + w) :: runningSums (acc + w) rest
  end.

Definition cumulativeWeights (variants : list VariantConfig) : list Z :=
  runningSums 0 (trafficWeight <$> variants).

(** The cumulative weight of the variant at position [k]: the sum of
    the weights declared up to and including it. *)
Definition cumulativeWeight (variants : list VariantConfig) (k : nat) : Z :=
  foldr Z.add 0 (trafficWeight <$> take (S k) variants).

(** "the first variant whose cumulative weight exceeds the bucketing
    hash mod 100" *)
Definition firstExceeding (r : Z) (variants : list VariantConfig)
    : option VariantConfig :=
  (fun found : nat * (VariantConfig * Z) => found.2.1) <$>
    list_find (fun vc : VariantConfig * Z => r < vc.2)
              (zip variants (cumulativeWeights variants)).

(** "... if rounding/weight gaps leave no match, assign the first
    declared variant as a fallback" *)
Definition specBucket (visitorId experimentId : string)
    (variants : list VariantConfig) : option VariantConfig :=
  match firstExceeding (specHash (visitorId +:+ experimentId) mod 100) variants with
  | Some v => Some v
  | None => head variants
  end.

(** ** Observations on a state *)

Definition eventTypeIs (type : string) (e : Obj) : bool :=
  match obj_get "eventType" e with
  | Some (JStr t) => String.eqb t type
  | _ => false
  end.

Definition fieldIs (k v : string) (e : Obj) : bool :=
  match obj_get k e with
  | Some (JStr s) => String.eqb s v
  | _ => false
  end.

(** The [GOAL_CONVERSION] envelopes queued so far. *)
Definition conversions (st : State) : list Obj :=
  List.filter (eventTypeIs "GOAL_CONVERSION") (enqueued st).

(** The [GOAL_CONVERSION] envelopes queued so far for one goal in one session. *)
Definition conversionsOf (goalId sessionId : string) (l : list Obj) : list Obj :=
  List.filter (fun e => eventTypeIs "GOAL_CONVERSION" e
                        && fieldIs "goalId" goalId e
                        && fieldIs "sessionId" sessionId e) l.

(** The [EXPERIMENT_VIEW] envelopes of one experiment. *)
Definition viewsOf (experimentId : string) (l : list Obj) : list Obj :=
  List.filter (fun e => eventTypeIs "EXPERIMENT_VIEW" e
                        && fieldIs "experimentId" experimentId e) l.

(** The experiment ids an envelope is attributed to. *)
Definition attributedIds (l : list Attributed) : gset string :=
  list_to_set (at_experimentId <$> l).

(** The experiments a conversion of [goal] can be attributed to: exposed,
    with a stored assignment, and among [goal.experimentIds] when that
    list is present and not empty. *)
Definition attributableIds (goal : GoalConfig) (st : State) : gset string :=
  let exposed := dom (exposures (sdk st)) ∩ dom (assignments (sdk st)) in
  match restriction goal with
  | Some ids => exposed ∩ list_to_set ids
  | None => exposed
  end.

(** Custom data that leaves the fields written by the SDK alone. *)
Definition reservedKeys : list string :=
  ["projectId"; "visitorId"; "sessionId"; "timestamp"; "eventType"; "url";
   "goalId"; "goalName"; "goalType"; "attributedExperiments"].

Definition plainData (customData : option Obj) : Prop :=
  match customData with
  | Some d => Forall (fun kv : string * JsVal => kv.1 ∉ reservedKeys) d
  | None => True
  end.

(** The attribution rule as the specification words it, for one
    conversion attempt: what is queued is attributed to the intersection
    of the goal's experiment ids with the visitor's exposures, or to all
    exposures when the goal has no restriction. *)
Definition attributedToExposures (goal : GoalConfig) (customData : option Obj)
    (st : State) : Prop :=
  forall (e : Obj) (l : list Attributed),
    enqueued (tryRecordConversion goal customData st) = enqueued st ++ [e] ->
    obj_get "attributedExperiments" e = Some (JArr (attributedToJs <$> l)) ->
    attributedIds l
    = match restriction goal with
      | Some ids => dom (exposures (sdk st)) ∩ list_to_set ids
      | None => dom (exposures (sdk st))
      end.

(** Assignment stability as the specification words it: whatever the
    configuration now says, processing leaves the variant of a persisted
    assignment as it is. *)
Definition assignmentStable `{Host} (st : State) (cfg : ProjectConfig)
    (experimentId : string) : Prop :=
  forall a : Assignment,
    assignments (sdk st) !! experimentId = Some a ->
    asg_variantId <$>
      (assignments (sdk (processExperiments (onSdk (upd_config (Some cfg)) st)).2)
         !! experimentId)
    = Some (asg_variantId a).

(** Scenario B of the specification, last part: after the reload, the
    views queued for the experiment are those queued before it. *)
Definition noDuplicateView (experimentId : string) (before after : State) : Prop :=
  viewsOf experimentId (enqueued after) = viewsOf experimentId (enqueued before).

(** The audience types and operators the two [switch] statements of
    [checkAudiences] name. *)
Definition knownType (type : string) : bool :=
  bool_decide (type ∈ ["DEVICE"; "BROWSER"; "QUERY_PARAM"; "COOKIE"; "JS_VAR"]).

Definition knownOperator (operator : string) : bool :=
  bool_decide (operator ∈ ["IS"; "IS_NOT"; "CONTAINS"; "NOT_CONTAINS";
                           "MATCHES_REGEX"; "GREATER_THAN"; "LESS_THAN"]).

(** The experiment with its audience list left out. *)
Definition withoutAudiences (exp : ExperimentConfig) : ExperimentConfig :=
  {| exp_id := exp_id exp; exp_name := exp_name exp; exp_status := exp_status exp;
     trafficAllocation := trafficAllocation exp; exp_urlPattern := exp_urlPattern exp;
     audiences := None; variants := variants exp |}.

(** "A predicate whose operator is not one of the seven defined
    operators is treated as matched." *)
Definition unknownOperatorMatches `{Host} (b : Browser) (aud : AudienceConfig) : Prop :=
  knownOperator (aud_operator aud) = false -> checkAudience b aud = Normal true.

(** What the conversion gate reads and writes: the session, the goals
    recorded for it, and the conversions queued so far. *)
Definition gateView (st : State) : string * gset string * list Obj :=
  (sessionId (sdk st), trackedGoals (sdk st), conversions st).

(** At most one conversion is queued per goal for the session of the
    instance, and only for a goal recorded in [trackedGoals]. *)
Definition Dedup (st : State) : Prop :=
  forall goalId : string,
    (length (conversionsOf goalId (sessionId (sdk st)) (conversions st))
     <= if bool_decide (goalId +:+ "_" +:+ sessionId (sdk st) ∈ trackedGoals (sdk st))
        then 1 else 0)%nat.

(** The turns whose custom data leaves the SDK's fields alone. *)
Definition plainTurn (turn : Page * Event) : Prop :=
  match turn.2 with
  | TrackEvent _ data => plainData data
  | _ => True
  end.



(** ** Storage engine *)

(** The members a plain object inherits from [Object.prototype]. *)
Definition objectPrototypeKeys : list string :=
  ["constructor"; "__proto__"; "hasOwnProperty"; "isPrototypeOf";
   "propertyIsEnumerable"; "toLocaleString"; "toString"; "valueOf";
   "__defineGetter__"; "__defineSetter__"; "__lookupGetter__"; "__lookupSetter__"].

(** What [getItem] returns: a string or, from [MemoryStorage], a member
    that its store object inherits; [None] is [null]. *)
Inductive Item : Type :=
  | ItemString (s : string)
  | ItemInherited (key : string).

(** [class MemoryStorage]: [store] holds the own properties of
    [this.store]. *)
Module MemoryStorage.

(** [return this.store[key] || null] *)
Definition getItem (key : string) (store : gmap string string) : option Item :=
  match store !! key with
  | Some v => if String.eqb v "" then None else Some (ItemString v)
  | None =>
      if bool_decide (key ∈ objectPrototypeKeys) then Some (ItemInherited key) else None
  end.

(** [this.store[key] = value]; the assignment of a string to [__proto__]
    is ignored. *)
Definition setItem (key value : string) (store : gmap string string)
    : gmap string string :=
  if String.eqb key "__proto__" then store else <[key := value]> store.

(** [delete this.store[key]] *)
Definition removeItem (key : string) (store : gmap string string)
    : gmap string string :=
  delete key store.

End MemoryStorage.

(** A [Storage] object of the browser: its items, whether access to it
    is denied (every method throws), and the writes it accepts ([setItem]
    throws for the others, as when the quota is exceeded). *)
Record WebStorage : Type := {
  ws_items : gmap string string;
  ws_denied : bool;
  ws_accepts : string -> string -> bool
}.

(** The three methods of [Storage]; [None] when they throw. *)
Definition ws_getItem (key : string) (w : WebStorage) : option (option Item) :=
  if ws_denied w then None else Some (ItemString <$> ws_items w !! key).

Definition ws_setItem (key value : string) (w : WebStorage) : option WebStorage :=
  if ws_denied w || negb (ws_accepts w key value) then None
  else Some {| ws_items := <[key := value]> (ws_items w);
               ws_denied := ws_denied w; ws_accepts := ws_accepts w |}.

Definition ws_removeItem (key : string) (w : WebStorage) : option WebStorage :=
  if ws_denied w then None
  else Some {| ws_items := delete key (ws_items w);
               ws_denied := ws_denied w; ws_accepts := ws_accepts w |}.

(** [class SafeStorage]. [storage] is [this.storage] when it is the
    browser's object, and [None] when the constructor has replaced it by
    [this.fallback]. *)
Module SafeStorage.

Record t : Type := {
  storage : option WebStorage;
  fallback : gmap string string
}.

(** The constructor; [window_type] is [window[type]], [None] when the
    access throws or gives no object. *)
Definition new (window_type : option WebStorage) : t :=
  let x := "__ab_test__" in
  match window_type with
  | Some w =>
      match ws_setItem x x w with
      | Some w1 =>
          match ws_removeItem x w1 with
          | Some w2 => {| storage := Some w2; fallback := ∅ |}
          | None => {| storage := None; fallback := ∅ |}
          end
      | None => {| storage := None; fallback := ∅ |}
      end
  | None => {| storage := None; fallback := ∅ |}
  end.

Definition getItem (key : string) (s : t) : option Item :=
  match storage s with
  | Some w =>
      match ws_getItem key w with
      | Some item => item
      | None => MemoryStorage.getItem key (fallback s)
      end
  | None => MemoryStorage.getItem key (fallback s)
  end.

Definition setItem (key val : string) (s : t) : t :=
  match storage s with
  | Some w =>
      match ws_setItem key val w with
      | Some w' => {| storage := Some w'; fallback := fallback s |}
      | None => {| storage := Some w;
                   fallback := MemoryStorage.setItem key val (fallback s) |}
      end
  | None => {| storage := None; fallback := MemoryStorage.setItem key val (fallback s) |}
  end.

Definition removeItem (key : string) (s : t) : t :=
  match storage s with
  | Some w =>
      match ws_removeItem key w with
      | Some w' => {| storage := Some w'; fallback := fallback s |}
      | None => {| storage := Some w;
                   fallback := MemoryStorage.removeItem key (fallback s) |}
      end
  | None => {| storage := None; fallback := MemoryStorage.removeItem key (fallback s) |}
  end.

End SafeStorage.

(** ** Cookie utilities *)

(** [s.split(sep)] for a separator of one character. *)
Fixpoint splitChar (sep : Ascii.ascii) (s : string) : list string :=
  match s with
  | EmptyString => [EmptyString]
  | String c rest =>
      if Ascii.eqb c sep then EmptyString :: splitChar sep rest
      else match splitChar sep rest with
           | piece :: pieces => String c piece :: pieces
           | [] => [String c EmptyString]
           end
  end.

(** [while (c.charAt(0) == " ") c = c.substring(1, c.length)] *)
Fixpoint trimLeadingSpaces (c : string) : string :=
  match c with
  | String a rest => if Ascii.eqb a " " then trimLeadingSpaces rest else c
  | EmptyString => c
  end.

Module CookieUtils.

(** The loop of [get] over the pieces of [document.cookie]. *)
Fixpoint getLoop (nameEQ : string) (ca : list string) : option string :=
  match ca with
  | [] => None
  | c :: rest =>
      let c := trimLeadingSpaces c in
      if String.prefix nameEQ c
      then Some (String.substring (String.length nameEQ)
                   (String.length c - String.length nameEQ) c)
      else getLoop nameEQ rest
  end.

(** [CookieUtils.get(name)], reading [document.cookie]. *)
Definition get (name : string) (documentCookie : string) : option string :=
  let nameEQ := name +:+ "=" in
  getLoop nameEQ (splitChar ";" documentCookie).

End CookieUtils.

(** ** DOM manipulation *)

(** What [applyChangeToElements] does to one element. *)
Inductive DomOperation : Type :=
  | SetTextContent (value : option string)
  | SetInnerHTML (value : option string)
  | AppendCssText (value : option string)
  | ClassListAdd (value : option string)
  | ClassListRemove (value : option string)
  | SetAttribute (name : string) (value : option string)
  | InsertAdjacentHTML (position html : string)
  | SetOuterHTML (html : string)
  | AppendToFirstMatch (selector : string)
  | AppendScriptToHead (text : string).

(** The body of the [switch] of [applyChangeToElements]; [None] when a
    guard of the chosen case fails and nothing is done. *)
Definition changeOperation (change : ChangeInstruction) : option DomOperation :=
  let allowInnerHTML :=
    match chg_allowInnerHTML change with Some b => b | None => false end in
  match chg_action change with
  | setText => Some (SetTextContent (chg_value change))
  | setHTML =>
      if allowInnerHTML then Some (SetInnerHTML (chg_value change)) else None
  | setStyle => Some (AppendCssText (chg_value change))
  | addClass => Some (ClassListAdd (chg_value change))
  | removeClass => Some (ClassListRemove (chg_value change))
  | setAttr =>
      match truthy (chg_attributeName change) with
      | Some name => Some (SetAttribute name (chg_value change))
      | None => None
      end
  | insertAdjacentHTML =>
      match truthy (chg_value change) with
      | Some html => if allowInnerHTML then Some (InsertAdjacentHTML "beforeend" html) else None
      | None => None
      end
  | replaceNode =>
      match truthy (chg_value change) with
      | Some html => if allowInnerHTML then Some (SetOuterHTML html) else None
      | None => None
      end
  | moveNode =>
      match truthy (chg_value change) with
      | Some selector => Some (AppendToFirstMatch selector)
      | None => None
      end
  | runScript => Some (AppendScriptToHead (orEmpty (chg_value change)))
  end.

(** [elements.forEach(...)]: the operation attempted on each element,
    in order; an operation that throws is logged and the loop goes on. *)
Definition applyChangeToElements {Element : Type} (elements : list Element)
    (change : ChangeInstruction) : list (Element * DomOperation) :=
  omap (fun el => (fun op => (el, op)) <$> changeOperation change) elements.

(** The operations that parse their argument as markup or run it as a
    script. *)
Definition interpretsText (op : DomOperation) : bool :=
  match op with
  | SetInnerHTML _ | InsertAdjacentHTML _ _ | SetOuterHTML _ | AppendScriptToHead _ => true
  | _ => false
  end.

(** ** Identifiers *)

(** [n.toString(16)] for an integer [n]. *)
Definition hexChar (d : Z) : Ascii.ascii :=
  nth (Z.to_nat d) (String.list_ascii_of_string "0123456789abcdef") "0"%char.

Fixpoint hexDigits (fuel : nat) (n : Z) (acc : string) : string :=
  match fuel with
  | O => acc
  | S fuel' =>
      let acc' := String (hexChar (n mod 16)) acc in
      if Z.eqb (n / 16) 0 then acc' else hexDigits fuel' (n / 16) acc'
  end.

Definition toString16 (n : Z) : string :=
  if Z.ltb n 0 then "-" +:+ hexDigits (S (Z.to_nat (Z.log2 (- n)))) (- n) ""
  else hexDigits (S (Z.to_nat (Z.log2 n))) n "".

(** [[1e7] + -1e3 + -4e3 + -8e3 + -1e11]: the array and the numbers are
    converted to strings and concatenated. *)
Definition uuidTemplate : string :=
  "10000000" +:+ "-1000" +:+ "-4000" +:+ "-8000" +:+ "-100000000000".

(** The callback of [replace]: [c] is the matched character, [random]
    the byte [crypto.getRandomValues(new Uint8Array(1))[0]]. In
    [c ^ (random & (15 >> (c / 4)))] the character is converted to the
    digit it shows, and the shift count to an integer, towards zero. *)
Definition uuidDigit (c : Ascii.ascii) (random : Z) : string :=
  let c := charCode c - 48 in
  toString16 (Z.lxor c (Z.land random (Z.shiftr 15 (Z.quot c 4)))).

(** [/[018]/] *)
Definition is018 (c : Ascii.ascii) : bool :=
  Ascii.eqb c "0" || Ascii.eqb c "1" || Ascii.eqb c "8".

(** [s.replace(/[018]/g, callback)]: the callback runs once for each
    match, from left to right; [random k] is the byte drawn by call
    number [k]. *)
Fixpoint replace018 (random : nat -> Z) (calls : nat) (s : string) : string :=
  match s with
  | EmptyString => EmptyString
  | String c rest =>
      if is018 c
      then uuidDigit c (random calls) +:+ replace018 random (S calls) rest
      else String c (replace018 random calls rest)
  end.

Definition generateUUID (random : nat -> Z) : string :=
  replace018 random 0 uuidTemplate.

(** How a character of the result relates to the character of the
    template at the same place. *)
Definition uuidChar (template result : Ascii.ascii) : Prop :=
  if is018 template
  then exists d, (if Ascii.eqb template "8" then 8 <= d < 12 else 0 <= d < 16) /\
                 result = hexChar d
  else result = template.

(** A character of a UUID in its textual form. *)
Definition isHexDigit (c : Ascii.ascii) : bool :=
  bool_decide (c ∈ String.list_ascii_of_string "0123456789abcdef").

(** ** Public API *)

Definition isExposed (experimentId : string) (st : State) : bool :=
  isExposedToExperiment experimentId st.

Definition hasExposure (st : State) : bool := hasAnyExposure st.

(** [this.assignments[experimentId]?.variantId || null] *)
Definition getVariant (experimentId : string) (st : State) : option string :=
  match assignments (sdk st) !! experimentId with
  | Some a => truthy (Some (asg_variantId a))
  | None => None
  end.

(** [{ ...this.exposures }] *)
Definition getExposures (st : State) : gmap string Exposure := exposures (sdk st).

Definition flush (st : State) : State := flushEvents st.

(** ** Observations on a run *)

(** [parseInt(LS.getItem(STORAGE_KEYS.LAST_ACTIVITY) || "0")] *)
Definition lastActive (b : Browser) : Z :=
  match ls_lastActivity b with Some t => t | None => 0 end.

(** The events handled by [handleGoalInteraction]. *)
Definition interacts (ev : Event) : bool :=
  match ev with
  | Click _ | Submit _ => true
  | _ => false
  end.

(** The events after which the page is shown. *)
Definition reveals (ev : Event) : bool :=
  match ev with
  | ConfigSettled _ | FailsafeTimeout => true
  | _ => false
  end.

(** The queue is below the flush threshold and every request body
    holds between one and five envelopes. *)
Definition Batched (st : State) : Prop :=
  (length (eventQueue (sdk st)) < 5)%nat /\
  Forall (fun batch : list Obj => (1 <= length batch <= 5)%nat) (posted (env st)).



(** The ledgers of [later] extend those of [earlier]: an assignment with
    a variant is kept as it is, an exposure keeps its variant and the
    time of the first exposure, and its count does not decrease. *)
Definition extends (earlier later : State) : Prop :=
  (forall id a, assignments (sdk earlier) !! id = Some a -> asg_variantId a <> "" ->
     assignments (sdk later) !! id = Some a) /\
  (forall id x, exposures (sdk earlier) !! id = Some x ->
     exists x', exposures (sdk later) !! id = Some x' /\
                xp_variantId x' = xp_variantId x /\
                exposedAt x' = exposedAt x /\
                exposureCount x <= exposureCount x') /\
  activeExperiments (sdk earlier) ⊆ activeExperiments (sdk later) /\
  trackedGoals (sdk earlier) ⊆ trackedGoals (sdk later).


(** The fields that [extends] reads. *)
Definition ledgerView (st : State) :=
  (assignments (sdk st), exposures (sdk st),
   activeExperiments (sdk st), trackedGoals (sdk st)).


(** ** Cookies as the document shows them *)

Definition hasChar (a : Ascii.ascii) (s : string) : bool :=
  existsb (Ascii.eqb a) (String.list_ascii_of_string s).

(** [document.cookie] for a jar of name-value pairs: the pairs
    [name=value], joined by a semicolon and a space. *)
Fixpoint documentCookie (jar : list (string * string)) : string :=
  match jar with
  | [] => ""
  | (k, v) :: rest =>
      match rest with
      | [] => k +:+ "=" +:+ v
      | _ :: _ => k +:+ "=" +:+ v +:+ "; " +:+ documentCookie rest
      end
  end.

(** A cookie as browsers store it: no semicolon in the name or the
    value, no equals sign and no space in the name. *)
Definition plainCookie (kv : string * string) : Prop :=
  hasChar ";" kv.1 = false /\ hasChar "=" kv.1 = false /\
  hasChar " " kv.1 = false /\ hasChar ";" kv.2 = false.

(** The audience with another operator. *)
Definition withOperator (operator : string) (aud : AudienceConfig) : AudienceConfig :=
  {| aud_type := aud_type aud; aud_key := aud_key aud;
     aud_operator := operator; aud_value := aud_value aud |}.


(** ** Example data

    A host that agrees with the browser on the inputs used below: the
    patterns are [.*] and plain words, the numbers are integers. *)

Definition digitValue (a : Ascii.ascii) : option Z :=
  let n := charCode a in
  if Z.leb 48 n && Z.leb n 57 then Some (n - 48) else None.

Fixpoint parseDigits (acc : option Z) (s : string) : option Z :=
  match s with
  | EmptyString => acc
  | String a rest =>
      match digitValue a with
      | Some d => parseDigits (Some (10 * match acc with Some n => n | None => 0 end + d)) rest
      | None => acc
      end
  end.

Definition exampleHost : Host :=
  {| Regex := string;
     regexCompile := fun p => if String.eqb p "(" then None else Some p;
     regexTest := fun r s => String.eqb r ".*" || strIncludes s r;
     isMobileUA := fun ua => strIncludes ua "Mobi" || strIncludes ua "Android";
     ToString := fun v =>
       match v with
       | JStr s => s
       | JNum n => pretty.pretty n
       | JBool true => "true"
       | JBool false => "false"
       | JNull => "null"
       | JUndefined => "undefined"
       | JArr _ => ""
       | JObj _ => "[object Object]"
       end;
     numberGt := fun a b =>
       match a, b with JNum x, JNum y => Z.ltb y x | _, _ => false end;
     numberLt := fun a b =>
       match a, b with JNum x, JNum y => Z.ltb x y | _, _ => false end;
     parseInt10 := parseDigits None;
     selectorValid := fun s => negb (String.eqb s "") |}.

Definition variantA : VariantConfig :=
  {| var_id := "var_a"; var_name := Some "Control"; var_isControl := Some true;
     trafficWeight := 50; changes := [] |}.

Definition variantB : VariantConfig :=
  {| var_id := "var_b"; var_name := Some "Blue button"; var_isControl := Some false;
     trafficWeight := 50;
     changes := [{| chg_selector := "#buy"; chg_action := addClass;
                    chg_value := Some "blue"; chg_attributeName := None;
                    chg_allowInnerHTML := None; chg_waitForSelector := None |}] |}.

Definition experiment1 : ExperimentConfig :=
  {| exp_id := "exp_1"; exp_name := Some "Button colour"; exp_status := RUNNING;
     trafficAllocation := 100; exp_urlPattern := ".*"; audiences := None;
     variants := [variantA; variantB] |}.

(** A click goal without restriction, and one restricted to another experiment. *)
Definition goal1 : GoalConfig :=
  {| goal_id := "goal_1"; goal_name := Some "Buy"; goal_type := CLICK;
     goal_selector := Some "#buy"; goal_urlPattern := None;
     goal_eventName := None; experimentIds := None |}.

Definition goal2 : GoalConfig :=
  {| goal_id := "goal_2"; goal_name := Some "Subscribe"; goal_type := CLICK;
     goal_selector := Some "#subscribe"; goal_urlPattern := None;
     goal_eventName := None; experimentIds := Some ["exp_2"] |}.

Definition config1 : ProjectConfig :=
  {| cfg_projectId := "proj_1"; experiments := [experiment1];
     goals := [goal1; goal2]; cfg_version := Some 1 |}.

Definition pageAt (t : Z) : Page :=
  {| now := t; href := "https://shop.example/"; pathname := "/";
     referrer := ""; userAgent := "Mozilla/5.0 (X11; Linux x86_64)";
     queryParam := fun _ => None; windowVar := fun _ => JUndefined |}.

(** A browser that has never run the SDK. *)
Definition freshBrowser (p : Page) : Browser :=
  {| page := p; cookies := ∅; ls_visitorId := None; ls_lastActivity := None;
     ls_assignments := None; ls_exposures := None; ls_configCache := None;
     ss_sessionId := None; ls_setItems := []; dataLayer := []; posted := [];
     domChanges := []; pageHidden := false |}.

Definition options1 : InitOptions :=
  {| opt_projectId := "proj_1"; opt_ingestUrl := "https://ingest.example/e";
     opt_configUrl := "https://cdn.example/config.json"; opt_debug := None;
     opt_antiFlickerTimeout := None; opt_attributionWindowDays := None |}.

Definition buyButton : Target :=
  {| matches := fun s => String.eqb s "#buy"; closest := fun s => String.eqb s "#buy" |}.

(** First visit at time 1000: the configuration is fetched and the
    experiment is processed. *)
Definition firstLoad : State :=
  run (H := exampleHost) [(pageAt 1000, ConfigSettled (FetchOk config1))]
    (construct options1 "visitor-1" "session-1" (freshBrowser (pageAt 1000))).

(** The visitor clicks the button, then the page is hidden and left. *)
Definition firstVisit : State :=
  run (H := exampleHost) [(pageAt 2000, Click buyButton); (pageAt 3000, PageHide)] firstLoad.

(** The same tab loads the page again after five minutes: same session.
    The cached configuration is older than a minute and the new request
    fails, so the stale copy is used. *)
Definition secondLoad : State :=
  run (H := exampleHost) [(pageAt 300000, ConfigSettled FetchFailed)]
    (reload options1 "visitor-2" "session-2" (pageAt 300000) firstVisit).

Definition secondVisit : State :=
  run (H := exampleHost) [(pageAt 301000, Click buyButton)] secondLoad.

(** An instance whose exposure map has an entry without a stored
    assignment (the two dictionaries are read from separate storage
    keys). *)
Definition exposedUnassigned : State :=
  construct options1 "visitor-1" "session-1"
    (upd_ls_exposures
       (Some {["exp_1" := {| xp_variantId := "var_b"; exposedAt := 0; exposureCount := 1 |}]})
       (freshBrowser (pageAt 1000))).

(** An experiment whose first variant has the empty string as its id,
    with the two weights left open. *)
Definition experimentW (w0 w1 : Z) : ExperimentConfig :=
  {| exp_id := "exp_1"; exp_name := None; exp_status := RUNNING;
     trafficAllocation := 100; exp_urlPattern := ".*"; audiences := None;
     variants :=
       [{| var_id := ""; var_name := None; var_isControl := Some true;
           trafficWeight := w0; changes := [] |};
        {| var_id := "var_b"; var_name := None; var_isControl := Some false;
           trafficWeight := w1; changes := [] |}] |}.

Definition configW (w0 w1 : Z) : ProjectConfig :=
  {| cfg_projectId := "proj_1"; experiments := [experimentW w0 w1];
     goals := []; cfg_version := None |}.

(** First visit with all the traffic on the first variant, then a reload
    of the page. *)
Definition emptyIdLoad : State :=
  run (H := exampleHost) [(pageAt 1000, ConfigSettled (FetchOk (configW 100 0)))]
    (construct options1 "visitor-1" "session-1" (freshBrowser (pageAt 1000))).

Definition emptyIdReload : State :=
  reload options1 "visitor-2" "session-2" (pageAt 300000) emptyIdLoad.

(** The reloaded instance of [secondLoad], once the configuration is
    there and before the experiments are processed. *)
Definition secondLoadConfigured : State :=
  loadConfig FetchFailed (reload options1 "visitor-2" "session-2" (pageAt 300000) firstVisit).

(** A predicate on a query parameter with an operator that is not one of
    the seven. *)
Definition audienceStartsWith : AudienceConfig :=
  {| aud_type := "QUERY_PARAM"; aud_key := Some "utm_source";
     aud_operator := "STARTS_WITH"; aud_value := JStr "news" |}.

(** A predicate of a type that is not one of the five. *)
Definition audienceGeo : AudienceConfig :=
  {| aud_type := "GEO"; aud_key := None; aud_operator := "IS"; aud_value := JStr "TR" |}.

(** The records the first visit stored for [exp_1]. *)
Definition storedAssignment : Assignment :=
  {| asg_variantId := "var_a"; asg_variantName := Some "Control";
     asg_experimentName := Some "Button colour"; assignedAt := 1000 |}.

Definition storedExposure : Exposure :=
  {| xp_variantId := "var_a"; exposedAt := 1000; exposureCount := 1 |}.

(** A visitor without exposure, as constructed on a first visit. *)
Definition unexposed : State :=
  construct options1 "visitor-1" "session-1" (freshBrowser (pageAt 1000)).

(** A paused experiment, and one whose URL pattern is not a regular
    expression. *)
Definition experimentPaused : ExperimentConfig :=
  {| exp_id := "exp_2"; exp_name := Some "Headline"; exp_status := PAUSED;
     trafficAllocation := 100; exp_urlPattern := ".*"; audiences := None;
     variants := [variantA; variantB] |}.

Definition experimentBroken : ExperimentConfig :=
  {| exp_id := "exp_3"; exp_name := None; exp_status := RUNNING;
     trafficAllocation := 100; exp_urlPattern := "("; audiences := None;
     variants := [variantA; variantB] |}.

Definition configPaused : ProjectConfig :=
  {| cfg_projectId := "proj_1"; experiments := [experiment1; experimentPaused];
     goals := [goal1; goal2]; cfg_version := Some 2 |}.

Definition configBroken : ProjectConfig :=
  {| cfg_projectId := "proj_1";
     experiments := [experiment1; experimentBroken; experimentPaused];
     goals := [goal1; goal2]; cfg_version := Some 3 |}.

(** The constructed instance with [configPaused] as its configuration. *)
Definition unexposedPaused : State :=
  loadConfig (FetchOk configPaused) unexposed.

(** The first visit, up to the experiment that throws. *)
Definition brokenLoad : State :=
  (forEach (processExperiment (H := exampleHost)) [experiment1]
     (loadConfig (FetchOk configBroken) unexposed)).2.

(** Three turns of the first visit. *)
Definition threeTurns : list (Page * Event) :=
  [(pageAt 1000, ConfigSettled (FetchOk config1));
   (pageAt 2000, Click buyButton); (pageAt 2500, Click buyButton)].

(** Data with which a caller names a field of the SDK. *)
Definition spoofedData : Obj := [("visitorId", JStr "someone-else")].

(** A browser storage that denies every access, and one that is full
    but for the probe of the constructor. *)
Definition deniedStorage : WebStorage :=
  {| ws_items := ∅; ws_denied := true; ws_accepts := fun _ _ => true |}.

Definition fullStorage : WebStorage :=
  {| ws_items := {["ab_ent_vid" := "visitor-1"]}; ws_denied := false;
     ws_accepts := fun key _ => String.eqb key "__ab_test__" |}.

(** Three cookies, two of them with names that contain the third. *)
Definition cookieJar : list (string * string) :=
  [("xab_ent_vid", "other"); ("ab_ent_vid", "visitor-1"); ("ab_ent_vid2", "another")].


(** * Properties *)

(** ** 32-bit arithmetic *)

Lemma ToInt32_range z : - 2 ^ 31 <= ToInt32 z < 2 ^ 31.
Proof.
  unfold ToInt32.
  pose proof (Z.mod_pos_bound (z + 2 ^ 31) (2 ^ 32) ltac:(lia)). lia.
Qed.

Lemma ToInt32_congr a b k : a = b + k * 2 ^ 32 -> ToInt32 a = ToInt32 b.
Proof.
  intros ->. unfold ToInt32.
  replace (b + k * 2 ^ 32 + 2 ^ 31) with (b + 2 ^ 31 + k * 2 ^ 32) by lia.
  now rewrite Z.mod_add by lia.
Qed.

Lemma ToInt32_unfold z : exists k, ToInt32 z = z + k * 2 ^ 32.
Proof.
  exists (- ((z + 2 ^ 31) / 2 ^ 32)). unfold ToInt32.
  rewrite Z.mod_eq by lia. lia.
Qed.

Lemma ToInt32_small z : - 2 ^ 31 <= z < 2 ^ 31 -> ToInt32 z = z.
Proof. intros Hz. unfold ToInt32. rewrite Z.mod_small by lia. lia. Qed.

Lemma ToInt32_idem z : ToInt32 (ToInt32 z) = ToInt32 z.
Proof. apply ToInt32_small, ToInt32_range. Qed.

(** The two truncations of the source ([<<], then [&]) amount to the
    single truncation of the specification. *)
Lemma hashStep_spec hash char : hashStep hash char = specHashStep hash char.
Proof.
  unfold hashStep, specHashStep. rewrite Z.land_diag, Z.shiftl_mul_pow2 by lia.
  destruct (ToInt32_unfold hash) as [k1 Hk1].
  destruct (ToInt32_unfold (ToInt32 hash * 2 ^ 5)) as [k2 Hk2].
  apply (ToInt32_congr _ _ (k2 + k1 * 2 ^ 5)). lia.
Qed.

Lemma fold_hashStep_spec cs h :
  fold_left hashStep cs h = fold_left specHashStep cs h.
Proof.
  revert h. induction cs as [|c cs IH]; intros h; simpl; [done|].
  now rewrite hashStep_spec, IH.
Qed.

Lemma hashCode_spec s : hashCode s = specHash s.
Proof. unfold hashCode, hashCodeUnits, specHash. now rewrite fold_hashStep_spec. Qed.

(** The hash is the polynomial in 31 of the code units, truncated once. *)
Lemma fold_specHashStep_poly cs h p :
  ToInt32 p = ToInt32 h ->
  ToInt32 (fold_left specHashStep cs h)
  = ToInt32 (fold_left (fun acc c => 31 * acc + c) cs p).
Proof.
  revert h p. induction cs as [|c cs IH]; intros h p Hp; simpl; [done|].
  apply IH. unfold specHashStep. rewrite ToInt32_idem.
  destruct (ToInt32_unfold p) as [k1 Hk1].
  destruct (ToInt32_unfold h) as [k2 Hk2].
  apply (ToInt32_congr _ _ (31 * (k2 - k1))). lia.
Qed.

Lemma fold_specHashStep_range cs h :
  - 2 ^ 31 <= h < 2 ^ 31 -> - 2 ^ 31 <= fold_left specHashStep cs h < 2 ^ 31.
Proof.
  revert h. induction cs as [|c cs IH]; intros h Hh; simpl; [done|].
  apply IH, ToInt32_range.
Qed.

(** X1. The hash in closed form: for every sequence of code units,
    the loop of [hashCode], which truncates to 32 bits at every step,
    returns the absolute value of the polynomial
    [c1 * 31^(n-1) + ... + cn], truncated to a signed 32-bit integer once
    at the end. *)
Lemma hashCodeUnits_polynomial cs :
  hashCodeUnits cs = Z.abs (ToInt32 (polynomial31 cs)).
Proof.
  unfold hashCodeUnits, polynomial31. rewrite fold_hashStep_spec.
  rewrite <- (fold_specHashStep_poly cs 0 0 eq_refl).
  rewrite ToInt32_small; [done|]. apply fold_specHashStep_range. lia.
Qed.

Lemma hashCode_range s : 0 <= hashCode s <= 2 ^ 31.
Proof.
  rewrite hashCode_spec. unfold specHash.
  pose proof (fold_specHashStep_range (codeUnits s) 0 ltac:(lia)). lia.
Qed.

Lemma hashCode_rem_mod s : Z.rem (hashCode s) 100 = hashCode s mod 100.
Proof. apply Z.rem_mod_nonneg; [apply hashCode_range | lia]. Qed.

(** ** Bucketing *)

Lemma bucketLoop_find hash acc variants :
  bucketLoop hash acc variants
  = (fun found : nat * (VariantConfig * Z) => var_id found.2.1) <$>
      list_find (fun vc : VariantConfig * Z => Z.rem hash 100 < vc.2)
                (zip variants (runningSums acc (trafficWeight <$> variants))).
Proof.
  revert acc. induction variants as [|v rest IH]; intros acc; simpl; [done|].
  destruct (Z.ltb_spec (Z.rem hash 100) (acc + trafficWeight v)) as [Hlt|Hge].
  - rewrite decide_True by done. done.
  - rewrite decide_False by (simpl; lia). rewrite IH.
    rewrite <- option_fmap_compose. done.
Qed.

Lemma bucketLoop_firstExceeding s variants :
  bucketLoop (hashCode s) 0 variants
  = var_id <$> firstExceeding (specHash s mod 100) variants.
Proof.
  rewrite bucketLoop_find, hashCode_rem_mod, hashCode_spec.
  unfold firstExceeding, cumulativeWeights.
  rewrite <- option_fmap_compose. done.
Qed.

(** The specification's rule, spelled out: the variant picked by
    [firstExceeding] is at the least position whose cumulative weight
    exceeds [r]. *)
Lemma runningSums_lookup acc (weights : list Z) (k : nat) :
  runningSums acc weights !! k
  = (fun _ => acc + foldr Z.add 0 (take (S k) weights)) <$> weights !! k.
Proof.
  revert acc k. induction weights as [|w ws IH]; intros acc k; [done|].
  destruct k as [|k]; simpl.
  - f_equal. destruct ws; simpl; lia.
  - rewrite IH. destruct (ws !! k); simpl; [f_equal; lia | done].
Qed.

Lemma cumulative_lookup variants k v c :
  zip variants (cumulativeWeights variants) !! k = Some (v, c) <->
  variants !! k = Some v /\ c = cumulativeWeight variants k.
Proof.
  unfold cumulativeWeights, cumulativeWeight.
  rewrite lookup_zip_with_Some. setoid_rewrite runningSums_lookup.
  rewrite list_lookup_fmap, <- fmap_take. split.
  - intros (v' & c' & [= <- <-] & Hv & Hc). rewrite Hv in Hc. simpl in Hc.
    split; [done|]. injection Hc as <-. lia.
  - intros [Hv ->]. exists v, (foldr Z.add 0 (trafficWeight <$> take (S k) variants)).
    rewrite Hv. simpl. split_and!; [done | done | f_equal; lia].
Qed.

Lemma firstExceeding_Some r variants v :
  firstExceeding r variants = Some v <->
  exists k,
    variants !! k = Some v /\
    r < cumulativeWeight variants k /\
    forall j, (j < k)%nat -> cumulativeWeight variants j <= r.
Proof.
  unfold firstExceeding. rewrite fmap_Some. split.
  - intros ([k [v' c]] & Hfind & ->). simpl.
    apply list_find_Some in Hfind as (Hk & Hlt & Hmin).
    apply cumulative_lookup in Hk as [Hv ->]. exists k. split_and!; try done.
    intros j Hj.
    destruct (lookup_lt_is_Some_2 variants j) as [vj Hvj].
    { apply lookup_lt_Some in Hv. lia. }
    specialize (Hmin j (vj, cumulativeWeight variants j)). simpl in Hmin.
    apply Z.nlt_ge, Hmin; [|done]. by apply cumulative_lookup.
  - intros (k & Hv & Hlt & Hmin).
    exists (k, (v, cumulativeWeight variants k)). split; [|done].
    apply list_find_Some. split_and!.
    + by apply cumulative_lookup.
    + done.
    + intros j [vj cj] Hj Hjk. apply cumulative_lookup in Hj as [_ ->]. simpl.
      apply Z.le_ngt, Hmin. done.
Qed.

Lemma firstExceeding_None r variants :
  firstExceeding r variants = None <->
  forall k, (k < length variants)%nat -> cumulativeWeight variants k <= r.
Proof.
  unfold firstExceeding. rewrite fmap_None, list_find_None, Forall_forall. split.
  - intros Hall k Hk.
    destruct (lookup_lt_is_Some_2 variants k Hk) as [v Hv].
    apply Z.nlt_ge. apply (Hall (v, cumulativeWeight variants k)).
    apply list_elem_of_lookup. exists k. by apply cumulative_lookup.
  - intros Hall [v c] [k Hk]%list_elem_of_lookup.
    apply cumulative_lookup in Hk as [Hv ->]. simpl.
    apply Z.le_ngt, Hall. by apply lookup_lt_Some in Hv.
Qed.

(** C4. For a non-empty variant list, [bucket] returns (it does not
    throw) the id of the variant that the specification's rule picks:
    with the hash of [visitorId + experimentId] computed by
    [hash = (hash << 5) - hash + charCode] truncated to 32 bits and made
    absolute, it is the first variant, in declared order, whose
    cumulative [trafficWeight] strictly exceeds the hash mod 100, and
    the first declared variant when there is none. *)
Theorem bucket_refines_spec (visitorId experimentId : string)
    (variants : list VariantConfig) :
  variants <> [] ->
  hashCode (visitorId +:+ experimentId) = specHash (visitorId +:+ experimentId) /\
  exists v,
    specBucket visitorId experimentId variants = Some v /\
    bucket visitorId experimentId variants = Normal (var_id v).
Proof.
  intros Hne. split; [apply hashCode_spec|].
  unfold bucket, specBucket. rewrite bucketLoop_firstExceeding.
  destruct (firstExceeding _ variants) as [v|]; simpl.
  - exists v. done.
  - destruct variants as [|v0 rest]; [done|]. exists v0. done.
Qed.

(** ** Sampling gate *)

(** C6. A visitor whom the sampling gate admits at allocation [A1] (the
    allocation hash of [visitorId + experimentId + "alloc"], mod 100, is
    below [A1]) is admitted at every larger allocation [A2]. *)
Theorem isUserInSample_monotone (visitorId experimentId : string) (A1 A2 : Z) :
  A1 < A2 ->
  isUserInSample visitorId experimentId A1 = true ->
  specHash (visitorId +:+ experimentId +:+ "alloc") mod 100 < A1 /\
  isUserInSample visitorId experimentId A2 = true.
Proof.
  unfold isUserInSample. intros Hlt H1.
  rewrite hashCode_rem_mod, hashCode_spec in *.
  apply Z.ltb_lt in H1. split; [done|]. apply Z.ltb_lt. lia.
Qed.

(** The sampling gate is the comparison of that hash with the allocation. *)
Lemma isUserInSample_spec (visitorId experimentId : string) (allocation : Z) :
  isUserInSample visitorId experimentId allocation = true <->
  specHash (visitorId +:+ experimentId +:+ "alloc") mod 100 < allocation.
Proof.
  unfold isUserInSample. by rewrite hashCode_rem_mod, hashCode_spec, Z.ltb_lt.
Qed.

(** ** Exposure expiry *)

Lemma cleanup_fold_lookup now w (l : list (string * Exposure))
    (m : gmap string Exposure) (c : bool) (k : string) :
  (fold_left (cleanupStep now w) l (m, c)).1 !! k
  = if existsb (fun e => bool_decide (e.1 = k) && expired now w e.2) l
    then None else m !! k.
Proof.
  revert m c. induction l as [|[id x] l IH]; intros m c; simpl; [done|].
  unfold cleanupStep at 2. simpl.
  destruct (expired now w x) eqn:Hx; rewrite IH.
  - destruct (existsb _ l); [by rewrite orb_true_r|].
    rewrite orb_false_r, andb_true_r.
    case_bool_decide; subst; simpl.
    + apply lookup_delete_eq.
    + by apply lookup_delete_ne.
  - rewrite andb_false_r. done.
Qed.

Lemma cleanup_fold_changed now w (l : list (string * Exposure))
    (m : gmap string Exposure) (c : bool) :
  (fold_left (cleanupStep now w) l (m, c)).2
  = c || existsb (fun e => expired now w e.2) l.
Proof.
  revert m c. induction l as [|[id x] l IH]; intros m c; simpl.
  - by rewrite orb_false_r.
  - unfold cleanupStep at 2. simpl.
    destruct (expired now w x); rewrite IH; simpl; [by rewrite orb_true_r | done].
Qed.

Lemma existsb_entry now w (m : gmap string Exposure) (k : string) :
  existsb (fun e => bool_decide (e.1 = k) && expired now w e.2) (map_to_list m)
  = match m !! k with Some x => expired now w x | None => false end.
Proof.
  destruct (m !! k) as [x|] eqn:Hk.
  - destruct (expired now w x) eqn:Hx.
    + apply existsb_exists. exists (k, x). split.
      * apply list_elem_of_In, elem_of_map_to_list. done.
      * simpl. rewrite Hx, bool_decide_true; done.
    + apply not_true_is_false. intros [[k' x'] [Hin Hb]]%existsb_exists.
      apply list_elem_of_In, elem_of_map_to_list in Hin. simpl in Hb.
      apply andb_true_iff in Hb as [Hk' Hx']. apply bool_decide_eq_true in Hk'.
      subst. congruence.
  - apply not_true_is_false. intros [[k' x'] [Hin Hb]]%existsb_exists.
    apply list_elem_of_In, elem_of_map_to_list in Hin. simpl in Hb.
    apply andb_true_iff in Hb as [Hk' Hx']. apply bool_decide_eq_true in Hk'.
    subst. congruence.
Qed.

(** The dictionary after the cleanup, entry by entry. *)
Lemma cleanup_lookup (st : State) (k : string) :
  exposures (sdk (cleanupExpiredExposures st)) !! k
  = match exposures (sdk st) !! k with
    | Some x => if expired (now (page (env st))) (windowMs st) x then None else Some x
    | None => None
    end.
Proof.
  unfold cleanupExpiredExposures.
  destruct (fold_left _ _ _) as [m' changed] eqn:Hfold.
  assert (exposures (sdk (if changed
            then onEnv (LS_setExposures m') (onSdk (upd_exposures m') st)
            else onSdk (upd_exposures m') st)) = m') as -> by (by destruct changed).
  change m' with ((m', changed).1). rewrite <- Hfold.
  rewrite cleanup_fold_lookup, existsb_entry.
  destruct (exposures (sdk st) !! k) as [x|]; [|done]. by destruct (expired _ _ x).
Qed.

(** Whether the cleanup wrote to storage. *)
Lemma cleanup_env (st : State) :
  env (cleanupExpiredExposures st)
  = if existsb (fun e => expired (now (page (env st))) (windowMs st) e.2)
         (map_to_list (exposures (sdk st)))
    then LS_setExposures (exposures (sdk (cleanupExpiredExposures st))) (env st)
    else env st.
Proof.
  unfold cleanupExpiredExposures.
  pose proof (cleanup_fold_changed (now (page (env st))) (windowMs st)
                (map_to_list (exposures (sdk st))) (exposures (sdk st)) false) as Hc.
  destruct (fold_left _ _ _) as [m' changed]. simpl in Hc. rewrite <- Hc.
  by destruct changed.
Qed.

(** C7. An exposure record created at time [T], with attribution window
    [W = attributionWindowDays * 24 * 60 * 60 * 1000] ms, survives a
    cleanup run at any time before [T + W] and is removed by a cleanup run
    at any time after [T + W]; the cleanup writes the exposure map to
    storage when it removed a record, and leaves storage (and the browser)
    untouched when it removed none. *)
Theorem cleanup_expiry (st : State) (id : string) (x : Exposure) :
  exposures (sdk st) !! id = Some x ->
  let T := exposedAt x in
  let W := attributionWindowDays (sdk st) * 24 * 60 * 60 * 1000 in
  let st' := cleanupExpiredExposures st in
  (now (page (env st)) < T + W -> exposures (sdk st') !! id = Some x) /\
  (T + W < now (page (env st)) -> exposures (sdk st') !! id = None) /\
  (exposures (sdk st') = exposures (sdk st) -> env st' = env st) /\
  (exposures (sdk st') <> exposures (sdk st) ->
     ls_exposures (env st') = Some (exposures (sdk st')) /\
     ls_setItems (env st') = ls_setItems (env st) ++ [STORAGE_KEYS.EXPOSURES]).
Proof.
  intros Hx T W st'. subst st'.
  assert (Hexp : forall y, expired (now (page (env st))) (windowMs st) y = true
                           <-> exposedAt y + W < now (page (env st))).
  { intros y. unfold expired, windowMs. rewrite Z.ltb_lt. subst W. lia. }
  repeat split.
  - intros Hlt. rewrite cleanup_lookup, Hx.
    destruct (expired _ _ x) eqn:E; [|done]. apply Hexp in E. subst T. lia.
  - intros Hgt. rewrite cleanup_lookup, Hx.
    destruct (expired _ _ x) eqn:E; [done|].
    assert (expired (now (page (env st))) (windowMs st) x = true) by (apply Hexp; subst T; lia).
    congruence.
  - intros Hsame. rewrite cleanup_env.
    destruct (existsb _ _) eqn:E; [|done].
    apply existsb_exists in E as [[k y] [Hin Hy]]. simpl in Hy.
    apply list_elem_of_In, elem_of_map_to_list in Hin.
    pose proof (cleanup_lookup st k) as Hk. rewrite Hsame, Hin, Hy in Hk. done.
  - rewrite cleanup_env. destruct (existsb _ _) eqn:E; [done|].
    exfalso. apply H. apply map_eq. intros k. rewrite cleanup_lookup.
    destruct (exposures (sdk st) !! k) as [y|] eqn:Hk; [|done].
    destruct (expired _ _ y) eqn:Hy; [|done].
    assert (existsb (fun e => expired (now (page (env st))) (windowMs st) e.2)
              (map_to_list (exposures (sdk st))) = true); [|congruence].
    apply existsb_exists. exists (k, y). split; [|done].
    apply list_elem_of_In, elem_of_map_to_list. done.
  - rewrite cleanup_env. destruct (existsb _ _) eqn:E; [done|].
    exfalso. apply H. apply map_eq. intros k. rewrite cleanup_lookup.
    destruct (exposures (sdk st) !! k) as [y|] eqn:Hk; [|done].
    destruct (expired _ _ y) eqn:Hy; [|done].
    assert (existsb (fun e => expired (now (page (env st))) (windowMs st) e.2)
              (map_to_list (exposures (sdk st))) = true); [|congruence].
    apply existsb_exists. exists (k, y). split; [|done].
    apply list_elem_of_In, elem_of_map_to_list. done.
Qed.

(** Case analysis on the condition of the first [if] of the goal. *)
Ltac case_if :=
  match goal with
  | |- context [if ?c then _ else _] => destruct c eqn:?
  end.

(** ** Object literals *)

Lemma obj_get_set_eq k v o : obj_get k (obj_set k v o) = Some v.
Proof.
  induction o as [|[k' v'] o IH]; simpl.
  - by rewrite String.eqb_refl.
  - destruct (String.eqb k' k) eqn:E; simpl.
    + by rewrite String.eqb_refl.
    + by rewrite E.
Qed.

Lemma obj_get_set_ne k k' v o : k' <> k -> obj_get k (obj_set k' v o) = obj_get k o.
Proof.
  intros Hne. induction o as [|[k0 v0] o IH]; simpl.
  - by rewrite (proj2 (String.eqb_neq k' k)).
  - destruct (String.eqb k0 k') eqn:E; simpl.
    + apply String.eqb_eq in E. subst k0.
      by rewrite (proj2 (String.eqb_neq k' k)).
    + destruct (String.eqb k0 k); [done | apply IH].
Qed.

Lemma obj_get_notin k (o : Obj) : k ∉ o.*1 -> obj_get k o = None.
Proof.
  induction o as [|[k' v'] o IH]; simpl; [done|]. intros Hk.
  apply not_elem_of_cons in Hk as [Hne Hk].
  rewrite (proj2 (String.eqb_neq k' k)) by done. by apply IH.
Qed.

Lemma obj_set_keys k v (o : Obj) :
  (obj_set k v o).*1 = if bool_decide (k ∈ o.*1) then o.*1 else o.*1 ++ [k].
Proof.
  induction o as [|[k' v'] o IH]; [done|]. simpl obj_set.
  destruct (String.eqb k' k) eqn:E; csimpl.
  - apply String.eqb_eq in E. subst k'. rewrite bool_decide_true; [done | left].
  - apply String.eqb_neq in E. rewrite IH. case_bool_decide as Hin.
    + rewrite bool_decide_true; [done | by right].
    + rewrite bool_decide_false; [done|]. intros [?|?]%elem_of_cons; congruence.
Qed.

Lemma obj_set_NoDup k v (o : Obj) : NoDup o.*1 -> NoDup (obj_set k v o).*1.
Proof.
  intros Ho. rewrite obj_set_keys. case_bool_decide as Hin; [done|].
  apply NoDup_app. split_and!; [done | | apply NoDup_singleton].
  intros x Hx ->%list_elem_of_singleton. done.
Qed.

Lemma spread_NoDup (o extra : Obj) : NoDup o.*1 -> NoDup (spread o extra).*1.
Proof.
  unfold spread. revert o. induction extra as [|[k v] extra IH]; intros o Ho; simpl.
  - done.
  - apply IH. by apply obj_set_NoDup.
Qed.

(** A key of the spread object overrides the same key of the literal. *)
Lemma obj_get_spread k (o extra : Obj) :
  NoDup extra.*1 ->
  obj_get k (spread o extra)
  = match obj_get k extra with Some v => Some v | None => obj_get k o end.
Proof.
  unfold spread. revert o. induction extra as [|[k' v'] extra IH]; intros o Hnd; simpl.
  - by destruct (obj_get k o).
  - apply NoDup_cons in Hnd as [Hk' Hnd]. rewrite IH by done.
    destruct (String.eqb k' k) eqn:E.
    + apply String.eqb_eq in E. subst k'.
      rewrite (obj_get_notin k extra Hk'). apply obj_get_set_eq.
    + apply String.eqb_neq in E. by rewrite obj_get_set_ne.
Qed.

Lemma obj_get_spread_notin k (o extra : Obj) :
  k ∉ extra.*1 -> obj_get k (spread o extra) = obj_get k o.
Proof.
  unfold spread. revert o. induction extra as [|[k' v'] extra IH]; intros o Hk; simpl.
  - done.
  - apply not_elem_of_cons in Hk as [Hne Hk].
    rewrite IH by done. by apply obj_get_set_ne.
Qed.

Lemma plainData_get k customData (o : Obj) :
  plainData customData -> k ∈ reservedKeys ->
  obj_get k (spreadOpt o customData) = obj_get k o.
Proof.
  intros Hplain Hk. destruct customData as [d|]; [|done]. simpl.
  apply obj_get_spread_notin. intros [[k' v'] [-> Hin]]%list_elem_of_fmap.
  simpl in Hplain. rewrite Forall_forall in Hplain.
  by apply (Hplain _ Hin).
Qed.

Lemma spreadOpt_NoDup (o : Obj) customData :
  NoDup o.*1 -> NoDup (spreadOpt o customData).*1.
Proof. destruct customData; [apply spread_NoDup | done]. Qed.

Lemma conversionData_NoDup goal l customData :
  NoDup (conversionData goal l customData).*1.
Proof.
  apply spreadOpt_NoDup. simpl.
  repeat (apply NoDup_cons; split; [set_solver|]). apply NoDup_nil_2.
Qed.

(** The fields of a conversion envelope, when the custom data is plain. *)
Lemma envelope_conversion_fields st goal l customData :
  plainData customData ->
  let e := envelope st "GOAL_CONVERSION" (conversionData goal l customData) in
  eventTypeIs "GOAL_CONVERSION" e = true /\
  obj_get "goalId" e = Some (JStr (goal_id goal)) /\
  obj_get "sessionId" e = Some (JStr (sessionId (sdk st))) /\
  obj_get "attributedExperiments" e = Some (JArr (attributedToJs <$> l)).
Proof.
  intros Hplain e. subst e. unfold envelope, envelopeOf, eventTypeIs.
  rewrite !obj_get_spread by apply conversionData_NoDup.
  unfold conversionData. rewrite !plainData_get by (done || set_solver).
  simpl. done.
Qed.

(** ** What the primitive operations change *)

Lemma enqueued_flushEvents st : enqueued (flushEvents st) = enqueued st.
Proof.
  unfold flushEvents, enqueued. destruct (eventQueue (sdk st)) as [|e q] eqn:Hq.
  - by rewrite Hq.
  - simpl. rewrite concat_app. simpl. by rewrite !app_nil_r.
Qed.

Lemma enqueued_enqueueEvent type data st :
  enqueued (enqueueEvent type data st) = enqueued st ++ [envelope st type data].
Proof.
  unfold enqueueEvent. case_if.
  - rewrite enqueued_flushEvents. unfold enqueued. simpl. by rewrite app_assoc.
  - unfold enqueued. simpl. by rewrite app_assoc.
Qed.

(** [enqueueEvent] touches the queue and the requests sent, nothing else. *)
Lemma enqueueEvent_frame type data st :
  exists q p,
    enqueueEvent type data st
    = onEnv (upd_posted p) (onSdk (upd_eventQueue q) st).
Proof.
  destruct st as [t b]. unfold enqueueEvent, flushEvents. simpl.
  case_if.
  - destruct (eventQueue t ++ _) as [|e q] eqn:Hq.
    + by destruct (eventQueue t).
    + by eexists [], _.
  - eexists _, (posted b). by destruct b.
Qed.

Lemma hasAnyExposure_false st : hasAnyExposure st = false <-> exposures (sdk st) = ∅.
Proof.
  unfold hasAnyExposure. rewrite <- map_to_list_empty_iff.
  destruct (map_to_list (exposures (sdk st))); simpl; split; done.
Qed.

(** ** Attribution *)

Lemma attributedIds_exposed st :
  attributedIds (getExposedExperiments st)
  = dom (exposures (sdk st)) ∩ dom (assignments (sdk st)).
Proof.
  apply set_eq. intros id. unfold attributedIds, getExposedExperiments.
  rewrite elem_of_list_to_set, list_elem_of_fmap, elem_of_intersection, !elem_of_dom.
  split.
  - intros [a [-> [[k x] [Hin Ha]]%list_elem_of_omap]].
    apply elem_of_map_to_list in Hin. simpl in Ha.
    destruct (assignments (sdk st) !! k) eqn:Hk; [|done].
    injection Ha as <-. simpl. split; eauto.
  - intros [[x Hx] [a Ha]].
    eexists. split; [|apply list_elem_of_omap; exists (id, x); split;
                      [by apply elem_of_map_to_list | simpl; by rewrite Ha]].
    done.
Qed.

Lemma attributedIds_filter (ids : list string) (l : list Attributed) :
  attributedIds (filter (fun e => at_experimentId e ∈ ids) l)
  = attributedIds l ∩ list_to_set ids.
Proof.
  apply set_eq. intros id. unfold attributedIds.
  rewrite elem_of_intersection, !elem_of_list_to_set, !list_elem_of_fmap.
  split.
  - intros [a [-> [Hin Ha]%list_elem_of_filter]]. eauto.
  - intros [[a [-> Ha]] Hin]. exists a. split; [done|].
    by apply list_elem_of_filter.
Qed.

Lemma attributedIds_nil (l : list Attributed) : attributedIds l = ∅ <-> l = [].
Proof.
  unfold attributedIds. split; [|by intros ->].
  destruct l as [|a l]; [done|]. simpl. set_solver.
Qed.

(** What [attribution] returns, in terms of sets of experiment ids. *)
Lemma attribution_Some goal st l :
  attribution goal st = Some l ->
  attributedIds l = attributableIds goal st /\
  (restriction goal = None \/ attributableIds goal st ≠ ∅).
Proof.
  unfold attribution, attributableIds. rewrite <- attributedIds_exposed.
  destruct (restriction goal) as [ids|].
  - rewrite <- attributedIds_filter.
    destruct (filter _ _) as [|a l'] eqn:Hf; [done|].
    intros [= <-]. split; [done|]. right. rewrite attributedIds_nil. done.
  - intros [= <-]. split; [done | by left].
Qed.

Lemma attribution_None goal st :
  attribution goal st = None <->
  restriction goal ≠ None /\ attributableIds goal st = ∅.
Proof.
  unfold attribution, attributableIds. rewrite <- attributedIds_exposed.
  destruct (restriction goal) as [ids|].
  - rewrite <- attributedIds_filter, attributedIds_nil.
    destruct (filter _ _) as [|a l']; split; try done. by intros [_ ?].
  - split; [done | by intros [? _]].
Qed.

(** ** The attribution gate of [tryRecordConversion] *)

Lemma tryRecordConversion_cases goal customData st :
  (tryRecordConversion goal customData st = st /\
   ((goalSessionKey goal st ∈ trackedGoals (sdk st)) \/
    exposures (sdk st) = ∅ \/
    attribution goal st = None)) \/
  (exists l,
     (goalSessionKey goal st ∉ trackedGoals (sdk st)) /\
     exposures (sdk st) ≠ ∅ /\
     attribution goal st = Some l /\
     tryRecordConversion goal customData st
     = pushGoalConversion goal l customData
         (enqueueEvent "GOAL_CONVERSION" (conversionData goal l customData)
            (onSdk (fun t => upd_trackedGoals
                               ({[goalSessionKey goal st]} ∪ trackedGoals t) t) st))).
Proof.
  unfold tryRecordConversion. case_bool_decide as Hkey; [left; auto|].
  destruct (hasAnyExposure st) eqn:Hexp; simpl.
  - destruct (attribution goal st) as [l|] eqn:Hattr; [|left; auto].
    right. exists l. split_and!; try done.
    intros Hempty%hasAnyExposure_false. congruence.
  - left. split; [done|]. right. left. by apply hasAnyExposure_false.
Qed.

Lemma enqueued_recorded goal l customData st key :
  enqueued (pushGoalConversion goal l customData
              (enqueueEvent "GOAL_CONVERSION" (conversionData goal l customData)
                 (onSdk (fun t => upd_trackedGoals ({[key]} ∪ trackedGoals t) t) st)))
  = enqueued st ++ [envelope st "GOAL_CONVERSION" (conversionData goal l customData)].
Proof.
  unfold pushGoalConversion.
  change (enqueued (onEnv ?f ?s)) with (enqueued s) at 1.
  rewrite enqueued_enqueueEvent. done.
Qed.

(** A conversion attempt queues nothing, or exactly one envelope. *)
Lemma enqueued_tryRecordConversion goal customData st :
  enqueued (tryRecordConversion goal customData st) = enqueued st \/
  exists l,
    attribution goal st = Some l /\
    enqueued (tryRecordConversion goal customData st)
    = enqueued st ++ [envelope st "GOAL_CONVERSION" (conversionData goal l customData)].
Proof.
  destruct (tryRecordConversion_cases goal customData st)
    as [[-> _] | (l & _ & _ & Hattr & ->)]; [by left|].
  right. exists l. split; [done|]. apply enqueued_recorded.
Qed.

(** Custom data is spread after the fields of the SDK and replaces the
    ones it names: hence the condition [plainData] below. *)
Lemma custom_data_overwrites st goal l v :
  obj_get "attributedExperiments"
    (envelope st "GOAL_CONVERSION"
       (conversionData goal l (Some [("attributedExperiments", v)])))
  = Some v.
Proof. reflexivity. Qed.

(** C1, as amended. A conversion attempt queues no envelope when the
    exposure map is empty, and none when the goal has a non-empty
    [experimentIds] list that shares no id with the exposures; it also
    queues none when that list shares no id with the experiments that are
    both exposed and assigned. An attempt for a (goal, session) pair not
    yet recorded, with a non-empty exposure map and a goal that is
    unrestricted or has such a shared id, queues exactly one envelope,
    built from the experiments that are exposed and have a stored
    assignment, restricted to the goal's [experimentIds] when that list is
    non-empty; when the custom data does not overwrite the SDK's own
    fields it reads back as a [GOAL_CONVERSION] envelope with exactly
    these [attributedExperiments]. *)
Theorem conversion_attribution_gate (goal : GoalConfig) (customData : option Obj)
    (st : State) :
  let st' := tryRecordConversion goal customData st in
  (exposures (sdk st) = ∅ -> enqueued st' = enqueued st) /\
  (forall ids, restriction goal = Some ids ->
     dom (exposures (sdk st)) ∩ list_to_set ids = (∅ : gset string) ->
     enqueued st' = enqueued st) /\
  (restriction goal ≠ None -> attributableIds goal st = ∅ ->
   enqueued st' = enqueued st) /\
  (goalSessionKey goal st ∉ trackedGoals (sdk st) ->
   exposures (sdk st) ≠ ∅ ->
   (restriction goal = None \/ attributableIds goal st ≠ ∅) ->
   exists l,
     let e := envelope st "GOAL_CONVERSION" (conversionData goal l customData) in
     enqueued st' = enqueued st ++ [e] /\
     attributedIds l = attributableIds goal st /\
     (plainData customData ->
      eventTypeIs "GOAL_CONVERSION" e = true /\
      obj_get "attributedExperiments" e = Some (JArr (attributedToJs <$> l)))).
Proof.
  intros st'. subst st'.
  assert (Hdrop : restriction goal ≠ None -> attributableIds goal st = ∅ ->
                  enqueued (tryRecordConversion goal customData st) = enqueued st).
  { intros Hr Hempty.
    destruct (tryRecordConversion_cases goal customData st)
      as [[-> _] | (l & _ & _ & Hattr & _)]; [done|].
    apply attribution_Some in Hattr as [_ [?|?]]; done. }
  split_and!.
  - intros Hnone.
    destruct (tryRecordConversion_cases goal customData st)
      as [[-> _] | (l & _ & ? & _)]; done.
  - intros ids Hr Hdisjoint. apply Hdrop; [congruence|].
    unfold attributableIds. rewrite Hr. set_solver.
  - done.
  - intros Hkey Hexp Hres.
    destruct (tryRecordConversion_cases goal customData st)
      as [[_ Hwhy] | (l & _ & _ & Hattr & ->)].
    + exfalso. destruct Hwhy as [?|[?|Hnone]]; try done.
      apply attribution_None in Hnone as [? ?]. by destruct Hres.
    + rewrite enqueued_recorded.
      destruct (attribution_Some _ _ _ Hattr) as [Hids _].
      exists l. split_and!; try done. intros Hplain.
      destruct (envelope_conversion_fields st goal l customData Hplain)
        as (? & _ & _ & ?). done.
Qed.

(** The attempt in [exposedUnassigned], evaluated. *)
Example exposedUnassigned_queue :
  enqueued (tryRecordConversion goal1 None exposedUnassigned)
  = enqueued exposedUnassigned
    ++ [envelope exposedUnassigned "GOAL_CONVERSION" (conversionData goal1 [] None)].
Proof. vm_compute. reflexivity. Qed.

Example exposedUnassigned_attributed :
  obj_get "attributedExperiments"
    (envelope exposedUnassigned "GOAL_CONVERSION" (conversionData goal1 [] None))
  = Some (JArr (attributedToJs <$> [])).
Proof. vm_compute. reflexivity. Qed.

Example exposedUnassigned_exposed :
  bool_decide ("exp_1" ∈ dom (exposures (sdk exposedUnassigned))) = true.
Proof. vm_compute. reflexivity. Qed.

(** C1 as stated fails: an exposure without a stored assignment is not
    attributed. With the exposure map [{exp_1}] and no assignment, a
    conversion of the unrestricted goal is queued with an empty
    [attributedExperiments], not with all exposed experiments. *)
Lemma unassigned_exposure_not_attributed :
  ~ attributedToExposures goal1 None exposedUnassigned.
Proof.
  intros Hclaim.
  pose proof (Hclaim _ [] exposedUnassigned_queue exposedUnassigned_attributed) as Hids.
  assert (Hr : restriction goal1 = None) by reflexivity.
  rewrite Hr in Hids.
  pose proof (bool_decide_eq_true_1 _ exposedUnassigned_exposed) as Hin.
  rewrite <- Hids, (proj2 (attributedIds_nil []) eq_refl) in Hin.
  exact (not_elem_of_empty (C:=gset string) _ Hin).
Qed.

(** C9. A conversion attempt rejected by the attribution gate (no
    exposure, or a restricting [experimentIds] list that shares no id with
    the exposures) returns the state it was given: nothing is added to the
    tracked goals or to the queue. Hence, if the pair was not recorded
    before, a later attempt in the same session, in any state with the
    same tracked goals whose attribution is satisfied, queues the
    conversion envelope. *)
Theorem rejected_conversion_keeps_state (goal : GoalConfig)
    (customData : option Obj) (st : State) :
  exposures (sdk st) = ∅ \/
  (exists ids, restriction goal = Some ids /\
               dom (exposures (sdk st)) ∩ list_to_set ids = (∅ : gset string)) ->
  let st' := tryRecordConversion goal customData st in
  st' = st /\
  forall (later : State) (data : option Obj) (l : list Attributed),
    goalSessionKey goal st ∉ trackedGoals (sdk st) ->
    sessionId (sdk later) = sessionId (sdk st') ->
    trackedGoals (sdk later) = trackedGoals (sdk st') ->
    exposures (sdk later) ≠ ∅ ->
    attribution goal later = Some l ->
    enqueued (tryRecordConversion goal data later)
    = enqueued later ++ [envelope later "GOAL_CONVERSION" (conversionData goal l data)].
Proof.
  intros Hrejected st'.
  assert (Hsame : st' = st).
  { subst st'.
    destruct (tryRecordConversion_cases goal customData st)
      as [[Heq _] | (l & _ & Hexp & Hattr & _)]; [done|].
    destruct Hrejected as [? | (ids & Hr & Hdisjoint)]; [done|].
    apply attribution_Some in Hattr as [_ [Hnone | Hne]]; [congruence|].
    exfalso. apply Hne. unfold attributableIds. rewrite Hr. set_solver. }
  split; [done|]. rewrite Hsame.
  intros later data l Hkey Hsid Htracked Hexp Hattr.
  destruct (tryRecordConversion_cases goal data later)
    as [[_ Hwhy] | (l' & _ & _ & Hattr' & ->)].
  - exfalso. destruct Hwhy as [Hin | [? | ?]]; [|done|congruence].
    apply Hkey. unfold goalSessionKey in *. by rewrite <- Hsid, <- Htracked.
  - rewrite enqueued_recorded. congruence.
Qed.

(** ** Processing one experiment *)

Lemma onEnv_eta st : onEnv (upd_domChanges (domChanges (env st))) st = st.
Proof. by destruct st as [t []]. Qed.

Lemma changes_frame (variant : option VariantConfig) st :
  exists c,
    match variant with
    | Some v => if isControlOr false variant then st else applyChanges (changes v) st
    | None => st
    end = onEnv (upd_domChanges c) st.
Proof.
  destruct variant as [v|]; [case_if|]; try by (eexists; rewrite onEnv_eta).
  by eexists.
Qed.

Lemma exposeAndLog_sdk exp variantId variant st :
  exists q,
    sdk (exposeAndLog exp variantId variant st)
    = upd_eventQueue q
        (upd_activeExperiments ({[exp_id exp]} ∪ activeExperiments (sdk st))
           (upd_exposures (exposedOnce (exp_id exp) variantId st) (sdk st))).
Proof.
  unfold exposeAndLog, exposedOnce.
  destruct (changes_frame variant st) as [c ->].
  case_bool_decide as Hin.
  - exists (eventQueue (sdk st)). simpl in Hin.
    replace ({[exp_id exp]} ∪ activeExperiments (sdk st))
      with (activeExperiments (sdk st)) by set_solver.
    unfold recordExposure. simpl. by destruct (sdk st).
  - unfold pushExperimentView.
    match goal with
    | |- context [enqueueEvent ?ty ?d ?s] =>
        destruct (enqueueEvent_frame ty d s) as (q & p & ->)
    end.
    exists q. unfold recordExposure. simpl. by destruct (sdk st).
Qed.

Lemma exposeAndLog_enqueued exp variantId variant st :
  exists e,
    fieldIs "experimentId" (exp_id exp) e = true /\
    eventTypeIs "EXPERIMENT_VIEW" e = true /\
    enqueued (exposeAndLog exp variantId variant st)
    = enqueued st ++
      (if bool_decide (exp_id exp ∈ activeExperiments (sdk st)) then [] else [e]).
Proof.
  unfold exposeAndLog.
  destruct (changes_frame variant st) as [c ->].
  change (activeExperiments (sdk (recordExposure (exp_id exp) variantId
                                    (onEnv (upd_domChanges c) st))))
    with (activeExperiments (sdk st)).
  eexists. split_and!; cycle 2.
  - case_bool_decide.
    + rewrite app_nil_r. done.
    + unfold pushExperimentView.
      change (enqueued (onEnv ?f ?s)) with (enqueued s) at 1.
      rewrite enqueued_enqueueEvent. reflexivity.
  - unfold fieldIs, envelope, envelopeOf, spread. simpl. apply String.eqb_refl.
  - reflexivity.
Qed.

Lemma exposeAndLog_env exp variantId variant st :
  page (env (exposeAndLog exp variantId variant st)) = page (env st) /\
  cookies (env (exposeAndLog exp variantId variant st)) = cookies (env st) /\
  ls_assignments (env (exposeAndLog exp variantId variant st)) = ls_assignments (env st).
Proof.
  unfold exposeAndLog.
  destruct (changes_frame variant st) as [c ->].
  case_bool_decide.
  - done.
  - unfold pushExperimentView.
    match goal with
    | |- context [enqueueEvent ?ty ?d ?s] =>
        destruct (enqueueEvent_frame ty d s) as (q & p & ->)
    end.
    done.
Qed.

Lemma targeted_ext `{Host} exp (b1 b2 : Browser) :
  page b1 = page b2 -> cookies b1 = cookies b2 -> targeted exp b1 = targeted exp b2.
Proof.
  intros Hp Hc. unfold targeted. rewrite Hp.
  assert (Ha : forall auds, checkAudiences b1 auds = checkAudiences b2 auds).
  { induction auds as [|a auds IH]; simpl; [done|].
    unfold checkAudience. by rewrite Hp, Hc, IH. }
  destruct (exp_status exp); [|done].
  destruct (newRegExp _); [|done]. case_if; [done|].
  destruct (audiences exp); [apply Ha | done].
Qed.

(** What the loop body does, case by case. *)
Lemma processExperiment_cases `{Host} exp st :
  processExperiment exp st = (Normal tt, st) \/
  (exists e, processExperiment exp st = (Abrupt e, st)) \/
  (exists variantId,
     targeted exp (env st) = Normal true /\
     storedVariantId (exp_id exp) st = Some variantId /\
     processExperiment exp st
     = (Normal tt,
        exposeAndLog exp variantId (findVariant variantId (variants exp)) st)) \/
  (exists variantId,
     targeted exp (env st) = Normal true /\
     storedVariantId (exp_id exp) st = None /\
     isUserInSample (visitorId (sdk st)) (exp_id exp) (trafficAllocation exp) = true /\
     bucket (visitorId (sdk st)) (exp_id exp) (variants exp) = Normal variantId /\
     processExperiment exp st
     = (Normal tt,
        exposeAndLog exp variantId (findVariant variantId (variants exp))
          (assign exp variantId (findVariant variantId (variants exp)) st))).
Proof.
  unfold processExperiment, bind, getState, liftC, ret, exec.
  destruct (targeted exp (env st)) as [[|]|e] eqn:Ht; simpl; eauto.
  destruct (storedVariantId (exp_id exp) st) as [v|] eqn:Hs.
  - right. right. left. eauto.
  - destruct (isUserInSample _ _ _) eqn:Hsample; simpl; eauto.
    destruct (bucket _ _ _) as [v|e] eqn:Hb; eauto.
    right. right. right. exists v. split_and!; done.
Qed.

Lemma storedVariantId_Some id st variantId :
  storedVariantId id st = Some variantId <->
  exists a, assignments (sdk st) !! id = Some a /\
            asg_variantId a = variantId /\ variantId <> "".
Proof.
  unfold storedVariantId. destruct (assignments (sdk st) !! id) as [a|].
  - destruct (String.eqb (asg_variantId a) "") eqn:E.
    + apply String.eqb_eq in E. split; [done|]. intros (a' & [= <-] & <- & ?). done.
    + apply String.eqb_neq in E. split.
      * intros [= <-]. eauto.
      * intros (a' & [= <-] & <- & ?). done.
  - split; [done|]. by intros (a & ? & _).
Qed.

Lemma viewsOf_app id (l1 l2 : list Obj) :
  viewsOf id (l1 ++ l2) = viewsOf id l1 ++ viewsOf id l2.
Proof. apply List.filter_app. Qed.

Lemma fieldIs_inj k v1 v2 e : fieldIs k v1 e = true -> fieldIs k v2 e = true -> v1 = v2.
Proof.
  unfold fieldIs. destruct (obj_get k e) as [[]|]; try done.
  intros ?%String.eqb_eq ?%String.eqb_eq. congruence.
Qed.

(** The state after [exposeAndLog], seen from one experiment id. *)
Lemma exposeAndLog_effect exp variantId variant st :
  let st' := exposeAndLog exp variantId variant st in
  assignments (sdk st') = assignments (sdk st) /\
  exposures (sdk st') = exposedOnce (exp_id exp) variantId st /\
  activeExperiments (sdk st') = {[exp_id exp]} ∪ activeExperiments (sdk st) /\
  (forall id, id <> exp_id exp ->
     viewsOf id (enqueued st') = viewsOf id (enqueued st)) /\
  (exists e,
     viewsOf (exp_id exp) (enqueued st')
     = viewsOf (exp_id exp) (enqueued st)
       ++ (if bool_decide (exp_id exp ∈ activeExperiments (sdk st)) then [] else [e])).
Proof.
  intros st'. subst st'.
  destruct (exposeAndLog_sdk exp variantId variant st) as [q Hsdk].
  destruct (exposeAndLog_enqueued exp variantId variant st) as (e & Hid & Hty & Henq).
  rewrite Hsdk, Henq. split_and!; try done.
  - intros id Hne. rewrite viewsOf_app. case_bool_decide; simpl.
    + by rewrite app_nil_r.
    + rewrite Hty. simpl.
      destruct (fieldIs "experimentId" id e) eqn:Hf; [|by rewrite app_nil_r].
      by pose proof (fieldIs_inj _ _ _ _ Hf Hid).
  - exists e. rewrite viewsOf_app. case_bool_decide; simpl; [done|].
    by rewrite Hty, Hid.
Qed.

Lemma exposedOnce_lookup_ne id experimentId variantId st :
  id <> experimentId ->
  exposedOnce experimentId variantId st !! id = exposures (sdk st) !! id.
Proof.
  intros Hne. unfold exposedOnce, recordExposure. simpl.
  destruct (exposures (sdk st) !! experimentId); by rewrite lookup_insert_ne.
Qed.

Lemma exposedOnce_lookup experimentId variantId st x :
  exposures (sdk st) !! experimentId = Some x ->
  exposedOnce experimentId variantId st !! experimentId
  = Some {| xp_variantId := xp_variantId x; exposedAt := exposedAt x;
            exposureCount := exposureCount x + 1 |}.
Proof.
  intros Hx. unfold exposedOnce, recordExposure. simpl.
  rewrite Hx. apply lookup_insert_eq.
Qed.

(** What one turn of the loop leaves alone. *)
Lemma processExperiment_frame `{Host} exp st :
  let st' := (processExperiment exp st).2 in
  page (env st') = page (env st) /\
  cookies (env st') = cookies (env st) /\
  (forall id a, assignments (sdk st) !! id = Some a -> asg_variantId a <> "" ->
     assignments (sdk st') !! id = Some a) /\
  (forall id, id <> exp_id exp ->
     exposures (sdk st') !! id = exposures (sdk st) !! id /\
     (id ∈ activeExperiments (sdk st') <-> id ∈ activeExperiments (sdk st)) /\
     viewsOf id (enqueued st') = viewsOf id (enqueued st)).
Proof.
  intros st'. subst st'.
  destruct (processExperiment_cases exp st)
    as [-> | [[e ->] | [(v & _ & Hs & ->) | (v & _ & Hs & _ & _ & ->)]]]; simpl;
    try done.
  - destruct (exposeAndLog_env exp v (findVariant v (variants exp)) st) as (-> & -> & _).
    destruct (exposeAndLog_effect exp v (findVariant v (variants exp)) st)
      as (-> & -> & -> & Hviews & _).
    split_and!; try done. intros id Hne. split_and!.
    + by apply exposedOnce_lookup_ne.
    + set_solver.
    + by apply Hviews.
  - set (st1 := assign exp v (findVariant v (variants exp)) st).
    destruct (exposeAndLog_env exp v (findVariant v (variants exp)) st1) as (-> & -> & _).
    destruct (exposeAndLog_effect exp v (findVariant v (variants exp)) st1)
      as (-> & -> & -> & Hviews & _).
    split_and!; try done.
    + intros id a Ha Hne. subst st1. simpl.
      rewrite lookup_insert_ne; [done|]. intros <-.
      assert (storedVariantId (exp_id exp) st = Some (asg_variantId a)) as Hs'
        by (apply storedVariantId_Some; eauto).
      congruence.
    + intros id Hne. split_and!.
      * by rewrite exposedOnce_lookup_ne.
      * subst st1. simpl. set_solver.
      * by rewrite Hviews.
Qed.

(** The same for the whole loop, whether or not it ends normally. *)
Lemma forEach_processExperiment_frame `{Host} (l : list ExperimentConfig) st :
  let st' := (forEach processExperiment l st).2 in
  page (env st') = page (env st) /\
  cookies (env st') = cookies (env st) /\
  (forall id a, assignments (sdk st) !! id = Some a -> asg_variantId a <> "" ->
     assignments (sdk st') !! id = Some a) /\
  (forall id, Forall (fun exp => exp_id exp <> id) l ->
     exposures (sdk st') !! id = exposures (sdk st) !! id /\
     (id ∈ activeExperiments (sdk st') <-> id ∈ activeExperiments (sdk st)) /\
     viewsOf id (enqueued st') = viewsOf id (enqueued st)).
Proof.
  revert st. induction l as [|exp l IH]; intros st; simpl; [done|].
  unfold bind.
  pose proof (processExperiment_frame exp st) as (Hp & Hc & Ha & Hother).
  destruct (processExperiment exp st) as [[[]|e] st1]; simpl in *.
  - specialize (IH st1) as (Hp' & Hc' & Ha' & Hother').
    rewrite Hp', Hc'. split_and!; try done.
    + intros id a Hid Hne. apply Ha'; [|done]. by apply Ha.
    + intros id [Hne Hall]%Forall_cons.
      destruct (Hother id (not_eq_sym Hne)) as (Hx & Hact & Hv).
      destruct (Hother' id Hall) as (Hx' & Hact' & Hv').
      split_and!; [congruence | by rewrite Hact', Hact | congruence].
  - split_and!; try done.
    intros id [Hne Hall]%Forall_cons. by apply Hother, not_eq_sym.
Qed.

(** ** Assignment stability and re-processing *)

Lemma processExperiment_stored `{Host} exp st variantId :
  targeted exp (env st) = Normal true ->
  storedVariantId (exp_id exp) st = Some variantId ->
  processExperiment exp st
  = (Normal tt, exposeAndLog exp variantId (findVariant variantId (variants exp)) st).
Proof.
  intros Ht Hs. unfold processExperiment, bind, getState, liftC, exec.
  by rewrite Ht, Hs.
Qed.

Lemma forEach_app {A : Type} (f : A -> Js unit) (l1 l2 : list A) st :
  forEach f (l1 ++ l2) st
  = match forEach f l1 st with
    | (Normal _, st1) => forEach f l2 st1
    | (Abrupt e, st1) => (Abrupt e, st1)
    end.
Proof.
  revert st. induction l1 as [|x l1 IH]; intros st; simpl; [done|].
  unfold bind. destruct (f x st) as [[[]|e] st1]; [apply IH | done].
Qed.

Lemma processExperiments_unfold `{Host} st cfg :
  config (sdk st) = Some cfg ->
  processExperiments st = forEach processExperiment (experiments cfg) st.
Proof. intros Hc. unfold processExperiments, bind, getState. by rewrite Hc. Qed.

(** C5, as amended. Once an assignment with a non-empty [variantId] is
    stored for an experiment, processing the experiments of any
    configuration (any weights, allocation or variant list) leaves it as
    it is; and a turn of the loop for that experiment is skipped, throws
    in the targeting checks, or records the exposure and the view with the
    stored variant: [bucket] is not consulted. *)
Theorem stored_assignment_is_reused `{Host} (st : State) (cfg : ProjectConfig)
    (experimentId : string) (a : Assignment) :
  assignments (sdk st) !! experimentId = Some a ->
  asg_variantId a <> "" ->
  assignments (sdk (processExperiments (onSdk (upd_config (Some cfg)) st)).2)
    !! experimentId = Some a /\
  forall exp : ExperimentConfig,
    exp_id exp = experimentId ->
    processExperiment exp st = (Normal tt, st) \/
    (exists e, processExperiment exp st = (Abrupt e, st)) \/
    processExperiment exp st
    = (Normal tt,
       exposeAndLog exp (asg_variantId a)
         (findVariant (asg_variantId a) (variants exp)) st).
Proof.
  intros Ha Hne. split.
  - rewrite (processExperiments_unfold _ cfg) by done.
    by apply forEach_processExperiment_frame.
  - intros exp <-.
    assert (Hs : storedVariantId (exp_id exp) st = Some (asg_variantId a))
      by (apply storedVariantId_Some; eauto).
    destruct (processExperiment_cases exp st)
      as [? | [? | [(v & _ & Hs' & ?) | (v & _ & Hs' & _)]]]; auto; [|congruence].
    right. right. congruence.
Qed.

Example emptyIdReload_before :
  asg_variantId <$> (assignments (sdk emptyIdReload) !! "exp_1") = Some "".
Proof. vm_compute. reflexivity. Qed.

Example emptyIdReload_after :
  asg_variantId <$>
    (assignments
       (sdk (processExperiments (H := exampleHost)
               (onSdk (upd_config (Some (configW 0 100))) emptyIdReload)).2)
       !! "exp_1")
  = Some "var_b".
Proof. vm_compute. reflexivity. Qed.

(** C5 as stated fails for a stored [variantId] that is the empty
    string, which [if (!variantId)] treats as no assignment: after the
    weights move from (100, 0) to (0, 100) the visitor is bucketed again
    and the stored variant changes from [""] to ["var_b"]. *)
Lemma empty_variant_id_is_rebucketed :
  ~ assignmentStable (H := exampleHost) emptyIdReload (configW 0 100) "exp_1".
Proof.
  intros Hclaim.
  destruct (assignments (sdk emptyIdReload) !! "exp_1") as [a|] eqn:Ha.
  - specialize (Hclaim a Ha). rewrite emptyIdReload_after in Hclaim.
    pose proof emptyIdReload_before as Hb. rewrite Ha in Hb. simpl in Hb.
    congruence.
  - pose proof emptyIdReload_before as Hb. rewrite Ha in Hb. done.
Qed.

(** C3, as amended. Let an experiment pass the targeting checks, be the
    only one of the configuration with its id, and have a stored
    assignment with a non-empty [variantId] and an exposure record. When
    the experiments are processed again and the loop ends normally, the
    assignment is the stored one, the [exposureCount] of the record grows
    by one (from 1 to 2), and an [EXPERIMENT_VIEW] envelope is queued for
    the experiment exactly when this instance has not logged it yet: none
    on a navigation inside the page, one more after a reload, which starts
    with an empty [activeExperiments]. *)
Theorem reprocessing_known_experiment `{Host} (st : State) (cfg : ProjectConfig)
    (before after : list ExperimentConfig) (exp : ExperimentConfig)
    (a : Assignment) (x : Exposure) :
  config (sdk st) = Some cfg ->
  experiments cfg = before ++ exp :: after ->
  Forall (fun other => exp_id other <> exp_id exp) (before ++ after) ->
  targeted exp (env st) = Normal true ->
  assignments (sdk st) !! exp_id exp = Some a ->
  asg_variantId a <> "" ->
  exposures (sdk st) !! exp_id exp = Some x ->
  (processExperiments st).1 = Normal tt ->
  let st' := (processExperiments st).2 in
  assignments (sdk st') !! exp_id exp = Some a /\
  exposures (sdk st') !! exp_id exp
  = Some {| xp_variantId := xp_variantId x; exposedAt := exposedAt x;
            exposureCount := exposureCount x + 1 |} /\
  exists e,
    viewsOf (exp_id exp) (enqueued st')
    = viewsOf (exp_id exp) (enqueued st)
      ++ (if bool_decide (exp_id exp ∈ activeExperiments (sdk st)) then [] else [e]).
Proof.
  intros Hcfg Hexps [Hbefore Hafter]%Forall_app Ht Ha Hne Hx Hnormal st'. subst st'.
  rewrite (processExperiments_unfold _ cfg) in * by done.
  rewrite Hexps, forEach_app in *.
  pose proof (forEach_processExperiment_frame before st) as (Hp1 & Hc1 & Ha1 & Ho1).
  destruct (forEach processExperiment before st) as [[[]|e1] st1]; [|done].
  simpl in Hp1, Hc1, Ha1, Ho1.
  destruct (Ho1 _ Hbefore) as (Hx1 & Hact1 & Hv1).
  change (forEach processExperiment (exp :: after) st1)
    with (bind (processExperiment exp) (fun _ => forEach processExperiment after) st1) in *.
  unfold bind in *.
  assert (Hstep : processExperiment exp st1
                  = (Normal tt,
                     exposeAndLog exp (asg_variantId a)
                       (findVariant (asg_variantId a) (variants exp)) st1)).
  { apply processExperiment_stored.
    - rewrite (targeted_ext exp (env st1) (env st)); done.
    - apply storedVariantId_Some. eauto. }
  rewrite Hstep in *. clear Hstep.
  set (v := findVariant (asg_variantId a) (variants exp)) in *.
  destruct (exposeAndLog_effect exp (asg_variantId a) v st1)
    as (Ha2 & Hx2 & Hact2 & _ & (e & Hv2)).
  set (st2 := exposeAndLog exp (asg_variantId a) v st1) in *.
  pose proof (forEach_processExperiment_frame after st2) as (_ & _ & Ha3 & Ho3).
  destruct (Ho3 _ Hafter) as (Hx3 & _ & Hv3).
  split_and!.
  - apply Ha3; [|done]. rewrite Ha2. by apply Ha1.
  - rewrite Hx3, Hx2. apply exposedOnce_lookup. congruence.
  - exists e. rewrite Hv3, Hv2, Hv1.
    by rewrite (bool_decide_ext _ _ Hact1).
Qed.

(** ** Initialisation without configuration *)

Lemma revealPage_idem st : revealPage (revealPage st) = revealPage st.
Proof. unfold revealPage. destruct (isRevealed (sdk st)) eqn:E; simpl; by rewrite ?E. Qed.

(** [init] never throws: what [processExperiments] or [setupGoals]
    throws is caught. *)
Lemma init_never_throws `{Host} response st : (init response st).1 = Normal tt.
Proof.
  unfold init, bind, exec, getState, tryCatch. simpl.
  by destruct (config (sdk (loadConfig response st))).
Qed.

Lemma init_no_config `{Host} st :
  config (sdk st) = None ->
  ls_configCache (env st) = None ->
  init FetchFailed st = (Normal tt, revealPage st).
Proof.
  intros Hc Hcache. unfold init, bind, exec, getState. simpl.
  unfold loadConfig. rewrite Hcache, Hc. by rewrite revealPage_idem.
Qed.

Lemma construct_fresh opts uuidV uuidS b :
  let st := construct opts uuidV uuidS b in
  config (sdk st) = None /\
  isRevealed (sdk st) = false /\
  activeExperiments (sdk st) = ∅ /\
  trackedGoals (sdk st) = ∅ /\
  ls_configCache (env st) = ls_configCache b /\
  domChanges (env st) = domChanges b /\
  dataLayer (env st) = dataLayer b /\
  posted (env st) = posted b.
Proof.
  unfold construct, resolveVisitorId, resolveSessionId. simpl.
  destruct (truthy (ss_sessionId b)); [case_if|];
    unfold cleanupExpiredExposures;
    match goal with
    | |- context [fold_left ?f ?l ?a] => destruct (fold_left f l a) as [m []]
    end; done.
Qed.

(** C8. When the configuration request fails and storage holds no
    cached configuration, [init] returns normally (nothing is thrown to
    the constructor): the configuration stays absent, the instance is the
    constructed one with the page revealed, so that no assignment,
    exposure or view is recorded, nothing is added to the event queue or
    to the data layer, and no change instruction is applied. *)
Theorem init_without_configuration `{Host} (opts : InitOptions)
    (uuidV uuidS : string) (b : Browser) :
  ls_configCache b = None ->
  let st0 := construct opts uuidV uuidS b in
  let st := (init FetchFailed st0).2 in
  (init FetchFailed st0).1 = Normal tt /\
  st = onEnv (upd_pageHidden false) (onSdk (upd_isRevealed true) st0) /\
  config (sdk st) = None /\
  assignments (sdk st) = assignments (sdk st0) /\
  exposures (sdk st) = exposures (sdk st0) /\
  activeExperiments (sdk st) = ∅ /\
  enqueued st = enqueued st0 /\
  dataLayer (env st) = dataLayer b /\
  domChanges (env st) = domChanges b /\
  isRevealed (sdk st) = true /\
  pageHidden (env st) = false.
Proof.
  intros Hcache st0 st.
  destruct (construct_fresh opts uuidV uuidS b)
    as (Hc & Hr & Hact & _ & Hcache' & Hdom & Hdl & _).
  fold st0 in Hc, Hr, Hact, Hcache', Hdom, Hdl.
  assert (Hinit : init FetchFailed st0
                  = (Normal tt, onEnv (upd_pageHidden false) (onSdk (upd_isRevealed true) st0))).
  { rewrite init_no_config by congruence. unfold revealPage. by rewrite Hr. }
  subst st. rewrite Hinit. simpl. split_and!; done.
Qed.

(** ** Unrecognised audience predicates *)

Lemma knownType_false type :
  knownType type = false ->
  String.eqb type "DEVICE" = false /\ String.eqb type "BROWSER" = false /\
  String.eqb type "QUERY_PARAM" = false /\ String.eqb type "COOKIE" = false /\
  String.eqb type "JS_VAR" = false.
Proof.
  unfold knownType. intros Hk%bool_decide_eq_false.
  rewrite !String.eqb_neq. set_solver.
Qed.

Lemma knownOperator_false `{Host} operator userValue value :
  knownOperator operator = false ->
  applyOperator operator userValue value = Normal true.
Proof.
  unfold knownOperator, applyOperator. intros Hk%bool_decide_eq_false.
  assert (Hne : forall o, o ∈ ["IS"; "IS_NOT"; "CONTAINS"; "NOT_CONTAINS";
                              "MATCHES_REGEX"; "GREATER_THAN"; "LESS_THAN"] ->
                          String.eqb operator o = false).
  { intros o Ho. apply String.eqb_neq. intros ->. done. }
  rewrite !Hne by set_solver. done.
Qed.

Lemma observedValue_known `{Host} p c aud :
  knownType (aud_type aud) = true -> is_Some (observedValue p c aud).
Proof.
  unfold knownType, observedValue. intros Hk%bool_decide_eq_true.
  repeat (apply elem_of_cons in Hk as [-> | Hk]; [simpl; eauto|]).
  by apply elem_of_nil in Hk.
Qed.

(** C10, as amended. A predicate whose type is none of [DEVICE],
    [BROWSER], [QUERY_PARAM], [COOKIE], [JS_VAR] is matched. A predicate
    of one of these types whose operator is none of the seven is matched
    exactly when the observed value is present (neither [null] nor
    [undefined]); a missing value fails it first. A list made of such
    predicates only, each of an unrecognised type or with an unrecognised
    operator and a present value, is matched; and an experiment whose
    audiences are all of unrecognised type is targeted like the same
    experiment without audiences, for every visitor. *)
Theorem unrecognised_audience `{Host} (b : Browser) :
  (forall aud, knownType (aud_type aud) = false -> checkAudience b aud = Normal true) /\
  (forall aud, knownType (aud_type aud) = true ->
     knownOperator (aud_operator aud) = false ->
     exists userValue,
       observedValue (page b) (cookies b) aud = Some userValue /\
       checkAudience b aud = Normal (negb (isNullish userValue))) /\
  (forall auds,
     Forall (fun aud =>
       knownType (aud_type aud) = false \/
       (knownOperator (aud_operator aud) = false /\
        exists userValue,
          observedValue (page b) (cookies b) aud = Some userValue /\
          isNullish userValue = false)) auds ->
     checkAudiences b auds = Normal true) /\
  (forall exp auds,
     audiences exp = Some auds ->
     Forall (fun aud => knownType (aud_type aud) = false) auds ->
     targeted exp b = targeted (withoutAudiences exp) b).
Proof.
  assert (H1 : forall aud, knownType (aud_type aud) = false ->
                           checkAudience b aud = Normal true).
  { intros aud (E1 & E2 & E3 & E4 & E5)%knownType_false.
    unfold checkAudience, observedValue. by rewrite E1, E2, E3, E4, E5. }
  assert (H2 : forall aud userValue,
             knownOperator (aud_operator aud) = false ->
             observedValue (page b) (cookies b) aud = Some userValue ->
             checkAudience b aud = Normal (negb (isNullish userValue))).
  { intros aud userValue Hop Hobs. unfold checkAudience. rewrite Hobs.
    destruct (isNullish userValue); [done|]. by apply knownOperator_false. }
  assert (H3 : forall auds,
             Forall (fun aud =>
               knownType (aud_type aud) = false \/
               (knownOperator (aud_operator aud) = false /\
                exists userValue,
                  observedValue (page b) (cookies b) aud = Some userValue /\
                  isNullish userValue = false)) auds ->
             checkAudiences b auds = Normal true).
  { induction 1 as [|aud auds Haud _ IH]; simpl; [done|].
    destruct Haud as [Hty | (Hop & userValue & Hobs & Hpresent)].
    - by rewrite H1.
    - by rewrite (H2 aud userValue), Hpresent. }
  split_and!.
  - done.
  - intros aud Hty Hop.
    destruct (observedValue_known (page b) (cookies b) aud Hty) as [userValue Hobs].
    eauto.
  - done.
  - intros exp auds Haud Hall. unfold targeted. simpl. rewrite Haud.
    destruct (exp_status exp); [|done]. destruct (newRegExp _); [|done].
    case_if; [done|]. apply H3. eapply Forall_impl; [exact Hall|]. by left.
Qed.

Example audienceGeo_matches :
  checkAudience (H := exampleHost) (freshBrowser (pageAt 1000)) audienceGeo
  = Normal true.
Proof. reflexivity. Qed.

Example audienceStartsWith_fails :
  checkAudience (H := exampleHost) (freshBrowser (pageAt 1000)) audienceStartsWith
  = Normal false.
Proof. reflexivity. Qed.

(** C10 as stated fails for an unrecognised operator: the predicate on
    the query parameter [utm_source] with the operator [STARTS_WITH] is
    not matched on a page without that parameter, because the missing
    value is rejected before the operator is looked at. *)
Lemma unknown_operator_missing_value :
  ~ unknownOperatorMatches (H := exampleHost) (freshBrowser (pageAt 1000))
      audienceStartsWith.
Proof.
  intros Hclaim. specialize (Hclaim eq_refl).
  rewrite audienceStartsWith_fails in Hclaim. discriminate.
Qed.

(** ** A reload inside one session *)

Example reload_same_session :
  sessionId (sdk firstVisit) = "session-1" /\
  sessionId (sdk secondLoad) = "session-1" /\
  elements (trackedGoals (sdk firstVisit)) = ["goal_1_session-1"] /\
  elements (trackedGoals (sdk secondLoad)) = [] /\
  elements (activeExperiments (sdk secondLoad)) = ["exp_1"].
Proof. vm_compute. repeat split. Qed.

Example reload_views :
  length (viewsOf "exp_1" (enqueued firstVisit)) = 1%nat /\
  length (viewsOf "exp_1" (enqueued secondLoad)) = 2%nat.
Proof. vm_compute. split; reflexivity. Qed.

Example reload_assignment_and_exposure :
  asg_variantId <$> (assignments (sdk firstVisit) !! "exp_1") = Some "var_a" /\
  asg_variantId <$> (assignments (sdk secondLoad) !! "exp_1") = Some "var_a" /\
  exposureCount <$> (exposures (sdk firstVisit) !! "exp_1") = Some 1 /\
  exposureCount <$> (exposures (sdk secondLoad) !! "exp_1") = Some 2.
Proof. vm_compute. repeat split. Qed.

(** C3 as stated fails in its last part. The visitor of [firstVisit]
    reloads the page in the same session: the stored variant is reused and
    the [exposureCount] goes from 1 to 2, but the reloaded page queues a
    second [EXPERIMENT_VIEW] envelope for the experiment, because the set
    [activeExperiments] is a field of the instance and starts empty. *)
Lemma reload_queues_second_view :
  sessionId (sdk secondLoad) = sessionId (sdk firstVisit) /\
  asg_variantId <$> (assignments (sdk secondLoad) !! "exp_1")
  = asg_variantId <$> (assignments (sdk firstVisit) !! "exp_1") /\
  exposureCount <$> (exposures (sdk firstVisit) !! "exp_1") = Some 1 /\
  exposureCount <$> (exposures (sdk secondLoad) !! "exp_1") = Some 2 /\
  ~ noDuplicateView "exp_1" firstVisit secondLoad.
Proof.
  pose proof reload_same_session as (Hs1 & Hs2 & _).
  pose proof reload_assignment_and_exposure as (Ha1 & Ha2 & Hx1 & Hx2).
  split_and!; [congruence | congruence | done | done |].
  unfold noDuplicateView. intros Hclaim.
  pose proof reload_views as [Hbefore Hafter].
  rewrite Hclaim, Hbefore in Hafter. discriminate.
Qed.

(** C2, the failing input evaluated: the visitor converts [goal_1],
    reloads the page five minutes later (same tab, same session id) and
    converts again; two [GOAL_CONVERSION] envelopes carry the pair
    ([goal_1], [session-1]). The set [trackedGoals] that should prevent
    the second one starts empty in the reloaded instance. *)
Theorem reload_repeats_conversion :
  sessionId (sdk firstVisit) = sessionId (sdk secondVisit) /\
  length (conversionsOf "goal_1" (sessionId (sdk firstVisit)) (enqueued firstVisit)) = 1%nat /\
  length (conversionsOf "goal_1" (sessionId (sdk firstVisit)) (enqueued secondVisit)) = 2%nat.
Proof. vm_compute. repeat split. Qed.

(** ** The theorems at concrete inputs *)

Lemma bucket_refines_spec_witness :
  [variantA; variantB] <> [] /\
  (hashCode ("visitor-1" +:+ "exp_1") = specHash ("visitor-1" +:+ "exp_1") /\
   exists v,
     specBucket "visitor-1" "exp_1" [variantA; variantB] = Some v /\
     bucket "visitor-1" "exp_1" [variantA; variantB] = Normal (var_id v)).
Proof.
  split; [discriminate|].
  apply (bucket_refines_spec "visitor-1" "exp_1" [variantA; variantB]). discriminate.
Defined.

Lemma isUserInSample_monotone_witness :
  60 < 90 /\
  isUserInSample "visitor-1" "exp_1" 60 = true /\
  (specHash ("visitor-1" +:+ "exp_1" +:+ "alloc") mod 100 < 60 /\
   isUserInSample "visitor-1" "exp_1" 90 = true).
Proof.
  split; [reflexivity|]. split; [vm_compute; reflexivity|].
  apply (isUserInSample_monotone "visitor-1" "exp_1" 60 90);
    [reflexivity | vm_compute; reflexivity].
Defined.

Lemma stored_assignment_is_reused_witness :
  assignments (sdk secondLoadConfigured) !! "exp_1" = Some storedAssignment /\
  asg_variantId storedAssignment <> "" /\
  (assignments
     (sdk (processExperiments (H := exampleHost)
             (onSdk (upd_config (Some (configW 0 100))) secondLoadConfigured)).2)
     !! "exp_1" = Some storedAssignment /\
   forall exp : ExperimentConfig,
     exp_id exp = "exp_1" ->
     processExperiment (H := exampleHost) exp secondLoadConfigured
     = (Normal tt, secondLoadConfigured) \/
     (exists e, processExperiment (H := exampleHost) exp secondLoadConfigured
                = (Abrupt e, secondLoadConfigured)) \/
     processExperiment (H := exampleHost) exp secondLoadConfigured
     = (Normal tt,
        exposeAndLog exp (asg_variantId storedAssignment)
          (findVariant (asg_variantId storedAssignment) (variants exp))
          secondLoadConfigured)).
Proof.
  assert (H1 : assignments (sdk secondLoadConfigured) !! "exp_1" = Some storedAssignment)
    by (vm_compute; reflexivity).
  assert (H2 : asg_variantId storedAssignment <> "") by discriminate.
  refine (conj H1 (conj H2 _)).
  exact (stored_assignment_is_reused (H := exampleHost) secondLoadConfigured
           (configW 0 100) "exp_1" storedAssignment H1 H2).
Defined.

Lemma reprocessing_known_experiment_witness :
  config (sdk secondLoadConfigured) = Some config1 /\
  experiments config1 = [] ++ experiment1 :: [] /\
  Forall (fun other => exp_id other <> exp_id experiment1) ([] ++ []) /\
  targeted (H := exampleHost) experiment1 (env secondLoadConfigured) = Normal true /\
  assignments (sdk secondLoadConfigured) !! exp_id experiment1 = Some storedAssignment /\
  asg_variantId storedAssignment <> "" /\
  exposures (sdk secondLoadConfigured) !! exp_id experiment1 = Some storedExposure /\
  (processExperiments (H := exampleHost) secondLoadConfigured).1 = Normal tt /\
  (assignments (sdk (processExperiments (H := exampleHost) secondLoadConfigured).2)
     !! exp_id experiment1 = Some storedAssignment /\
   exposures (sdk (processExperiments (H := exampleHost) secondLoadConfigured).2)
     !! exp_id experiment1
   = Some {| xp_variantId := xp_variantId storedExposure;
             exposedAt := exposedAt storedExposure;
             exposureCount := exposureCount storedExposure + 1 |} /\
   exists e,
     viewsOf (exp_id experiment1)
       (enqueued (processExperiments (H := exampleHost) secondLoadConfigured).2)
     = viewsOf (exp_id experiment1) (enqueued secondLoadConfigured)
       ++ (if bool_decide (exp_id experiment1
                           ∈ activeExperiments (sdk secondLoadConfigured))
           then [] else [e])).
Proof.
  assert (H1 : config (sdk secondLoadConfigured) = Some config1)
    by (vm_compute; reflexivity).
  assert (H2 : experiments config1 = [] ++ experiment1 :: []) by reflexivity.
  assert (H3 : Forall (fun other => exp_id other <> exp_id experiment1) ([] ++ []))
    by constructor.
  assert (H4 : targeted (H := exampleHost) experiment1 (env secondLoadConfigured)
               = Normal true) by (vm_compute; reflexivity).
  assert (H5 : assignments (sdk secondLoadConfigured) !! exp_id experiment1
               = Some storedAssignment) by (vm_compute; reflexivity).
  assert (H6 : asg_variantId storedAssignment <> "") by discriminate.
  assert (H7 : exposures (sdk secondLoadConfigured) !! exp_id experiment1
               = Some storedExposure) by (vm_compute; reflexivity).
  assert (H8 : (processExperiments (H := exampleHost) secondLoadConfigured).1 = Normal tt)
    by (vm_compute; reflexivity).
  refine (conj H1 (conj H2 (conj H3 (conj H4 (conj H5 (conj H6 (conj H7 (conj H8 _)))))))).
  exact (reprocessing_known_experiment (H := exampleHost) secondLoadConfigured config1
           [] [] experiment1 storedAssignment storedExposure
           H1 H2 H3 H4 H5 H6 H7 H8).
Defined.

Lemma cleanup_expiry_witness :
  exposures (sdk firstVisit) !! "exp_1" = Some storedExposure /\
  ((now (page (env firstVisit))
    < exposedAt storedExposure
      + attributionWindowDays (sdk firstVisit) * 24 * 60 * 60 * 1000 ->
    exposures (sdk (cleanupExpiredExposures firstVisit)) !! "exp_1"
    = Some storedExposure) /\
   (exposedAt storedExposure
    + attributionWindowDays (sdk firstVisit) * 24 * 60 * 60 * 1000
    < now (page (env firstVisit)) ->
    exposures (sdk (cleanupExpiredExposures firstVisit)) !! "exp_1" = None) /\
   (exposures (sdk (cleanupExpiredExposures firstVisit)) = exposures (sdk firstVisit) ->
    env (cleanupExpiredExposures firstVisit) = env firstVisit) /\
   (exposures (sdk (cleanupExpiredExposures firstVisit)) <> exposures (sdk firstVisit) ->
    ls_exposures (env (cleanupExpiredExposures firstVisit))
    = Some (exposures (sdk (cleanupExpiredExposures firstVisit))) /\
    ls_setItems (env (cleanupExpiredExposures firstVisit))
    = ls_setItems (env firstVisit) ++ [STORAGE_KEYS.EXPOSURES])).
Proof.
  assert (H1 : exposures (sdk firstVisit) !! "exp_1" = Some storedExposure)
    by (vm_compute; reflexivity).
  refine (conj H1 _).
  exact (cleanup_expiry firstVisit "exp_1" storedExposure H1).
Defined.

Lemma init_without_configuration_witness :
  ls_configCache (freshBrowser (pageAt 1000)) = None /\
  ((init (H := exampleHost) FetchFailed unexposed).1 = Normal tt /\
   (init (H := exampleHost) FetchFailed unexposed).2
   = onEnv (upd_pageHidden false) (onSdk (upd_isRevealed true) unexposed) /\
   config (sdk (init (H := exampleHost) FetchFailed unexposed).2) = None /\
   assignments (sdk (init (H := exampleHost) FetchFailed unexposed).2)
   = assignments (sdk unexposed) /\
   exposures (sdk (init (H := exampleHost) FetchFailed unexposed).2)
   = exposures (sdk unexposed) /\
   activeExperiments (sdk (init (H := exampleHost) FetchFailed unexposed).2) = ∅ /\
   enqueued (init (H := exampleHost) FetchFailed unexposed).2 = enqueued unexposed /\
   dataLayer (env (init (H := exampleHost) FetchFailed unexposed).2)
   = dataLayer (freshBrowser (pageAt 1000)) /\
   domChanges (env (init (H := exampleHost) FetchFailed unexposed).2)
   = domChanges (freshBrowser (pageAt 1000)) /\
   isRevealed (sdk (init (H := exampleHost) FetchFailed unexposed).2) = true /\
   pageHidden (env (init (H := exampleHost) FetchFailed unexposed).2) = false).
Proof.
  split; [reflexivity|].
  exact (init_without_configuration (H := exampleHost) options1 "visitor-1" "session-1"
           (freshBrowser (pageAt 1000)) eq_refl).
Defined.

Lemma rejected_conversion_keeps_state_witness :
  (exposures (sdk unexposed) = ∅ \/
   (exists ids, restriction goal1 = Some ids /\
                dom (exposures (sdk unexposed)) ∩ list_to_set ids = (∅ : gset string))) /\
  (tryRecordConversion goal1 None unexposed = unexposed /\
   forall (later : State) (data : option Obj) (l : list Attributed),
     goalSessionKey goal1 unexposed ∉ trackedGoals (sdk unexposed) ->
     sessionId (sdk later) = sessionId (sdk (tryRecordConversion goal1 None unexposed)) ->
     trackedGoals (sdk later) = trackedGoals (sdk (tryRecordConversion goal1 None unexposed)) ->
     exposures (sdk later) ≠ ∅ ->
     attribution goal1 later = Some l ->
     enqueued (tryRecordConversion goal1 data later)
     = enqueued later ++ [envelope later "GOAL_CONVERSION" (conversionData goal1 l data)]).
Proof.
  assert (H1 : exposures (sdk unexposed) = ∅) by (vm_compute; reflexivity).
  refine (conj (or_introl H1) _).
  exact (rejected_conversion_keeps_state goal1 None unexposed (or_introl H1)).
Defined.

(** ** Conversions inside one page instance *)

Lemma forEach_invariant {A : Type} (I : State -> Prop) (f : A -> Js unit) :
  (forall x st, I st -> I (f x st).2) ->
  forall l st, I st -> I (forEach f l st).2.
Proof.
  intros Hf l. induction l as [|x l IH]; intros st Hst; simpl; [done|].
  unfold bind. specialize (Hf x st Hst).
  destruct (f x st) as [[[]|e] st1]; simpl in *; [by apply IH | done].
Qed.

Lemma fold_left_invariant {A : Type} (I : State -> Prop) (f : State -> A -> State) :
  (forall x st, I st -> I (f st x)) ->
  forall l st, I st -> I (fold_left f l st).
Proof.
  intros Hf l. induction l as [|x l IH]; intros st Hst; simpl; [done|].
  apply IH, Hf, Hst.
Qed.

Section Triggers.
Context `{Host}.
Variable I : State -> Prop.
Hypothesis I_try : forall goal st, I st -> I (tryRecordConversion goal None st).
Hypothesis I_activity : forall st, I st -> I (updateActivity st).

Lemma handleGoalInteraction_invariant target type st :
  I st -> I (handleGoalInteraction target type st).2.
Proof.
  intros Hst. unfold handleGoalInteraction, bind, getState, exec.
  destruct (config (sdk st)) as [cfg|]; [|done]. simpl.
  apply forEach_invariant; [|by apply I_activity].
  intros goal s Hs. destruct (truthy (goal_selector goal)); [|done].
  repeat case_if; simpl; auto.
Qed.

Lemma onScroll_invariant scrollPercent st : I st -> I (onScroll scrollPercent st).
Proof.
  intros Hst. unfold onScroll. destruct (scrollGoals (sdk st)) as [l|]; [|done].
  apply fold_left_invariant; [|done].
  intros goal s Hs. destruct (parseInt10 _); [|done]. case_if; auto.
Qed.

Lemma onIntersect_invariant target st : I st -> I (onIntersect target st).2.
Proof.
  intros Hst. unfold onIntersect, bind, getState.
  destruct (visibilityGoals (sdk st)) as [l|]; [|done].
  apply forEach_invariant; [|done].
  intros goal s Hs. repeat case_if; simpl; auto.
Qed.

Lemma checkPageviewGoals_invariant st : I st -> I (checkPageviewGoals st).2.
Proof.
  intros Hst. unfold checkPageviewGoals, bind, getState.
  destruct (config (sdk st)) as [cfg|]; [|done].
  apply forEach_invariant; [|done].
  intros goal s Hs. unfold liftC, exec.
  destruct (goal_type goal), (truthy (goal_urlPattern goal)); try done.
  destruct (newRegExp _); [|done]. case_if; simpl; auto.
Qed.
End Triggers.

(** X2. Scenario C of the specification, for every trigger: without
    exposure, a click, a submit, a scroll, an intersection, a page view
    and a custom event queue nothing. *)
Lemma no_exposure_no_envelope `{Host} (st : State) :
  exposures (sdk st) = ∅ ->
  (forall target type, enqueued (handleGoalInteraction target type st).2 = enqueued st) /\
  (forall scrollPercent, enqueued (onScroll scrollPercent st) = enqueued st) /\
  (forall target, enqueued (onIntersect target st).2 = enqueued st) /\
  enqueued (checkPageviewGoals st).2 = enqueued st /\
  (forall eventName data, trackEvent eventName data st = st).
Proof.
  intros Hnone.
  set (I := fun s : State => exposures (sdk s) = ∅ /\ enqueued s = enqueued st).
  assert (Htry : forall goal s, I s -> I (tryRecordConversion goal None s)).
  { intros goal s [Hs Hq].
    destruct (tryRecordConversion_cases goal None s) as [[-> _] | (l & _ & ? & _)]; done. }
  assert (Hact : forall s, I s -> I (updateActivity s)) by done.
  assert (Hst : I st) by done.
  split_and!.
  - intros. by apply (handleGoalInteraction_invariant I Htry Hact).
  - intros. by apply (onScroll_invariant I Htry).
  - intros. by apply (onIntersect_invariant I Htry).
  - by apply (checkPageviewGoals_invariant I Htry).
  - intros. unfold trackEvent.
    by rewrite (proj2 (hasAnyExposure_false st) Hnone).
Qed.

Lemma Dedup_view st st' : gateView st' = gateView st -> Dedup st -> Dedup st'.
Proof.
  unfold gateView, Dedup. intros [= Hsid Htracked Hconv] Hst goalId.
  rewrite Hsid, Htracked, Hconv. apply Hst.
Qed.

Lemma conversions_app_other st e :
  eventTypeIs "GOAL_CONVERSION" e = false ->
  List.filter (eventTypeIs "GOAL_CONVERSION") (enqueued st ++ [e]) = conversions st.
Proof.
  intros He. unfold conversions. rewrite List.filter_app. simpl.
  by rewrite He, app_nil_r.
Qed.

Lemma gateView_enqueueEvent type data st :
  eventTypeIs "GOAL_CONVERSION" (envelope st type data) = false ->
  gateView (enqueueEvent type data st) = gateView st.
Proof.
  intros He. unfold gateView, conversions.
  rewrite enqueued_enqueueEvent, conversions_app_other by done.
  by destruct (enqueueEvent_frame type data st) as (q & p & ->).
Qed.

Lemma gateView_exposeAndLog exp variantId variant st :
  gateView (exposeAndLog exp variantId variant st) = gateView st.
Proof.
  unfold gateView, conversions.
  destruct (exposeAndLog_sdk exp variantId variant st) as [q ->].
  destruct (exposeAndLog_enqueued exp variantId variant st) as (e & _ & Hty & ->).
  simpl. f_equal. case_bool_decide; [by rewrite app_nil_r|].
  apply conversions_app_other. unfold eventTypeIs in *.
  destruct (obj_get "eventType" e) as [[]|]; try done.
  apply String.eqb_eq in Hty. by subst.
Qed.

Lemma Dedup_processExperiments `{Host} st : Dedup st -> Dedup (processExperiments st).2.
Proof.
  intros Hst. unfold processExperiments, bind, getState.
  destruct (config (sdk st)) as [cfg|]; [|done].
  apply (forEach_invariant Dedup); [|done]. intros exp s Hs.
  destruct (processExperiment_cases exp s)
    as [-> | [[e ->] | [(v & _ & _ & ->) | (v & _ & _ & _ & _ & ->)]]]; simpl;
    try done.
  - eapply Dedup_view; [apply gateView_exposeAndLog | exact Hs].
  - eapply Dedup_view; [|exact Hs]. by rewrite gateView_exposeAndLog.
Qed.

(** A recorded conversion is the only one of its goal. *)
Lemma Dedup_tryRecordConversion goal customData st :
  plainData customData -> Dedup st -> Dedup (tryRecordConversion goal customData st).
Proof.
  intros Hplain Hst.
  destruct (tryRecordConversion_cases goal customData st)
    as [[-> _] | (l & Hkey & _ & _ & Heq)]; [done|].
  destruct (envelope_conversion_fields st goal l customData Hplain)
    as (Hty & Hgoal & Hsid & _).
  pose proof (enqueued_recorded goal l customData st (goalSessionKey goal st)) as Henq.
  rewrite <- Heq in Henq.
  assert (Hsdk : sessionId (sdk (tryRecordConversion goal customData st)) = sessionId (sdk st)
                 /\ trackedGoals (sdk (tryRecordConversion goal customData st))
                    = {[goalSessionKey goal st]} ∪ trackedGoals (sdk st)).
  { rewrite Heq. unfold pushGoalConversion.
    match goal with
    | |- context [enqueueEvent ?ty ?d ?s] =>
        destruct (enqueueEvent_frame ty d s) as (q & p & ->)
    end. done. }
  destruct Hsdk as [Hs Ht].
  intros goalId. unfold conversions. rewrite Hs, Ht, Henq.
  rewrite List.filter_app. unfold conversionsOf. rewrite List.filter_app.
  rewrite length_app. fold (conversions st).
  fold (conversionsOf goalId (sessionId (sdk st)) (conversions st)).
  specialize (Hst goalId). simpl. rewrite Hty. simpl. rewrite Hty. simpl.
  destruct (decide (goalId = goal_id goal)) as [->|Hne].
  - rewrite bool_decide_false in Hst by done.
    rewrite bool_decide_true by (unfold goalSessionKey; set_solver).
    destruct (_ && _); simpl; lia.
  - assert (fieldIs "goalId" goalId
              (envelope st "GOAL_CONVERSION" (conversionData goal l customData)) = false)
      as ->.
    { unfold fieldIs. rewrite Hgoal. by apply String.eqb_neq. }
    simpl. case_bool_decide as Hin.
    + rewrite bool_decide_true by set_solver. lia.
    + case_bool_decide; lia.
Qed.

Lemma eventType_custom st eventName l data :
  plainData data ->
  eventTypeIs "GOAL_CONVERSION"
    (envelope st "CUSTOM_EVENT"
       (spreadOpt [("eventName", JStr eventName);
                   ("attributedExperiments", JArr (map attributedToJs l))] data))
  = false.
Proof.
  intros Hplain. unfold eventTypeIs, envelope, envelopeOf.
  rewrite obj_get_spread.
  - rewrite plainData_get by (done || set_solver). simpl. done.
  - apply spreadOpt_NoDup. simpl.
    repeat (apply NoDup_cons; split; [set_solver|]). apply NoDup_nil_2.
Qed.

Lemma Dedup_trackEvent eventName data st :
  plainData data -> Dedup st -> Dedup (trackEvent eventName data st).
Proof.
  intros Hplain Hst. unfold trackEvent. case_if; [done|].
  match goal with
  | |- Dedup (enqueueEvent ?ty ?d (pushCustomEvent ?n ?l ?cd ?s)) =>
      assert (Hs : Dedup s); [|set (s1 := s) in *]
  end.
  { destruct (config (sdk st)) as [cfg|]; [|done].
    apply (fold_left_invariant Dedup); [|done]. intros goal s Hs.
    destruct (goal_type goal); try done. case_if; [|done].
    by apply Dedup_tryRecordConversion. }
  eapply Dedup_view; [apply gateView_enqueueEvent|].
  - apply eventType_custom, Hplain.
  - exact Hs.
Qed.

Lemma Dedup_init `{Host} response st : Dedup st -> Dedup (init response st).2.
Proof.
  intros Hst.
  assert (Hload : Dedup (loadConfig response st)).
  { eapply Dedup_view; [|exact Hst]. unfold loadConfig.
    destruct (ls_configCache (env st)) as [[ts data]|].
    - case_if; [done|]. by destruct response.
    - by destruct response. }
  assert (Hreveal : forall s, Dedup s -> Dedup (revealPage s)).
  { intros s Hs. eapply Dedup_view; [|exact Hs]. unfold revealPage. by case_if. }
  unfold init, bind, exec, getState, tryCatch. simpl.
  destruct (config (sdk (loadConfig response st))) as [cfg|] eqn:Hcfg; simpl.
  - apply Hreveal.
    pose proof (Dedup_processExperiments _ Hload) as Hp.
    destruct (processExperiments (loadConfig response st)) as [[[]|e] s1]; [|done].
    simpl in Hp. unfold setupGoals, bind, getState, exec.
    destruct (config (sdk s1)); [|done]. simpl.
    assert (Hscroll : Dedup (setupScrollGoals s1)).
    { eapply Dedup_view; [|exact Hp]. unfold setupScrollGoals.
      destruct (config (sdk s1)); [|done]. by destruct (filter _ _). }
    set (s2 := setupScrollGoals s1) in *.
    assert (Hvis : Dedup (setupVisibilityGoals s2).2).
    { unfold setupVisibilityGoals, bind, getState, exec.
      destruct (config (sdk s2)); [|done]. destruct (filter _ _) as [|g l]; [done|].
      generalize (g :: l). intros gs. unfold snd at 1.
      apply (forEach_invariant Dedup).
      - intros goal s Hs. by case_if.
      - eapply Dedup_view; [|exact Hscroll]. done. }
    destruct (setupVisibilityGoals s2) as [[[]|e] s3]; [|done].
    apply (checkPageviewGoals_invariant Dedup); [|done].
    intros goal s Hs. by apply Dedup_tryRecordConversion.
  - by apply Hreveal, Hreveal.
Qed.

Lemma Dedup_dispatch `{Host} st turn :
  plainTurn turn -> Dedup st -> Dedup (dispatch st turn).
Proof.
  intros Hplain Hst. unfold dispatch.
  assert (Hp : Dedup (onEnv (upd_page turn.1) st)) by (by eapply Dedup_view).
  set (s := onEnv (upd_page turn.1) st) in *.
  assert (Htry : forall goal s, Dedup s -> Dedup (tryRecordConversion goal None s))
    by (intros; by apply Dedup_tryRecordConversion).
  assert (Hact : forall s, Dedup s -> Dedup (updateActivity s))
    by (intros; by eapply Dedup_view).
  unfold plainTurn in Hplain.
  destruct turn.2; simpl.
  - by apply Dedup_init.
  - eapply Dedup_view; [|exact Hp]. unfold revealPage. by case_if.
  - by apply handleGoalInteraction_invariant.
  - by apply handleGoalInteraction_invariant.
  - by apply onScroll_invariant.
  - by apply onIntersect_invariant.
  - unfold handleUrlChange, bind, tryCatch. simpl.
    apply checkPageviewGoals_invariant; [done|].
    by apply Dedup_processExperiments.
  - by apply Dedup_trackEvent.
  - eapply Dedup_view; [|exact Hp]. unfold gateView, conversions.
    by rewrite enqueued_flushEvents; unfold flushEvents; destruct (eventQueue (sdk s)).
  - eapply Dedup_view; [|exact Hp]. unfold gateView, conversions.
    by rewrite enqueued_flushEvents; unfold flushEvents; destruct (eventQueue (sdk s)).
  - eapply Dedup_view; [|exact Hp]. unfold gateView, conversions.
    by rewrite enqueued_flushEvents; unfold flushEvents; destruct (eventQueue (sdk s)).
Qed.

Lemma Dedup_construct opts uuidV uuidS b :
  posted b = [] -> Dedup (construct opts uuidV uuidS b).
Proof.
  intros Hposted goalId.
  destruct (construct_fresh opts uuidV uuidS b) as (_ & _ & _ & -> & _ & _ & _ & Hp).
  rewrite bool_decide_false by set_solver.
  assert (conversions (construct opts uuidV uuidS b) = []) as ->; [|done].
  unfold conversions, enqueued. rewrite Hp, Hposted. simpl.
  unfold construct, resolveVisitorId, resolveSessionId. simpl.
  destruct (truthy (ss_sessionId b)); [case_if|];
    unfold cleanupExpiredExposures;
    match goal with
    | |- context [fold_left ?f ?l ?a] => destruct (fold_left f l a) as [m []]
    end; done.
Qed.

(** X3. Deduplication inside one page instance: whatever the browser
    delivers (configuration, clicks, submits, scrolls, intersections,
    navigations, custom events with plain data, flushes), at most one
    [GOAL_CONVERSION] envelope is queued for a goal with the session id of
    the instance. *)
Theorem one_conversion_per_instance `{Host} (opts : InitOptions)
    (uuidV uuidS : string) (b : Browser) (turns : list (Page * Event))
    (goalId : string) :
  posted b = [] ->
  Forall plainTurn turns ->
  let st := run turns (construct opts uuidV uuidS b) in
  (length (conversionsOf goalId (sessionId (sdk st)) (enqueued st)) <= 1)%nat.
Proof.
  intros Hposted Hplain st.
  assert (Hst : Dedup st).
  { subst st. unfold run.
    generalize (Dedup_construct opts uuidV uuidS b Hposted).
    generalize (construct opts uuidV uuidS b).
    induction Hplain as [|turn turns Hturn _ IH]; intros s Hs; simpl; [done|].
    apply IH. by apply Dedup_dispatch. }
  specialize (Hst goalId).
  assert (Hfilter : conversionsOf goalId (sessionId (sdk st)) (conversions st)
                    = conversionsOf goalId (sessionId (sdk st)) (enqueued st)).
  { unfold conversionsOf, conversions. generalize (enqueued st).
    induction l as [|e l IH]; simpl; [done|].
    destruct (eventTypeIs "GOAL_CONVERSION" e) eqn:He; simpl.
    - rewrite He. simpl. by rewrite IH.
    - done. }
  rewrite <- Hfilter. case_bool_decide; lia.
Qed.

Lemma one_conversion_per_instance_witness :
  posted (freshBrowser (pageAt 1000)) = [] /\
  Forall plainTurn
    [(pageAt 1000, ConfigSettled (FetchOk config1));
     (pageAt 2000, Click buyButton); (pageAt 2500, Click buyButton)] /\
  (length
     (conversionsOf "goal_1"
        (sessionId
           (sdk (run (H := exampleHost)
                   [(pageAt 1000, ConfigSettled (FetchOk config1));
                    (pageAt 2000, Click buyButton); (pageAt 2500, Click buyButton)]
                   (construct options1 "visitor-1" "session-1"
                      (freshBrowser (pageAt 1000))))))
        (enqueued
           (run (H := exampleHost)
              [(pageAt 1000, ConfigSettled (FetchOk config1));
               (pageAt 2000, Click buyButton); (pageAt 2500, Click buyButton)]
              (construct options1 "visitor-1" "session-1"
                 (freshBrowser (pageAt 1000)))))) <= 1)%nat.
Proof.
  assert (H1 : posted (freshBrowser (pageAt 1000)) = []) by reflexivity.
  assert (H2 : Forall plainTurn
                 [(pageAt 1000, ConfigSettled (FetchOk config1));
                  (pageAt 2000, Click buyButton); (pageAt 2500, Click buyButton)])
    by (repeat constructor).
  refine (conj H1 (conj H2 _)).
  exact (one_conversion_per_instance (H := exampleHost) options1 "visitor-1" "session-1"
           (freshBrowser (pageAt 1000)) _ "goal_1" H1 H2).
Defined.

(** ** Exposures and assignments written by the SDK itself

    The attribution of the specification, "the intersection with the
    visitor's exposures", is what the code computes as long as every
    exposed experiment has a stored assignment. The SDK keeps it so when
    storage had it so. *)













(** ** Properties kept by every event

    A property of the state that the operations below keep is kept by
    every handler, hence over the whole life of an instance. The
    handlers that do not reveal the page need no hypothesis on
    [loadConfig] and [revealPage]; those that are not a click or a form
    submission need none on [updateActivity]. *)

Section Preserved.
Context `{Host}.
Variable I : State -> Prop.
Hypothesis I_page : forall p st, I st -> I (onEnv (upd_page p) st).
Hypothesis I_loadConfig : forall response st, I st -> I (loadConfig response st).
Hypothesis I_revealPage : forall st, I st -> I (revealPage st).
Hypothesis I_stored : forall exp variantId variant st,
  storedVariantId (exp_id exp) st = Some variantId ->
  I st -> I (exposeAndLog exp variantId variant st).
Hypothesis I_fresh : forall exp variantId variant st,
  storedVariantId (exp_id exp) st = None ->
  I st -> I (exposeAndLog exp variantId variant (assign exp variantId variant st)).
Hypothesis I_scrollGoals : forall l st, I st -> I (onSdk (upd_scrollGoals l) st).
Hypothesis I_visibilityGoals : forall l st, I st -> I (onSdk (upd_visibilityGoals l) st).
Hypothesis I_tryRecordConversion :
  forall goal data st, I st -> I (tryRecordConversion goal data st).
Hypothesis I_updateActivity : forall st, I st -> I (updateActivity st).
Hypothesis I_flushEvents : forall st, I st -> I (flushEvents st).
Hypothesis I_customEvent : forall eventName l data st,
  I st ->
  I (enqueueEvent "CUSTOM_EVENT"
       (spreadOpt [("eventName", JStr eventName);
                   ("attributedExperiments", JArr (map attributedToJs l))] data)
       (pushCustomEvent eventName l data st)).

Lemma processExperiment_preserved exp st : I st -> I (processExperiment exp st).2.
Proof.
  intros Hst.
  destruct (processExperiment_cases exp st)
    as [-> | [[e ->] | [(v & _ & Hs & ->) | (v & _ & Hs & _ & _ & ->)]]]; simpl; auto.
Qed.

Lemma processExperiments_preserved st : I st -> I (processExperiments st).2.
Proof.
  intros Hst. unfold processExperiments, bind, getState.
  destruct (config (sdk st)) as [cfg|]; [|done].
  apply forEach_invariant; [|done]. intros exp s. apply processExperiment_preserved.
Qed.

Lemma setupGoals_preserved st : I st -> I (setupGoals st).2.
Proof.
  intros Hst. unfold setupGoals, bind, getState, exec.
  destruct (config (sdk st)) as [cfg|] eqn:Hcfg; [|done]. simpl.
  assert (Hscroll : I (setupScrollGoals st)).
  { unfold setupScrollGoals. rewrite Hcfg. destruct (filter _ _); auto. }
  set (s2 := setupScrollGoals st) in *.
  assert (Hvis : I (setupVisibilityGoals s2).2).
  { unfold setupVisibilityGoals, bind, getState, exec.
    destruct (config (sdk s2)); [|done]. destruct (filter _ _) as [|g l]; [done|].
    generalize (g :: l). intros gs. unfold snd at 1.
    apply (forEach_invariant I).
    - intros goal s Hs. by case_if.
    - by apply I_visibilityGoals. }
  destruct (setupVisibilityGoals s2) as [[[]|e] s3]; [|done].
  apply (checkPageviewGoals_invariant I); [|done].
  intros goal s. apply I_tryRecordConversion.
Qed.

Lemma init_preserved response st : I st -> I (init response st).2.
Proof.
  intros Hst. pose proof (I_loadConfig response st Hst) as Hload.
  unfold init, bind, exec, getState, tryCatch. simpl.
  destruct (config (sdk (loadConfig response st))) as [cfg|]; simpl.
  - apply I_revealPage.
    pose proof (processExperiments_preserved _ Hload) as Hp.
    destruct (processExperiments (loadConfig response st)) as [[[]|e] s1]; [|done].
    by apply setupGoals_preserved.
  - by apply I_revealPage, I_revealPage.
Qed.

Lemma trackEvent_preserved eventName data st : I st -> I (trackEvent eventName data st).
Proof.
  intros Hst. unfold trackEvent. case_if; [done|].
  apply I_customEvent.
  destruct (config (sdk st)) as [cfg|]; [|done].
  apply fold_left_invariant; [|done].
  intros goal s Hs. destruct (goal_type goal); try done. case_if; auto.
Qed.

Lemma quiet_handler_preserved ev st :
  reveals ev = false -> I st -> I (handler ev st).2.
Proof.
  clear I_page I_loadConfig I_revealPage I_scrollGoals I_visibilityGoals.
  intros Hev Hst.
  assert (Htry : forall goal s, I s -> I (tryRecordConversion goal None s)) by auto.
  destruct ev; simpl; try done; auto.
  - by apply handleGoalInteraction_invariant.
  - by apply handleGoalInteraction_invariant.
  - by apply onScroll_invariant.
  - by apply onIntersect_invariant.
  - unfold handleUrlChange, bind, tryCatch. simpl.
    apply checkPageviewGoals_invariant; [done|].
    by apply processExperiments_preserved.
  - by apply trackEvent_preserved.
Qed.

Lemma idle_handler_preserved ev st :
  interacts ev = false -> I st -> I (handler ev st).2.
Proof.
  clear I_page I_updateActivity.
  intros Hev Hst.
  assert (Htry : forall goal s, I s -> I (tryRecordConversion goal None s)) by auto.
  destruct ev; simpl; try done; auto.
  - by apply init_preserved.
  - by apply onScroll_invariant.
  - by apply onIntersect_invariant.
  - unfold handleUrlChange, bind, tryCatch. simpl.
    apply checkPageviewGoals_invariant; [done|].
    by apply processExperiments_preserved.
  - by apply trackEvent_preserved.
Qed.

Lemma handler_preserved ev st : I st -> I (handler ev st).2.
Proof.
  intros Hst. destruct (reveals ev) eqn:Hev.
  - destruct ev; try done; simpl; [by apply init_preserved | by apply I_revealPage].
  - by apply quiet_handler_preserved.
Qed.

Lemma dispatch_preserved st turn : I st -> I (dispatch st turn).
Proof. intros Hst. unfold dispatch. by apply handler_preserved, I_page. Qed.

Lemma run_preserved turns st : I st -> I (run turns st).
Proof.
  unfold run. revert st.
  induction turns as [|turn turns IH]; intros st Hst; simpl; [done|].
  by apply IH, dispatch_preserved.
Qed.
End Preserved.

(** ** Visitor and session identifiers *)

(** A property of the integers of a short range, checked one by one. *)
Lemma range_cases (P : Z -> Prop) (lo len : Z) :
  Forall P (seqZ lo len) -> forall d, lo <= d < lo + len -> P d.
Proof. intros HP d Hd. rewrite Forall_forall in HP. apply HP, elem_of_seqZ. lia. Qed.

Ltac by_range_cases lo len :=
  let l := eval vm_compute in (seqZ lo len) in
  change (seqZ lo len) with l; repeat constructor.

Lemma toString16_digit d :
  0 <= d < 16 -> toString16 d = String (hexChar d) EmptyString.
Proof.
  apply (range_cases (fun d => toString16 d = String (hexChar d) EmptyString) 0 16).
  by_range_cases 0 16.
Qed.

Lemma hexChar_isHexDigit d : 0 <= d < 16 -> isHexDigit (hexChar d) = true.
Proof.
  apply (range_cases (fun d => isHexDigit (hexChar d) = true) 0 16).
  by_range_cases 0 16.
Qed.

Lemma land_15 r : Z.land r 15 = r mod 16.
Proof. apply (Z.land_ones r 4). lia. Qed.

Lemma land_3 r : Z.land r 3 = r mod 4.
Proof. apply (Z.land_ones r 2). lia. Qed.

(** What the callback returns for each of the three characters. *)
Lemma uuidDigit_0 r :
  exists d, 0 <= d < 16 /\ uuidDigit "0" r = String (hexChar d) EmptyString.
Proof.
  exists (r mod 16). pose proof (Z.mod_pos_bound r 16 ltac:(lia)).
  split; [done|]. unfold uuidDigit. change (charCode "0" - 48) with 0.
  change (Z.shiftr 15 (Z.quot 0 4)) with 15.
  rewrite land_15, Z.lxor_0_l. by apply toString16_digit.
Qed.

Lemma uuidDigit_1 r :
  exists d, 0 <= d < 16 /\ uuidDigit "1" r = String (hexChar d) EmptyString.
Proof.
  exists (Z.lxor 1 (r mod 16)). pose proof (Z.mod_pos_bound r 16 ltac:(lia)) as Hm.
  assert (Hd : 0 <= Z.lxor 1 (r mod 16) < 16).
  { revert Hm. apply (range_cases (fun m => 0 <= Z.lxor 1 m < 16) 0 16).
    by_range_cases 0 16; by vm_compute. }
  split; [done|]. unfold uuidDigit. change (charCode "1" - 48) with 1.
  change (Z.shiftr 15 (Z.quot 1 4)) with 15.
  rewrite land_15. by apply toString16_digit.
Qed.

Lemma uuidDigit_8 r :
  exists d, 8 <= d < 12 /\ uuidDigit "8" r = String (hexChar d) EmptyString.
Proof.
  exists (Z.lxor 8 (r mod 4)). pose proof (Z.mod_pos_bound r 4 ltac:(lia)) as Hm.
  assert (Hd : 8 <= Z.lxor 8 (r mod 4) < 12).
  { revert Hm. apply (range_cases (fun m => 8 <= Z.lxor 8 m < 12) 0 4).
    by_range_cases 0 4; by vm_compute. }
  split; [done|]. unfold uuidDigit. change (charCode "8" - 48) with 8.
  change (Z.shiftr 15 (Z.quot 8 4)) with 3.
  rewrite land_3. apply toString16_digit. lia.
Qed.

Lemma replace018_chars random calls s :
  Forall2 uuidChar (String.list_ascii_of_string s)
    (String.list_ascii_of_string (replace018 random calls s)).
Proof.
  revert calls. induction s as [|c s IH]; intros calls; simpl; [constructor|].
  destruct (is018 c) eqn:Hc.
  - assert (Hd : exists d, (if Ascii.eqb c "8" then 8 <= d < 12 else 0 <= d < 16) /\
                   uuidDigit c (random calls) = String (hexChar d) EmptyString).
    { unfold is018 in Hc.
      destruct (Ascii.eqb_spec c "0") as [-> | _]; [apply uuidDigit_0|].
      destruct (Ascii.eqb_spec c "1") as [-> | _]; [apply uuidDigit_1|].
      destruct (Ascii.eqb_spec c "8") as [-> | _]; [apply uuidDigit_8 | done]. }
    destruct Hd as (d & Hd & ->). simpl. constructor; [|apply IH].
    unfold uuidChar. rewrite Hc. eauto.
  - simpl. constructor; [|apply IH]. unfold uuidChar. by rewrite Hc.
Qed.

Lemma get_lookup (i : nat) (s : string) :
  String.get i s = String.list_ascii_of_string s !! i.
Proof.
  revert i. induction s as [|c s IH]; intros [|i]; simpl; done.
Qed.

Lemma length_list_ascii (s : string) :
  String.length s = length (String.list_ascii_of_string s).
Proof. induction s; simpl; congruence. Qed.

(** X5. Whatever bytes the random source returns, [generateUUID] returns
    a version-4 UUID in its textual form: 36 characters, hyphens at
    positions 8, 13, 18 and 23, the version digit 4 at position 14, a
    variant digit among 8, 9, a, b at position 19, and lower-case
    hexadecimal digits everywhere else. *)
Theorem generateUUID_wellformed (random : nat -> Z) :
  let uuid := generateUUID random in
  String.length uuid = 36%nat /\
  (forall i, i ∈ [8; 13; 18; 23]%nat -> String.get i uuid = Some "-"%char) /\
  String.get 14 uuid = Some "4"%char /\
  (exists c, String.get 19 uuid = Some c /\ c ∈ ["8"; "9"; "a"; "b"]%char) /\
  (forall i c, String.get i uuid = Some c -> i ∉ [8; 13; 18; 23]%nat ->
     isHexDigit c = true).
Proof.
  intros uuid.
  pose proof (replace018_chars random 0 uuidTemplate) as Hchars.
  fold (generateUUID random) in Hchars. fold uuid in Hchars.
  assert (Hat : forall i t, String.list_ascii_of_string uuidTemplate !! i = Some t ->
                  exists c, String.get i uuid = Some c /\ uuidChar t c).
  { intros i t Ht. rewrite get_lookup.
    destruct (Forall2_lookup_l _ _ _ _ _ Hchars Ht) as (c & Hc & Hr). eauto. }
  assert (Hsame : forall i t, String.list_ascii_of_string uuidTemplate !! i = Some t ->
                    is018 t = false -> String.get i uuid = Some t).
  { intros i t Ht H018. destruct (Hat i t Ht) as (c & -> & Hr).
    unfold uuidChar in Hr. rewrite H018 in Hr. by subst. }
  assert (Hhex : forall i t, String.list_ascii_of_string uuidTemplate !! i = Some t ->
                   is018 t = true ->
                   exists d, 0 <= d < 16 /\ (t = "8"%char -> 8 <= d < 12) /\
                             String.get i uuid = Some (hexChar d)).
  { intros i t Ht H018. destruct (Hat i t Ht) as (c & -> & Hr).
    unfold uuidChar in Hr. rewrite H018 in Hr. destruct Hr as (d & Hd & ->).
    exists d. destruct (Ascii.eqb_spec t "8"); split_and!; try done; lia. }
  split_and!.
  - rewrite length_list_ascii, <- (Forall2_length _ _ _ Hchars). reflexivity.
  - intros i Hi.
    repeat (apply elem_of_cons in Hi as [-> | Hi]; [by apply Hsame|]).
    by apply elem_of_nil in Hi.
  - by apply Hsame.
  - destruct (Hhex 19%nat "8"%char eq_refl eq_refl) as (d & _ & Hd & ->).
    exists (hexChar d). split; [done|]. specialize (Hd eq_refl). revert Hd.
    apply (range_cases (fun d => hexChar d ∈ ["8"; "9"; "a"; "b"]%char) 8 4).
    by_range_cases 8 4; vm_compute; set_solver.
  - intros i c Hc Hi.
    assert (Hlt : (i < 36)%nat).
    { rewrite get_lookup in Hc. apply lookup_lt_Some in Hc.
      by rewrite <- (Forall2_length _ _ _ Hchars) in Hc. }
    destruct (lookup_lt_is_Some_2 (String.list_ascii_of_string uuidTemplate) i Hlt)
      as [t Ht].
    destruct (is018 t) eqn:H018.
    + destruct (Hhex i t Ht H018) as (d & Hd & _ & Hget).
      rewrite Hget in Hc. injection Hc as <-. by apply hexChar_isHexDigit.
    + rewrite (Hsame i t Ht H018) in Hc. injection Hc as <-.
      apply list_elem_of_lookup_2 in Ht as Hin.
      assert (Hcases : t = "-"%char \/ t = "4"%char).
      { revert Hin H018. clear.
        change (String.list_ascii_of_string uuidTemplate)
          with (String.list_ascii_of_string "10000000-1000-4000-8000-100000000000").
        simpl. intros Hin H018.
        repeat (apply elem_of_cons in Hin as [-> | Hin]; [by (done || auto)|]).
        by apply elem_of_nil in Hin. }
      destruct Hcases as [-> | ->]; [|done].
      exfalso. apply Hi.
      do 36 (destruct i as [|i]; [simpl in Ht; try done; set_solver|]).
      simpl in Hlt. lia.
Qed.

(** ** Batches sent to the ingestion endpoint *)

Lemma Batched_view st st' :
  eventQueue (sdk st') = eventQueue (sdk st) ->
  posted (env st') = posted (env st) ->
  Batched st -> Batched st'.
Proof. unfold Batched. by intros -> ->. Qed.

Lemma Batched_flushEvents st : Batched st -> Batched (flushEvents st).
Proof.
  intros [Hq Hp]. unfold Batched, flushEvents.
  destruct (eventQueue (sdk st)) as [|e q] eqn:Hqueue; [by rewrite Hqueue|].
  split; simpl; [lia|]. apply Forall_app. split; [done|].
  apply Forall_singleton. simpl in *. lia.
Qed.

Lemma Batched_enqueueEvent type data st : Batched st -> Batched (enqueueEvent type data st).
Proof.
  intros [Hq Hp]. unfold Batched, enqueueEvent.
  destruct (Nat.leb_spec 5
              (length (eventQueue (sdk (onSdk (fun t => upd_eventQueue
                 (eventQueue t ++ [envelope st type data]) t) st))))) as [Hfull | Hroom];
    simpl in *; rewrite length_app in *; simpl in *.
  - unfold flushEvents. simpl.
    destruct (eventQueue (sdk st) ++ _) as [|e q] eqn:Hqueue.
    { by destruct (eventQueue (sdk st)). }
    split; simpl; [lia|]. apply Forall_app. split; [done|].
    apply Forall_singleton. rewrite <- Hqueue, length_app. simpl. lia.
  - split; [lia | done].
Qed.

Lemma Batched_tryRecordConversion goal data st :
  Batched st -> Batched (tryRecordConversion goal data st).
Proof.
  intros Hst.
  destruct (tryRecordConversion_cases goal data st) as [[-> _] | (l & _ & _ & _ & ->)];
    [done|].
  unfold pushGoalConversion.
  eapply Batched_view; [reflexivity | reflexivity |].
  apply Batched_enqueueEvent. by eapply Batched_view.
Qed.

Lemma Batched_exposeAndLog exp variantId variant st :
  Batched st -> Batched (exposeAndLog exp variantId variant st).
Proof.
  intros Hst. unfold exposeAndLog.
  destruct (changes_frame variant st) as [c ->].
  case_bool_decide.
  - by eapply Batched_view.
  - unfold pushExperimentView.
    eapply Batched_view; [reflexivity | reflexivity |].
    apply Batched_enqueueEvent. by eapply Batched_view.
Qed.

Lemma Batched_loadConfig response st : Batched st -> Batched (loadConfig response st).
Proof.
  intros Hst. eapply Batched_view; [| |exact Hst]; unfold loadConfig;
    (destruct (ls_configCache (env st)) as [[ts data]|];
     [case_if; [done|]; by destruct response | by destruct response]).
Qed.

Lemma Batched_revealPage st : Batched st -> Batched (revealPage st).
Proof. intros Hst. unfold revealPage. case_if; [done|]. by eapply Batched_view. Qed.

Lemma Batched_construct opts uuidV uuidS b :
  posted b = [] -> Batched (construct opts uuidV uuidS b).
Proof.
  intros Hposted.
  unfold construct, resolveVisitorId, resolveSessionId. simpl.
  destruct (truthy (ss_sessionId b)); [case_if|];
    unfold cleanupExpiredExposures;
    match goal with
    | |- context [fold_left ?f ?l ?a] => destruct (fold_left f l a) as [m []]
    end; split; simpl; try lia; by rewrite Hposted.
Qed.

(** X6. Starting from a page that has sent nothing, whatever the browser
    delivers, the queue of the instance holds fewer than five envelopes
    after every turn and every request body posted to the ingestion
    endpoint holds at least one and at most five of them: no empty batch
    is sent and none grows beyond the flush threshold. *)
Theorem batches_hold_one_to_five `{Host} (opts : InitOptions)
    (uuidV uuidS : string) (b : Browser) (turns : list (Page * Event)) :
  posted b = [] ->
  let st := run turns (construct opts uuidV uuidS b) in
  (length (eventQueue (sdk st)) < 5)%nat /\
  Forall (fun batch : list Obj => (1 <= length batch <= 5)%nat) (posted (env st)).
Proof.
  intros Hposted st. subst st.
  apply (run_preserved Batched); try (intros; by eapply Batched_view).
  - apply Batched_loadConfig.
  - apply Batched_revealPage.
  - intros. by apply Batched_exposeAndLog.
  - intros. apply Batched_exposeAndLog. by eapply Batched_view.
  - apply Batched_tryRecordConversion.
  - apply Batched_flushEvents.
  - intros. apply Batched_enqueueEvent. by eapply Batched_view.
  - by apply Batched_construct.
Qed.

(** ** The envelopes queued so far *)

Lemma prefix_enqueueEvent (l : list Obj) type data st :
  l `prefix_of` enqueued st -> l `prefix_of` enqueued (enqueueEvent type data st).
Proof. intros Hl. rewrite enqueued_enqueueEvent. by apply prefix_app_r. Qed.

Lemma prefix_tryRecordConversion (l : list Obj) goal data st :
  l `prefix_of` enqueued st -> l `prefix_of` enqueued (tryRecordConversion goal data st).
Proof.
  intros Hl.
  destruct (enqueued_tryRecordConversion goal data st) as [-> | (a & _ & ->)]; [done|].
  by apply prefix_app_r.
Qed.

Lemma prefix_exposeAndLog (l : list Obj) exp variantId variant st :
  l `prefix_of` enqueued st ->
  l `prefix_of` enqueued (exposeAndLog exp variantId variant st).
Proof.
  intros Hl.
  destruct (exposeAndLog_enqueued exp variantId variant st) as (e & _ & _ & ->).
  by apply prefix_app_r.
Qed.

(** X7. Nothing that has been queued is dropped or reordered: whatever
    the browser delivers next, the envelopes queued so far (sent or
    waiting, oldest first) remain an initial segment of the envelopes
    queued afterwards. *)
Theorem queued_envelopes_are_kept `{Host} (st : State) (turns : list (Page * Event)) :
  enqueued st `prefix_of` enqueued (run turns st).
Proof.
  apply (run_preserved (fun s => enqueued st `prefix_of` enqueued s)); try done.
  - intros response s Hs. unfold loadConfig.
    destruct (ls_configCache (env s)) as [[ts data]|];
      [case_if; [done|]; by destruct response | by destruct response].
  - intros s Hs. unfold revealPage. by case_if.
  - intros. by apply prefix_exposeAndLog.
  - intros. by apply prefix_exposeAndLog.
  - intros. by apply prefix_tryRecordConversion.
  - intros s Hs. by rewrite enqueued_flushEvents.
  - intros. by apply prefix_enqueueEvent.
Qed.

(** ** What the operations leave alone *)

Lemma loadConfig_frame response st :
  exists c b,
    loadConfig response st = {| sdk := upd_config c (sdk st); env := b |} /\
    page b = page (env st) /\ cookies b = cookies (env st) /\
    ls_visitorId b = ls_visitorId (env st) /\
    ls_lastActivity b = ls_lastActivity (env st) /\
    ls_assignments b = ls_assignments (env st) /\
    ls_exposures b = ls_exposures (env st) /\
    ss_sessionId b = ss_sessionId (env st) /\
    dataLayer b = dataLayer (env st) /\ posted b = posted (env st) /\
    domChanges b = domChanges (env st) /\ pageHidden b = pageHidden (env st).
Proof.
  unfold loadConfig.
  assert (Hid : st = {| sdk := upd_config (config (sdk st)) (sdk st); env := env st |})
    by (by destruct st as [[] ?]).
  destruct (ls_configCache (env st)) as [[ts data]|].
  - case_if; [by eexists _, _|].
    destruct response; [by eexists _, _ | by eexists _, _].
  - destruct response; [by eexists _, _|]. exists (config (sdk st)), (env st). by rewrite <- Hid.
Qed.

Lemma revealPage_frame st :
  exists r h,
    revealPage st = onEnv (upd_pageHidden h) (onSdk (upd_isRevealed r) st).
Proof.
  unfold revealPage. case_if; [|by eexists _, _].
  exists (isRevealed (sdk st)), (pageHidden (env st)). by destruct st as [[] []].
Qed.

(** A conversion attempt touches the recorded goals, the queue, the
    requests sent and the data layer. *)
Lemma tryRecordConversion_frame goal data st :
  exists g q p d,
    trackedGoals (sdk st) ⊆ g /\
    tryRecordConversion goal data st
    = onEnv (upd_dataLayer d)
        (onEnv (upd_posted p)
           (onSdk (upd_eventQueue q) (onSdk (upd_trackedGoals g) st))).
Proof.
  destruct (tryRecordConversion_cases goal data st) as [[-> _] | (l & _ & _ & _ & ->)].
  - exists (trackedGoals (sdk st)), (eventQueue (sdk st)), (posted (env st)),
      (dataLayer (env st)). split; [done|]. by destruct st as [[] []].
  - unfold pushGoalConversion.
    match goal with
    | |- context [enqueueEvent ?ty ?d ?s] =>
        destruct (enqueueEvent_frame ty d s) as (q & p & ->)
    end.
    eexists _, q, p, _. split; [|reflexivity]. set_solver.
Qed.

(** Exposing touches the DOM, the exposure ledger and its storage slot,
    the set of active experiments, the queue, the requests sent and the
    data layer. *)
Lemma exposeAndLog_frame exp variantId variant st :
  exists c q p d,
    exposeAndLog exp variantId variant st
    = onEnv (upd_dataLayer d)
        (onEnv (upd_posted p)
           (onSdk (upd_eventQueue q)
              (onSdk (upd_activeExperiments ({[exp_id exp]} ∪ activeExperiments (sdk st)))
                 (recordExposure (exp_id exp) variantId (onEnv (upd_domChanges c) st))))).
Proof.
  unfold exposeAndLog.
  destruct (changes_frame variant st) as [c ->]. exists c.
  set (s := recordExposure (exp_id exp) variantId (onEnv (upd_domChanges c) st)).
  change (activeExperiments (sdk s)) with (activeExperiments (sdk st)).
  case_bool_decide as Hin.
  - exists (eventQueue (sdk s)), (posted (env s)), (dataLayer (env s)).
    replace ({[exp_id exp]} ∪ activeExperiments (sdk st))
      with (activeExperiments (sdk s)) by (subst s; simpl; set_solver).
    by destruct s as [[] []].
  - unfold pushExperimentView.
    match goal with
    | |- context [enqueueEvent ?ty ?d ?s] =>
        destruct (enqueueEvent_frame ty d s) as (q & p & ->)
    end.
    by eexists q, p, _.
Qed.

Lemma customEvent_frame eventName l data type payload st :
  exists q p d,
    enqueueEvent type payload (pushCustomEvent eventName l data st)
    = onEnv (upd_dataLayer d) (onEnv (upd_posted p) (onSdk (upd_eventQueue q) st)).
Proof.
  destruct (enqueueEvent_frame type payload (pushCustomEvent eventName l data st))
    as (q & p & ->).
  by eexists q, p, _.
Qed.

Lemma flushEvents_frame st :
  exists q p, flushEvents st = onEnv (upd_posted p) (onSdk (upd_eventQueue q) st).
Proof.
  unfold flushEvents. destruct (eventQueue (sdk st)) eqn:Hq; [|by eexists _, _].
  exists [], (posted (env st)). rewrite <- Hq. by destruct st as [[] []].
Qed.

(** ** Storage mirrors the instance *)






Lemma truthy_Some (o : option string) s : truthy o = Some s <-> o = Some s /\ s <> "".
Proof.
  unfold truthy. destruct o as [s'|]; [|by split; [|intros []]].
  destruct (String.eqb_spec s' ""); split.
  - done.
  - intros [[= ->] ?]. done.
  - intros [= ->]. done.
  - by intros [[= ->] _].
Qed.


Lemma cleanup_frame st :
  exists x b,
    cleanupExpiredExposures st = {| sdk := upd_exposures x (sdk st); env := b |} /\
    cookies b = cookies (env st) /\ ls_assignments b = ls_assignments (env st) /\
    ss_sessionId b = ss_sessionId (env st) /\
    ls_lastActivity b = ls_lastActivity (env st) /\
    ls_visitorId b = ls_visitorId (env st) /\ page b = page (env st) /\
    ls_configCache b = ls_configCache (env st) /\ posted b = posted (env st).
Proof.
  unfold cleanupExpiredExposures.
  destruct (fold_left _ _ _) as [m []]; by eexists _, _.
Qed.


(** ** Identity *)










(** ** The ledgers of an instance only grow *)

Lemma extends_refl st : extends st st.
Proof. unfold extends. split_and!; try done. intros id x Hx. exists x. split_and!; done || lia. Qed.

Lemma extends_trans st1 st2 st3 : extends st1 st2 -> extends st2 st3 -> extends st1 st3.
Proof.
  intros (Ha & Hx & Hact & Hg) (Ha' & Hx' & Hact' & Hg'). split_and!.
  - intros id a Hid Hne. apply Ha'; [|done]. by apply Ha.
  - intros id x Hid. destruct (Hx id x Hid) as (x' & Hid' & ? & ? & ?).
    destruct (Hx' id x' Hid') as (x'' & ? & ? & ? & ?).
    exists x''. split_and!; [done | congruence | congruence | lia].
  - set_solver.
  - set_solver.
Qed.

Lemma extends_view st st' : ledgerView st' = ledgerView st -> extends st st'.
Proof.
  unfold ledgerView. intros [= Ha Hx Hact Hg]. unfold extends.
  rewrite Ha, Hx, Hact, Hg. apply extends_refl.
Qed.

Lemma extends_recordExposure experimentId variantId st :
  extends st (recordExposure experimentId variantId st).
Proof.
  unfold extends, recordExposure. simpl. split_and!; try done.
  intros id x Hx. destruct (decide (id = experimentId)) as [->|Hne].
  - rewrite Hx, lookup_insert_eq. eexists. split_and!; try done. simpl. lia.
  - exists x. split_and!; try done.
    destruct (exposures (sdk st) !! experimentId); by rewrite lookup_insert_ne.
Qed.

Lemma extends_assign exp variantId variant st :
  storedVariantId (exp_id exp) st = None -> extends st (assign exp variantId variant st).
Proof.
  intros Hnone. unfold extends, assign. simpl. split_and!; try done.
  - intros id a Ha Hne. rewrite lookup_insert_ne; [done|]. intros <-.
    assert (storedVariantId (exp_id exp) st = Some (asg_variantId a))
      by (apply storedVariantId_Some; eauto).
    congruence.
  - intros id x Hx. exists x. split_and!; done || lia.
Qed.

Lemma extends_exposeAndLog exp variantId variant st :
  extends st (exposeAndLog exp variantId variant st).
Proof.
  destruct (exposeAndLog_frame exp variantId variant st) as (c & q & p & d & ->).
  eapply extends_trans;
    [apply (extends_trans _ (onEnv (upd_domChanges c) st));
       [by apply extends_view | apply extends_recordExposure]|].
  unfold extends. simpl. split_and!; try done; [|set_solver].
  intros id x Hx. exists x. split_and!; done || lia.
Qed.

Lemma extends_run `{Host} turns st : extends st (run turns st).
Proof.
  apply (run_preserved (extends st)).
  - intros p s Hs. eapply extends_trans; [exact Hs|]. by apply extends_view.
  - intros response s Hs. eapply extends_trans; [exact Hs|].
    destruct (loadConfig_frame response s) as (c & b & -> & _). by apply extends_view.
  - intros s Hs. eapply extends_trans; [exact Hs|].
    destruct (revealPage_frame s) as (r & h & ->). by apply extends_view.
  - intros exp v variant s _ Hs. eapply extends_trans; [exact Hs|].
    apply extends_exposeAndLog.
  - intros exp v variant s Hnone Hs. eapply extends_trans; [exact Hs|].
    eapply extends_trans; [by apply extends_assign | apply extends_exposeAndLog].
  - intros l s Hs. eapply extends_trans; [exact Hs|]. by apply extends_view.
  - intros l s Hs. eapply extends_trans; [exact Hs|]. by apply extends_view.
  - intros goal data s Hs. eapply extends_trans; [exact Hs|].
    destruct (tryRecordConversion_frame goal data s) as (g & q & p & d & Hg & ->).
    unfold extends. simpl. split_and!; try done.
    intros id x Hx. exists x. split_and!; done || lia.
  - intros s Hs. eapply extends_trans; [exact Hs|]. by apply extends_view.
  - intros s Hs. eapply extends_trans; [exact Hs|].
    destruct (flushEvents_frame s) as (q & p & ->). by apply extends_view.
  - intros eventName l data s Hs. eapply extends_trans; [exact Hs|].
    match goal with
    | |- context [enqueueEvent ?ty ?d (pushCustomEvent ?n ?l ?dt ?s)] =>
        destruct (customEvent_frame n l dt ty d s) as (q & p & dl & ->)
    end.
    by apply extends_view.
  - apply extends_refl.
Qed.

Lemma getVariant_Some id st v :
  getVariant id st = Some v <->
  exists a, assignments (sdk st) !! id = Some a /\ asg_variantId a = v /\ v <> "".
Proof.
  unfold getVariant. destruct (assignments (sdk st) !! id) as [a|].
  - rewrite truthy_Some. split.
    + intros [[= <-] ?]. eauto.
    + intros (a' & [= <-] & <- & ?). done.
  - split; [done|]. by intros (a & ? & _).
Qed.

(** X11. Within the life of an instance nothing it has recorded is taken
    back: whatever the browser delivers, a variant that [getVariant]
    returns for an experiment is returned ever after, an exposure stays
    with the variant and the time of the first exposure and a count that
    does not decrease, and the sets of viewed experiments and of recorded
    goals only grow. *)
Theorem ledgers_only_grow `{Host} (st : State) (turns : list (Page * Event)) :
  let st' := run turns st in
  (forall id v, getVariant id st = Some v -> getVariant id st' = Some v) /\
  (forall id x, exposures (sdk st) !! id = Some x ->
     exists x', exposures (sdk st') !! id = Some x' /\
                xp_variantId x' = xp_variantId x /\
                exposedAt x' = exposedAt x /\
                exposureCount x <= exposureCount x') /\
  (forall id, isExposed id st = true -> isExposed id st' = true) /\
  activeExperiments (sdk st) ⊆ activeExperiments (sdk st') /\
  trackedGoals (sdk st) ⊆ trackedGoals (sdk st').
Proof.
  intros st'. destruct (extends_run turns st) as (Ha & Hx & Hact & Hg).
  split_and!; try done.
  - intros id v (a & Hid & Hv & Hne)%getVariant_Some.
    apply getVariant_Some. exists a. split_and!; try done. apply Ha; congruence.
  - intros id. unfold isExposed, isExposedToExperiment.
    destruct (exposures (sdk st) !! id) as [x|] eqn:Hid; [|done].
    destruct (Hx id x Hid) as (x' & Hid' & _). subst st'. by rewrite Hid'.
Qed.

(** ** Activity *)

Lemma idle_run_preserved `{Host} (I : State -> Prop) :
  (forall p st, I st -> I (onEnv (upd_page p) st)) ->
  (forall ev st, interacts ev = false -> I st -> I (handler ev st).2) ->
  forall turns st,
    Forall (fun turn : Page * Event => interacts turn.2 = false) turns ->
    I st -> I (run turns st).
Proof.
  intros Hpage Hidle turns. unfold run.
  induction turns as [|turn turns IH]; intros st Hturns Hst; simpl; [done|].
  apply Forall_cons in Hturns as [Hturn Hturns].
  apply IH; [done|]. unfold dispatch. by apply Hidle, Hpage.
Qed.

Lemma lastActivity_handler `{Host} ev st :
  interacts ev = false ->
  ls_lastActivity (env (handler ev st).2) = ls_lastActivity (env st).
Proof.
  intros Hev.
  apply (idle_handler_preserved
           (fun s => ls_lastActivity (env s) = ls_lastActivity (env st))); try done.
  - intros response s Hs.
    destruct (loadConfig_frame response s) as (c & b & -> & _ & _ & _ & Hl & _).
    simpl. congruence.
  - intros s Hs. by destruct (revealPage_frame s) as (r & h & ->).
  - intros exp v variant s _ Hs.
    by destruct (exposeAndLog_frame exp v variant s) as (c & q & p & d & ->).
  - intros exp v variant s _ Hs.
    by destruct (exposeAndLog_frame exp v variant (assign exp v variant s))
      as (c & q & p & d & ->).
  - intros goal data s Hs.
    by destruct (tryRecordConversion_frame goal data s) as (g & q & p & d & _ & ->).
  - intros s Hs. by destruct (flushEvents_frame s) as (q & p & ->).
  - intros eventName l data s Hs.
    match goal with
    | |- context [enqueueEvent ?ty ?d (pushCustomEvent ?n ?l ?dt ?s)] =>
        by destruct (customEvent_frame n l dt ty d s) as (q & p & dl & ->)
    end.
Qed.

Lemma lastActivity_interaction `{Host} target type st cfg :
  config (sdk st) = Some cfg ->
  ls_lastActivity (env (handleGoalInteraction target type st).2)
  = Some (now (page (env st))).
Proof.
  intros Hcfg.
  unfold handleGoalInteraction, bind, getState, exec. rewrite Hcfg. simpl.
  apply (forEach_invariant
           (fun s => ls_lastActivity (env s) = Some (now (page (env st))))); [|done].
  intros goal s Hs. destruct (truthy (goal_selector goal)); [|done].
  repeat case_if; simpl; try done.
  by destruct (tryRecordConversion_frame goal None s) as (g & q & p & d & _ & ->).
Qed.

(** X12. The time of the last activity, from which the session timeout
    is counted, is written by the constructor and by the handling of
    clicks and form submissions, and by nothing else: scrolls,
    intersections, URL changes, custom events, flushes and the
    initialisation leave it as it is, and so does a click or a submission
    that arrives while the configuration is absent. A click or a
    submission that arrives when the configuration is present sets it to
    the current time. *)
Theorem activity_is_refreshed_by_interactions_only `{Host} (st : State) :
  (forall turns,
     Forall (fun turn : Page * Event => interacts turn.2 = false) turns ->
     ls_lastActivity (env (run turns st)) = ls_lastActivity (env st)) /\
  (forall p ev,
     interacts ev = true ->
     ls_lastActivity (env (dispatch st (p, ev)))
     = match config (sdk st) with
       | Some _ => Some (now p)
       | None => ls_lastActivity (env st)
       end).
Proof.
  split.
  - intros turns Hturns.
    apply (idle_run_preserved
             (fun s => ls_lastActivity (env s) = ls_lastActivity (env st)));
      try done.
    intros ev s Hev Hs. by rewrite lastActivity_handler.
  - intros p ev Hev. unfold dispatch. simpl.
    assert (Hcase : forall target type,
              ls_lastActivity
                (env (handleGoalInteraction target type (onEnv (upd_page p) st)).2)
              = match config (sdk st) with
                | Some _ => Some (now p)
                | None => ls_lastActivity (env st)
                end).
    { intros target type. destruct (config (sdk st)) as [cfg|] eqn:Hcfg.
      - by rewrite (lastActivity_interaction _ _ _ cfg).
      - unfold handleGoalInteraction, bind, getState. simpl. by rewrite Hcfg. }
    destruct ev; try done; apply Hcase.
Qed.

(** ** Anti-flicker *)








(** ** Shares of traffic *)

Lemma rem_100_range s : 0 <= Z.rem (hashCode s) 100 < 100.
Proof.
  rewrite hashCode_rem_mod. apply Z.mod_pos_bound. lia.
Qed.

Lemma sum_nonneg (variants : list VariantConfig) :
  (forall u, u ∈ variants -> 0 <= trafficWeight u) ->
  0 <= foldr Z.add 0 (trafficWeight <$> variants).
Proof.
  induction variants as [|u variants IH]; intros Hw; csimpl; [lia|].
  pose proof (Hw u ltac:(left)).
  pose proof (IH ltac:(intros; apply Hw; by right)). lia.
Qed.

Lemma sum_app (l1 l2 : list VariantConfig) :
  foldr Z.add 0 (trafficWeight <$> l1 ++ l2)
  = foldr Z.add 0 (trafficWeight <$> l1) + foldr Z.add 0 (trafficWeight <$> l2).
Proof. induction l1 as [|u l1 IH]; csimpl; [done|]. rewrite IH. lia. Qed.

Lemma cumulativeWeight_step variants k v :
  variants !! k = Some v ->
  cumulativeWeight variants k
  = foldr Z.add 0 (trafficWeight <$> take k variants) + trafficWeight v.
Proof.
  intros Hv. unfold cumulativeWeight.
  rewrite (take_S_r _ _ _ Hv), sum_app. simpl. lia.
Qed.

Lemma cumulativeWeight_mono variants j k :
  (forall u, u ∈ variants -> 0 <= trafficWeight u) ->
  (j < k)%nat ->
  cumulativeWeight variants j <= foldr Z.add 0 (trafficWeight <$> take k variants).
Proof.
  intros Hw Hjk. unfold cumulativeWeight.
  replace k with (S j + (k - S j))%nat by lia.
  rewrite <- take_take_drop, sum_app.
  assert (0 <= foldr Z.add 0 (trafficWeight <$> take (k - S j) (drop (S j) variants))).
  { apply sum_nonneg. intros u Hu. apply Hw.
    eapply subseteq_drop, subseteq_take, Hu. }
  lia.
Qed.

Lemma cumulativeWeight_last variants :
  variants <> [] ->
  cumulativeWeight variants (pred (length variants))
  = foldr Z.add 0 (trafficWeight <$> variants).
Proof.
  intros Hne. unfold cumulativeWeight.
  rewrite take_ge; [done|]. destruct variants; [done|]. simpl. lia.
Qed.

(** X14. When the weights are not negative, add up to at least 100 and
    the variant ids are distinct, each variant owns the range of hash
    residues that starts at the sum of the weights declared before it
    and is as wide as its own weight: [bucket] returns its id exactly
    when [hash % 100] falls in that range. So a variant of weight [w]
    is chosen for [w] of the 100 residues, and the fallback to the
    first variant is never taken. *)
Theorem bucket_follows_weights (visitorId experimentId : string)
    (variants : list VariantConfig) (k : nat) (v : VariantConfig) :
  (forall u, u ∈ variants -> 0 <= trafficWeight u) ->
  NoDup (var_id <$> variants) ->
  100 <= foldr Z.add 0 (trafficWeight <$> variants) ->
  variants !! k = Some v ->
  let r := Z.rem (hashCode (visitorId +:+ experimentId)) 100 in
  let lower := foldr Z.add 0 (trafficWeight <$> take k variants) in
  bucket visitorId experimentId variants = Normal (var_id v) <->
  lower <= r < lower + trafficWeight v.
Proof.
  intros Hw Hids Htotal Hv r lower.
  pose proof (rem_100_range (visitorId +:+ experimentId)) as Hr. fold r in Hr.
  assert (Hne : variants <> []) by (intros ->; done).
  unfold bucket. rewrite bucketLoop_firstExceeding.
  rewrite <- hashCode_spec, <- hashCode_rem_mod. fold r.
  destruct (firstExceeding r variants) as [v'|] eqn:Hfirst; simpl.
  - apply firstExceeding_Some in Hfirst as (k' & Hv' & Hlt & Hmin).
    rewrite (cumulativeWeight_step _ _ _ Hv') in Hlt.
    split.
    + intros [= Hid].
      assert (k' = k) as ->.
      { apply (NoDup_lookup _ k' k (var_id v) Hids).
        - rewrite list_lookup_fmap, Hv'. simpl. by rewrite Hid.
        - by rewrite list_lookup_fmap, Hv. }
      assert (v' = v) as -> by congruence.
      split; [|done]. fold lower in Hlt.
      destruct k as [|k]; [subst lower; simpl; lia|].
      specialize (Hmin k ltac:(lia)). unfold cumulativeWeight in Hmin. done.
    + intros [Hlo Hhi].
      destruct (Nat.lt_trichotomy k k') as [Hlt' | [-> | Hgt]].
      * specialize (Hmin k Hlt'). rewrite (cumulativeWeight_step _ _ _ Hv) in Hmin.
        fold lower in Hmin. lia.
      * congruence.
      * pose proof (cumulativeWeight_mono variants k' k Hw Hgt) as Hmono.
        rewrite (cumulativeWeight_step _ _ _ Hv') in Hmono. fold lower in Hmono. lia.
  - exfalso.
    pose proof (proj1 (firstExceeding_None r variants) Hfirst
                  (pred (length variants))) as Hall.
    assert (Hlen : (pred (length variants) < length variants)%nat)
      by (destruct variants; [done | simpl; lia]).
    specialize (Hall Hlen). rewrite cumulativeWeight_last in Hall by done. lia.
Qed.

(** X15. The sampling gate at its ends: an allocation of 100 or more
    admits every visitor, an allocation of 0 or less admits none,
    whatever the identifiers are. *)
Theorem allocation_bounds (visitorId experimentId : string) (allocation : Z) :
  (100 <= allocation -> isUserInSample visitorId experimentId allocation = true) /\
  (allocation <= 0 -> isUserInSample visitorId experimentId allocation = false).
Proof.
  unfold isUserInSample.
  pose proof (rem_100_range (visitorId +:+ experimentId +:+ "alloc")) as Hr.
  split; intros Ha; [apply Z.ltb_lt | apply Z.ltb_ge]; lia.
Qed.

(** ** Experiments that are not targeted, and experiments that throw *)

Lemma processExperiment_untargeted `{Host} exp st :
  targeted exp (env st) <> Normal true ->
  (processExperiment exp st).2 = st.
Proof.
  intros Ht.
  destruct (processExperiment_cases exp st)
    as [-> | [[e ->] | [(v & ? & _) | (v & ? & _)]]]; done.
Qed.

Lemma processExperiment_other `{Host} exp st id :
  exp_id exp <> id ->
  let st' := (processExperiment exp st).2 in
  assignments (sdk st') !! id = assignments (sdk st) !! id /\
  exposures (sdk st') !! id = exposures (sdk st) !! id /\
  (id ∈ activeExperiments (sdk st') <-> id ∈ activeExperiments (sdk st)) /\
  viewsOf id (enqueued st') = viewsOf id (enqueued st).
Proof.
  intros Hne st'.
  destruct (processExperiment_frame exp st) as (_ & _ & _ & Hother).
  destruct (Hother id (not_eq_sym Hne)) as (Hx & Hact & Hv).
  split_and!; try done. subst st'.
  destruct (processExperiment_cases exp st)
    as [-> | [[e ->] | [(v & _ & _ & ->) | (v & _ & _ & _ & _ & ->)]]]; simpl;
    try done.
  - by destruct (exposeAndLog_effect exp v (findVariant v (variants exp)) st) as (-> & _).
  - destruct (exposeAndLog_effect exp v (findVariant v (variants exp))
                (assign exp v (findVariant v (variants exp)) st)) as (-> & _).
    simpl. by rewrite lookup_insert_ne.
Qed.

(** X16. Processing touches an experiment id only through an experiment
    of the configuration that is running, matches the page and accepts
    the visitor: when every experiment with that id is paused, fails the
    URL pattern, fails an audience or throws in these checks, its
    assignment, its exposure, its membership of the viewed experiments
    and its queued views are after [processExperiments] what they were
    before. *)
Theorem untargeted_experiment_is_untouched `{Host} (st : State) (cfg : ProjectConfig)
    (id : string) :
  config (sdk st) = Some cfg ->
  (forall exp, exp ∈ experiments cfg -> exp_id exp = id ->
     targeted exp (env st) <> Normal true) ->
  let st' := (processExperiments st).2 in
  assignments (sdk st') !! id = assignments (sdk st) !! id /\
  exposures (sdk st') !! id = exposures (sdk st) !! id /\
  (id ∈ activeExperiments (sdk st') <-> id ∈ activeExperiments (sdk st)) /\
  viewsOf id (enqueued st') = viewsOf id (enqueued st).
Proof.
  intros Hcfg Hall st'. subst st'.
  rewrite (processExperiments_unfold _ cfg) by done.
  revert Hall. generalize (experiments cfg). intros l. clear Hcfg.
  assert (Hgen : forall s,
            page (env s) = page (env st) -> cookies (env s) = cookies (env st) ->
            (forall exp, exp ∈ l -> exp_id exp = id ->
               targeted exp (env st) <> Normal true) ->
            let s' := (forEach processExperiment l s).2 in
            assignments (sdk s') !! id = assignments (sdk s) !! id /\
            exposures (sdk s') !! id = exposures (sdk s) !! id /\
            (id ∈ activeExperiments (sdk s') <-> id ∈ activeExperiments (sdk s)) /\
            viewsOf id (enqueued s') = viewsOf id (enqueued s));
    [|by apply Hgen].
  induction l as [|exp l IH]; intros s Hp Hc Hall; simpl; [done|].
  unfold bind.
  assert (Hstep : let s1 := (processExperiment exp s).2 in
            assignments (sdk s1) !! id = assignments (sdk s) !! id /\
            exposures (sdk s1) !! id = exposures (sdk s) !! id /\
            (id ∈ activeExperiments (sdk s1) <-> id ∈ activeExperiments (sdk s)) /\
            viewsOf id (enqueued s1) = viewsOf id (enqueued s)).
  { destruct (decide (exp_id exp = id)) as [Heq|Hne].
    - rewrite processExperiment_untargeted; [done|].
      rewrite (targeted_ext exp (env s) (env st)) by done.
      apply Hall; [by left | done].
    - by apply processExperiment_other. }
  destruct (processExperiment_frame exp s) as (Hp1 & Hc1 & _).
  destruct (processExperiment exp s) as [[[]|e] s1]; simpl in *; [|done].
  destruct (IH s1) as (Ha & Hx & Hact & Hv).
  - congruence.
  - congruence.
  - intros exp' Hin. apply Hall. by right.
  - destruct Hstep as (Ha1 & Hx1 & Hact1 & Hv1).
    split_and!; [congruence | congruence | by rewrite Hact, Hact1 | congruence].
Qed.

(** X17. An experiment whose turn throws (a URL pattern or an audience
    pattern that is not a regular expression, an empty variant list)
    ends the initialisation: the experiments before it have been
    processed, those after it are not, the goals are not set up (no
    scroll or visibility goal is installed, no page-view goal is
    checked), and the page is revealed; [init] itself does not throw. *)
Theorem throwing_experiment_ends_initialisation `{Host} (response : FetchResult)
    (st s1 : State) (cfg : ProjectConfig) (before after : list ExperimentConfig)
    (exp : ExperimentConfig) (e : JsError) :
  config (sdk (loadConfig response st)) = Some cfg ->
  experiments cfg = before ++ exp :: after ->
  forEach processExperiment before (loadConfig response st) = (Normal tt, s1) ->
  (processExperiment exp s1).1 = Abrupt e ->
  init response st = (Normal tt, revealPage s1) /\
  scrollGoals (sdk (init response st).2) = scrollGoals (sdk st) /\
  visibilityGoals (sdk (init response st).2) = visibilityGoals (sdk st) /\
  trackedGoals (sdk (init response st).2) = trackedGoals (sdk st).
Proof.
  intros Hcfg Hexps Hbefore Hthrow.
  assert (Hexp : processExperiment exp s1 = (Abrupt e, s1)).
  { destruct (processExperiment_cases exp s1)
      as [Heq | [[e' Heq] | [(v & _ & _ & Heq) | (v & _ & _ & _ & _ & Heq)]]];
      rewrite Heq in Hthrow; try done. simpl in Hthrow. congruence. }
  assert (Hproc : processExperiments (loadConfig response st) = (Abrupt e, s1)).
  { rewrite (processExperiments_unfold _ cfg) by done.
    rewrite Hexps, forEach_app, Hbefore. simpl. unfold bind. by rewrite Hexp. }
  assert (Hinit : init response st = (Normal tt, revealPage s1)).
  { unfold init, bind, exec, getState, tryCatch. simpl. rewrite Hcfg. simpl.
    unfold bind. by rewrite Hproc. }
  split; [done|]. rewrite Hinit. simpl.
  assert (Hkeep : scrollGoals (sdk s1) = scrollGoals (sdk st) /\
                  visibilityGoals (sdk s1) = visibilityGoals (sdk st) /\
                  trackedGoals (sdk s1) = trackedGoals (sdk st)).
  { change s1 with ((Abrupt e : Completion unit, s1).2). rewrite <- Hproc.
    apply (processExperiments_preserved
             (fun s => scrollGoals (sdk s) = scrollGoals (sdk st) /\
                       visibilityGoals (sdk s) = visibilityGoals (sdk st) /\
                       trackedGoals (sdk s) = trackedGoals (sdk st))).
    - intros exp' v variant s _ Hs.
      by destruct (exposeAndLog_frame exp' v variant s) as (c & q & p & d & ->).
    - intros exp' v variant s _ Hs.
      by destruct (exposeAndLog_frame exp' v variant (assign exp' v variant s))
        as (c & q & p & d & ->).
    - by destruct (loadConfig_frame response st) as (c & b & -> & _). }
  by destruct (revealPage_frame s1) as (r & h & ->).
Qed.

(** ** A first visit *)





(** ** The cached configuration *)


(** ** Custom events *)



(** ** Storage engine *)

Lemma new_without_storage (window_type : option WebStorage) :
  match window_type with
  | Some w => ws_denied w = true \/ ws_accepts w "__ab_test__" "__ab_test__" = false
  | None => True
  end ->
  SafeStorage.new window_type = {| SafeStorage.storage := None; SafeStorage.fallback := ∅ |}.
Proof.
  destruct window_type as [w|]; [|done]. unfold SafeStorage.new, ws_setItem.
  intros [-> | ->]; [done|]. by rewrite orb_true_r.
Qed.

(** X21. When the browser's storage cannot be used (it is missing, every
    access is denied, or the probe write of the constructor is
    rejected), [SafeStorage] keeps the items in memory: a value written
    under a key is read back under that key, except that the empty
    string reads back as [null]; after [removeItem] the key reads as
    [null]. This holds for every key but the members of
    [Object.prototype], which the in-memory store inherits:
    [__proto__] cannot be written, and a removed or never written
    member name reads as the inherited member, not as [null]. *)
Theorem memory_fallback_round_trip (window_type : option WebStorage)
    (key value : string) :
  match window_type with
  | Some w => ws_denied w = true \/ ws_accepts w "__ab_test__" "__ab_test__" = false
  | None => True
  end ->
  let s := SafeStorage.new window_type in
  let written := SafeStorage.setItem key value s in
  (key <> "__proto__" ->
     SafeStorage.getItem key written
     = if String.eqb value "" then None else Some (ItemString value)) /\
  SafeStorage.getItem key (SafeStorage.removeItem key written)
  = (if bool_decide (key ∈ objectPrototypeKeys) then Some (ItemInherited key) else None) /\
  SafeStorage.getItem key s
  = (if bool_decide (key ∈ objectPrototypeKeys) then Some (ItemInherited key) else None).
Proof.
  intros Hw s written. subst s written. rewrite new_without_storage by done.
  unfold SafeStorage.getItem, SafeStorage.setItem,
    SafeStorage.removeItem, MemoryStorage.getItem, MemoryStorage.setItem,
    MemoryStorage.removeItem. simpl.
  split_and!.
  - intros Hkey. rewrite (proj2 (String.eqb_neq _ _) Hkey). by rewrite lookup_insert_eq.
  - by rewrite lookup_delete_eq.
  - by rewrite lookup_empty.
Qed.

(** X22. With the browser's storage in use, a write it accepts is read
    back as written, the empty string included. A write it rejects (the
    quota is exceeded) goes to the in-memory fallback, but reads keep
    going to the browser's storage as long as it can be read: the
    rejected value is not read back; what is read is the item the
    browser's storage held before, or [null]. *)
Theorem rejected_write_is_not_read_back (w : WebStorage)
    (memory : gmap string string) (key value : string) :
  ws_denied w = false ->
  let s := {| SafeStorage.storage := Some w; SafeStorage.fallback := memory |} in
  let written := SafeStorage.setItem key value s in
  (ws_accepts w key value = true ->
     SafeStorage.getItem key written = Some (ItemString value) /\
     SafeStorage.fallback written = memory) /\
  (ws_accepts w key value = false ->
     SafeStorage.getItem key written = ItemString <$> ws_items w !! key /\
     SafeStorage.storage written = Some w /\
     SafeStorage.fallback written = MemoryStorage.setItem key value memory).
Proof.
  intros Hd s written. subst s written.
  unfold SafeStorage.getItem, SafeStorage.setItem, ws_setItem, ws_getItem.
  simpl. rewrite Hd. simpl. split; intros ->; simpl; rewrite ?Hd; simpl.
  - by rewrite lookup_insert_eq.
  - done.
Qed.

(** ** Cookie utilities *)

Lemma hasChar_cons a c s :
  hasChar a (String c s) = Ascii.eqb a c || hasChar a s.
Proof. done. Qed.

Lemma hasChar_app a s1 s2 :
  hasChar a (s1 +:+ s2) = hasChar a s1 || hasChar a s2.
Proof.
  induction s1 as [|c s1 IH]; [done|].
  change (String c s1 +:+ s2) with (String c (s1 +:+ s2)).
  rewrite !hasChar_cons, IH. by rewrite orb_assoc.
Qed.

Lemma splitChar_nonempty sep s : splitChar sep s <> [].
Proof.
  destruct s as [|c s]; simpl; [done|]. case_if; [done|].
  by destruct (splitChar sep s).
Qed.

Lemma splitChar_none sep s : hasChar sep s = false -> splitChar sep s = [s].
Proof.
  induction s as [|c s IH]; [done|]. rewrite hasChar_cons.
  intros [Hc Hs]%orb_false_iff. simpl. rewrite Ascii.eqb_sym, Hc. by rewrite IH.
Qed.

Lemma splitChar_app sep s1 s2 :
  hasChar sep s1 = false ->
  splitChar sep (s1 +:+ String sep s2) = s1 :: splitChar sep s2.
Proof.
  induction s1 as [|c s1 IH].
  - intros _. simpl. by rewrite Ascii.eqb_refl.
  - rewrite hasChar_cons. intros [Hc Hs]%orb_false_iff.
    change (String c s1 +:+ String sep s2) with (String c (s1 +:+ String sep s2)).
    simpl. rewrite Ascii.eqb_sym, Hc. by rewrite IH.
Qed.

Lemma append_assoc (s1 s2 s3 : string) : (s1 +:+ s2) +:+ s3 = s1 +:+ s2 +:+ s3.
Proof.
  induction s1 as [|c s1 IH]; [done|].
  change (String c ((s1 +:+ s2) +:+ s3) = String c (s1 +:+ s2 +:+ s3)). by rewrite IH.
Qed.

(** The pieces [get] loops over: the first pair as it is, the others
    after a space. *)
Lemma splitChar_documentCookie (jar : list (string * string)) :
  Forall plainCookie jar ->
  splitChar ";" (documentCookie jar)
  = match jar with
    | [] => [""]
    | (k, v) :: rest =>
        (k +:+ "=" +:+ v) :: ((fun kv => " " +:+ kv.1 +:+ "=" +:+ kv.2) <$> rest)
    end.
Proof.
  induction jar as [|[k v] rest IH]; intros Hjar; [done|].
  apply Forall_cons in Hjar as [(Hk & _ & _ & Hv) Hrest]. simpl in Hk, Hv.
  assert (Hpiece : hasChar ";" (k +:+ "=" +:+ v) = false).
  { rewrite !hasChar_app, Hk, Hv. done. }
  destruct rest as [|[k' v'] rest'].
  - simpl. by apply splitChar_none.
  - change (documentCookie ((k, v) :: (k', v') :: rest'))
      with (k +:+ "=" +:+ v +:+ "; " +:+ documentCookie ((k', v') :: rest')).
    replace (k +:+ "=" +:+ v +:+ "; " +:+ documentCookie ((k', v') :: rest'))
      with ((k +:+ "=" +:+ v) +:+ String ";" (" " +:+ documentCookie ((k', v') :: rest')))
      by (by rewrite !append_assoc).
    rewrite splitChar_app by done. f_equal.
    change (" " +:+ ?s) with (String " " s). cbn [splitChar].
    change (Ascii.eqb " " ";") with false. cbn match.
    rewrite (IH Hrest). done.
Qed.

Lemma trimLeadingSpaces_cons a rest :
  trimLeadingSpaces (String a rest)
  = if Ascii.eqb a " " then trimLeadingSpaces rest else String a rest.
Proof. done. Qed.

Lemma trim_pair k v :
  hasChar " " k = false -> trimLeadingSpaces (k +:+ "=" +:+ v) = k +:+ "=" +:+ v.
Proof.
  destruct k as [|c k]; [done|]. rewrite hasChar_cons.
  intros [Hc _]%orb_false_iff.
  change (String c k +:+ "=" +:+ v) with (String c (k +:+ "=" +:+ v)).
  by rewrite trimLeadingSpaces_cons, Ascii.eqb_sym, Hc.
Qed.

Lemma prefix_cons b s1 a s2 :
  String.prefix (String b s1) (String a s2)
  = if Ascii.ascii_dec b a then String.prefix s1 s2 else false.
Proof. done. Qed.

Lemma eqb_cons a k b name :
  String.eqb (String a k) (String b name) = Ascii.eqb a b && String.eqb k name.
Proof. simpl. by destruct (Ascii.eqb a b). Qed.

Lemma prefix_pair name k v :
  hasChar "=" name = false -> hasChar "=" k = false ->
  String.prefix (name +:+ "=") (k +:+ "=" +:+ v) = String.eqb k name.
Proof.
  revert k. induction name as [|b name IH]; intros k Hname Hk.
  - destruct k as [|a k]; [simpl; by destruct v|].
    rewrite hasChar_cons in Hk. apply orb_false_iff in Hk as [Ha _].
    change (String.prefix (String "=" "") (String a (k +:+ "=" +:+ v)) = false).
    rewrite prefix_cons. destruct (Ascii.ascii_dec "=" a) as [<-|]; [|done].
    by rewrite Ascii.eqb_refl in Ha.
  - rewrite hasChar_cons in Hname. apply orb_false_iff in Hname as [Hb Hname].
    destruct k as [|a k].
    + change (String.prefix (String b (name +:+ "=")) (String "=" v) = false).
      rewrite prefix_cons. destruct (Ascii.ascii_dec b "=") as [->|]; [|done].
      by rewrite Ascii.eqb_refl in Hb.
    + rewrite hasChar_cons in Hk. apply orb_false_iff in Hk as [_ Hk].
      change (String.prefix (String b (name +:+ "=")) (String a (k +:+ "=" +:+ v))
              = String.eqb (String a k) (String b name)).
      rewrite prefix_cons, eqb_cons.
      destruct (Ascii.ascii_dec b a) as [->|Hne].
      * rewrite Ascii.eqb_refl. by apply IH.
      * destruct (Ascii.eqb_spec a b); [congruence | done].
Qed.

Lemma substring_all (s : string) : String.substring 0 (String.length s) s = s.
Proof. induction s as [|c s IH]; [done|]. simpl. by rewrite IH. Qed.

Lemma length_append (s1 s2 : string) :
  String.length (s1 +:+ s2) = (String.length s1 + String.length s2)%nat.
Proof.
  induction s1 as [|c s1 IH]; [done|].
  change (S (String.length (s1 +:+ s2)) = S (String.length s1 + String.length s2)).
  by rewrite IH.
Qed.

Lemma substring_after (s1 s2 : string) :
  String.substring (String.length s1)
    (String.length (s1 +:+ s2) - String.length s1) (s1 +:+ s2) = s2.
Proof.
  rewrite length_append.
  replace (String.length s1 + String.length s2 - String.length s1)%nat
    with (String.length s2) by lia.
  induction s1 as [|c s1 IH]; [apply substring_all|]. done.
Qed.

Lemma getLoop_cons nameEQ c rest :
  CookieUtils.getLoop nameEQ (c :: rest)
  = if String.prefix nameEQ (trimLeadingSpaces c)
    then Some (String.substring (String.length nameEQ)
                 (String.length (trimLeadingSpaces c) - String.length nameEQ)
                 (trimLeadingSpaces c))
    else CookieUtils.getLoop nameEQ rest.
Proof. done. Qed.

Lemma getLoop_pair name k v (spaced : bool) rest :
  hasChar "=" name = false -> hasChar "=" k = false -> hasChar " " k = false ->
  CookieUtils.getLoop (name +:+ "=")
    ((if spaced then String " " (k +:+ "=" +:+ v) else k +:+ "=" +:+ v) :: rest)
  = if String.eqb k name then Some v else CookieUtils.getLoop (name +:+ "=") rest.
Proof.
  intros Hname Hk Hsp. rewrite getLoop_cons.
  assert (trimLeadingSpaces
            (if spaced then String " " (k +:+ "=" +:+ v) else k +:+ "=" +:+ v)
          = k +:+ "=" +:+ v) as ->.
  { destruct spaced; [rewrite trimLeadingSpaces_cons|]; by apply trim_pair. }
  rewrite prefix_pair by done.
  destruct (String.eqb k name) eqn:Heq; [|done].
  apply String.eqb_eq in Heq as ->.
  replace (name +:+ "=" +:+ v) with ((name +:+ "=") +:+ v) by apply append_assoc.
  by rewrite substring_after.
Qed.

Lemma getLoop_pieces (jar : list (string * string)) name :
  hasChar "=" name = false ->
  Forall plainCookie jar ->
  CookieUtils.getLoop (name +:+ "=")
    ((fun kv => " " +:+ kv.1 +:+ "=" +:+ kv.2) <$> jar)
  = snd <$> List.find (fun kv : string * string => String.eqb kv.1 name) jar.
Proof.
  intros Hname. induction jar as [|[k v] rest IH]; intros Hjar; [done|].
  apply Forall_cons in Hjar as [(_ & Hk & Hsp & _) Hrest]. simpl in Hk, Hsp.
  rewrite fmap_cons. cbn [fst snd List.find].
  rewrite (getLoop_pair name k v true) by done.
  destruct (String.eqb k name); [done | by apply IH].
Qed.

(** X23. On a [document.cookie] string made of well-formed cookies,
    [CookieUtils.get] returns the value of the first cookie whose name
    is exactly the name asked for, and [null] when there is none: a
    cookie whose name only ends with, or only starts with, the name
    asked for is not mistaken for it. *)
Theorem cookie_get_finds_exact_name (name : string) (jar : list (string * string)) :
  hasChar "=" name = false ->
  Forall plainCookie jar ->
  CookieUtils.get name (documentCookie jar)
  = snd <$> List.find (fun kv : string * string => String.eqb kv.1 name) jar.
Proof.
  intros Hname Hjar. unfold CookieUtils.get.
  rewrite splitChar_documentCookie by done.
  destruct jar as [|[k v] rest].
  - simpl. by destruct name.
  - apply Forall_cons in Hjar as [(_ & Hk & Hsp & _) Hrest]. simpl in Hk, Hsp.
    cbn [List.find fst snd].
    rewrite (getLoop_pair name k v false) by done.
    destruct (String.eqb k name); [done | by apply getLoop_pieces].
Qed.

(** ** Caller data in an envelope *)

(** X24. The data a caller passes to [trackEvent] is spread last into
    the payload, and the payload last into the envelope, so every key
    the data defines carries the caller's value in what is queued, for
    the conversion of a matching goal as for the custom event itself:
    this includes the fields the SDK writes ([visitorId], [sessionId],
    [eventType], [timestamp], [attributedExperiments] and the others). *)
Theorem caller_data_overrides_sdk_fields (st : State) (goal : GoalConfig)
    (l : list Attributed) (eventName : string) (data : Obj) (k : string) (v : JsVal) :
  NoDup data.*1 ->
  obj_get k data = Some v ->
  obj_get k (envelope st "GOAL_CONVERSION" (conversionData goal l (Some data))) = Some v /\
  obj_get k (envelope st "CUSTOM_EVENT"
               (spreadOpt [("eventName", JStr eventName);
                           ("attributedExperiments", JArr (map attributedToJs l))]
                          (Some data))) = Some v.
Proof.
  intros Hnd Hk. unfold envelope, envelopeOf, conversionData, spreadOpt. split.
  - rewrite obj_get_spread.
    + by rewrite (obj_get_spread k _ data Hnd), Hk.
    + apply spread_NoDup. simpl.
      repeat (apply NoDup_cons; split; [set_solver|]). apply NoDup_nil_2.
  - rewrite obj_get_spread.
    + by rewrite (obj_get_spread k _ data Hnd), Hk.
    + apply spread_NoDup. simpl.
      repeat (apply NoDup_cons; split; [set_solver|]). apply NoDup_nil_2.
Qed.

(** ** DOM manipulation *)

(** X25. For every list of elements and every change instruction,
    [applyChangeToElements] attempts the same operation on each element,
    in order, or none at all. An operation that parses its argument as
    markup ([innerHTML], [insertAdjacentHTML], [outerHTML]) is attempted
    only when the instruction has [allowInnerHTML] set; [runScript] runs
    its argument as a script whether or not it is set. *)
Theorem markup_is_written_only_when_allowed {Element : Type}
    (elements : list Element) (change : ChangeInstruction) :
  let ops := applyChangeToElements elements change in
  (ops = [] \/
   exists op, changeOperation change = Some op /\
              ops = (fun el => (el, op)) <$> elements) /\
  (forall el op, (el, op) ∈ ops -> interpretsText op = true ->
     chg_allowInnerHTML change = Some true \/ chg_action change = runScript) /\
  (chg_action change = runScript ->
     ops = (fun el => (el, AppendScriptToHead (orEmpty (chg_value change)))) <$> elements).
Proof.
  intros ops. subst ops. unfold applyChangeToElements.
  assert (Hmap : forall op, changeOperation change = Some op ->
            omap (fun el : Element => (fun op => (el, op)) <$> changeOperation change)
                 elements
            = (fun el => (el, op)) <$> elements).
  { intros op Hop. induction elements as [|el els IH]; [done|].
    cbn [omap list_omap]. rewrite Hop. cbn [fmap option_fmap option_map].
    rewrite fmap_cons. by f_equal. }
  split_and!.
  - destruct (changeOperation change) as [op|] eqn:Hop.
    + right. exists op. split; [done|]. by apply Hmap.
    + left. clear Hmap. induction elements as [|el els IH]; [done|]. exact IH.
  - intros el op [el' [Hin Hop]]%list_elem_of_omap Htext.
    destruct (changeOperation change) as [op'|] eqn:Hop'; [|done].
    simpl in Hop. injection Hop as -> ->. clear Hmap Hin.
    unfold changeOperation in Hop'.
    destruct (chg_action change) eqn:Hact;
      destruct (chg_allowInnerHTML change) as [[]|] eqn:Hallow;
      simpl in Hop'; repeat case_match; simplify_eq; auto.
  - intros Hrun. apply Hmap. unfold changeOperation. by rewrite Hrun.
Qed.

(** ** Negated operators *)

(** X26. How the operators and their negations treat a missing value.
    For an audience of a type that is not one of the five, every
    operator matches. Otherwise, when the observed value is [null] or
    [undefined] (no such query parameter, cookie or global variable),
    [IS] and [IS_NOT], [CONTAINS] and [NOT_CONTAINS] all fail: a
    negation does not match a visitor for whom there is nothing to
    compare. When the value is there, each negation is the opposite of
    its operator. *)
Theorem negation_needs_a_value `{Host} (b : Browser) (aud : AudienceConfig) :
  let test := fun operator => checkAudience b (withOperator operator aud) in
  match observedValue (page b) (cookies b) aud with
  | None =>
      test "IS" = Normal true /\ test "IS_NOT" = Normal true /\
      test "CONTAINS" = Normal true /\ test "NOT_CONTAINS" = Normal true
  | Some userValue =>
      if isNullish userValue
      then test "IS" = Normal false /\ test "IS_NOT" = Normal false /\
           test "CONTAINS" = Normal false /\ test "NOT_CONTAINS" = Normal false
      else exists equal contained : bool,
             test "IS" = Normal equal /\ test "IS_NOT" = Normal (negb equal) /\
             test "CONTAINS" = Normal contained /\
             test "NOT_CONTAINS" = Normal (negb contained)
  end.
Proof.
  intros test. subst test. unfold checkAudience.
  change (observedValue (page b) (cookies b) (withOperator ?o aud))
    with (observedValue (page b) (cookies b) aud).
  destruct (observedValue (page b) (cookies b) aud) as [userValue|]; [|done].
  destruct (isNullish userValue); [done|].
  by eexists _, _.
Qed.

(** ** The data layer and the queue *)

Lemma mirror_view (n m : nat) st st' :
  enqueued st' = enqueued st ->
  dataLayer (env st') = dataLayer (env st) ->
  (length (dataLayer (env st)) + n = length (enqueued st) + m)%nat ->
  (length (dataLayer (env st')) + n = length (enqueued st') + m)%nat.
Proof. by intros -> ->. Qed.

Lemma mirror_exposeAndLog (n m : nat) exp variantId variant st :
  (length (dataLayer (env st)) + n = length (enqueued st) + m)%nat ->
  (length (dataLayer (env (exposeAndLog exp variantId variant st))) + n
   = length (enqueued (exposeAndLog exp variantId variant st)) + m)%nat.
Proof.
  intros Hst.
  destruct (exposeAndLog_enqueued exp variantId variant st) as (e & _ & _ & ->).
  unfold exposeAndLog. destruct (changes_frame variant st) as [c ->].
  change (activeExperiments (sdk (recordExposure (exp_id exp) variantId
                                    (onEnv (upd_domChanges c) st))))
    with (activeExperiments (sdk st)).
  case_bool_decide.
  - simpl. rewrite app_nil_r. exact Hst.
  - unfold pushExperimentView.
    match goal with
    | |- context [enqueueEvent ?ty ?d ?s] =>
        destruct (enqueueEvent_frame ty d s) as (q & p & ->)
    end.
    simpl. rewrite !length_app. simpl. lia.
Qed.

Lemma mirror_tryRecordConversion (n m : nat) goal data st :
  (length (dataLayer (env st)) + n = length (enqueued st) + m)%nat ->
  (length (dataLayer (env (tryRecordConversion goal data st))) + n
   = length (enqueued (tryRecordConversion goal data st)) + m)%nat.
Proof.
  intros Hst.
  destruct (tryRecordConversion_cases goal data st) as [[-> _] | (l & _ & _ & _ & ->)];
    [done|].
  rewrite enqueued_recorded. unfold pushGoalConversion.
  match goal with
  | |- context [enqueueEvent ?ty ?d ?s] =>
      destruct (enqueueEvent_frame ty d s) as (q & p & ->)
  end.
  simpl. rewrite !length_app. simpl. lia.
Qed.

(** X27. The data layer and the ingestion queue stay in step: over any
    sequence of events, the number of objects pushed to
    [window.dataLayer] is the number of envelopes queued. Every view,
    conversion and custom event is reported to both, once. *)
Theorem data_layer_mirrors_queue `{Host} (st : State) (turns : list (Page * Event)) :
  let st' := run turns st in
  (length (dataLayer (env st')) + length (enqueued st)
   = length (enqueued st') + length (dataLayer (env st)))%nat.
Proof.
  intros st'. subst st'.
  apply (run_preserved
           (fun s => (length (dataLayer (env s)) + length (enqueued st)
                      = length (enqueued s) + length (dataLayer (env st)))%nat));
    try (intros; by eapply mirror_view).
  - intros response s Hs.
    destruct (loadConfig_frame response s)
      as (c & b & -> & _ & _ & _ & _ & _ & _ & _ & Hd & Hp & _).
    revert Hs. unfold enqueued. simpl. by rewrite Hd, Hp.
  - intros s Hs. destruct (revealPage_frame s) as (r & h & ->).
    by eapply mirror_view.
  - intros. by apply mirror_exposeAndLog.
  - intros. apply mirror_exposeAndLog. by eapply mirror_view.
  - intros. by apply mirror_tryRecordConversion.
  - intros s Hs. eapply mirror_view; [apply enqueued_flushEvents | | exact Hs].
    by destruct (flushEvents_frame s) as (q & p & ->).
  - intros eventName l data s Hs.
    rewrite enqueued_enqueueEvent.
    match goal with
    | |- context [enqueueEvent ?ty ?d (pushCustomEvent ?n ?l ?dt ?s)] =>
        destruct (enqueueEvent_frame ty d (pushCustomEvent n l dt s)) as (q & p & ->)
    end.
    change (enqueued (pushCustomEvent ?n ?l ?d ?s)) with (enqueued s).
    simpl. rewrite !length_app. simpl. lia.
  - lia.
Qed.

(** ** The cleanup of expired exposures, once more *)

(** X28. The cleanup is idempotent: run again on its own result (same
    clock, same window) it removes nothing, writes nothing, and returns
    that result unchanged. *)
Theorem cleanup_is_idempotent (st : State) :
  cleanupExpiredExposures (cleanupExpiredExposures st) = cleanupExpiredExposures st.
Proof.
  set (st1 := cleanupExpiredExposures st).
  assert (Hnow : now (page (env st1)) = now (page (env st)) /\ windowMs st1 = windowMs st).
  { subst st1. destruct (cleanup_frame st) as (x & b & -> & _ & _ & _ & _ & _ & Hp & _).
    simpl. by rewrite Hp. }
  destruct Hnow as [Hnow Hw].
  assert (Hfresh : forall k x, exposures (sdk st1) !! k = Some x ->
                     expired (now (page (env st1))) (windowMs st1) x = false).
  { intros k x. subst st1. rewrite cleanup_lookup, Hnow, Hw.
    destruct (exposures (sdk st) !! k) as [y|]; [|done].
    destruct (expired _ _ y) eqn:Hy; [done|]. by intros [= <-]. }
  assert (Hany : existsb (fun e : string * Exposure =>
                            expired (now (page (env st1))) (windowMs st1) e.2)
                   (map_to_list (exposures (sdk st1))) = false).
  { apply not_true_is_false. intros [[k x] [Hin Hx]]%existsb_exists.
    apply list_elem_of_In, elem_of_map_to_list in Hin. simpl in Hx.
    by rewrite (Hfresh k x Hin) in Hx. }
  assert (Hsame : exposures (sdk (cleanupExpiredExposures st1)) = exposures (sdk st1)).
  { apply map_eq. intros k. rewrite cleanup_lookup.
    destruct (exposures (sdk st1) !! k) as [x|] eqn:Hk; [|done].
    by rewrite (Hfresh k x Hk). }
  pose proof (cleanup_env st1) as Henv. rewrite Hany in Henv.
  destruct (cleanup_frame st1) as (x & b & Heq & _).
  rewrite Heq in *. simpl in *. subst b x. by destruct st1 as [[] ?].
Qed.

(** ** The theorems at the example data *)

Lemma bucket_follows_weights_witness :
  (forall u, u ∈ [variantA; variantB] -> 0 <= trafficWeight u) /\
  NoDup (var_id <$> [variantA; variantB]) /\
  100 <= foldr Z.add 0 (trafficWeight <$> [variantA; variantB]) /\
  [variantA; variantB] !! 0%nat = Some variantA /\
  (bucket "visitor-1" "exp_1" [variantA; variantB] = Normal (var_id variantA) <->
   foldr Z.add 0 (trafficWeight <$> take 0 [variantA; variantB])
   <= Z.rem (hashCode ("visitor-1" +:+ "exp_1")) 100
   < foldr Z.add 0 (trafficWeight <$> take 0 [variantA; variantB])
     + trafficWeight variantA).
Proof.
  assert (H1 : forall u, u ∈ [variantA; variantB] -> 0 <= trafficWeight u).
  { intros u Hu. repeat (apply elem_of_cons in Hu as [-> | Hu]; [by vm_compute|]).
    by apply elem_of_nil in Hu. }
  assert (H2 : NoDup (var_id <$> [variantA; variantB]))
    by (apply (bool_decide_unpack _); vm_compute; exact I).
  assert (H3 : 100 <= foldr Z.add 0 (trafficWeight <$> [variantA; variantB]))
    by (by vm_compute).
  assert (H4 : [variantA; variantB] !! 0%nat = Some variantA) by reflexivity.
  refine (conj H1 (conj H2 (conj H3 (conj H4 _)))).
  exact (bucket_follows_weights "visitor-1" "exp_1" [variantA; variantB] 0 variantA
           H1 H2 H3 H4).
Defined.


Lemma untargeted_experiment_is_untouched_witness :
  config (sdk unexposedPaused) = Some configPaused /\
  (forall exp, exp ∈ experiments configPaused -> exp_id exp = "exp_2" ->
     targeted (H := exampleHost) exp (env unexposedPaused) <> Normal true) /\
  exposures (sdk (processExperiments (H := exampleHost) unexposedPaused).2) !! "exp_2"
  = exposures (sdk unexposedPaused) !! "exp_2".
Proof.
  assert (H1 : config (sdk unexposedPaused) = Some configPaused)
    by (vm_compute; reflexivity).
  assert (H2 : forall exp, exp ∈ experiments configPaused -> exp_id exp = "exp_2" ->
                 targeted (H := exampleHost) exp (env unexposedPaused) <> Normal true).
  { intros exp Hin Hid.
    repeat (apply elem_of_cons in Hin as [-> | Hin]; [by vm_compute|]).
    by apply elem_of_nil in Hin. }
  refine (conj H1 (conj H2 _)).
  destruct (untargeted_experiment_is_untouched (H := exampleHost) unexposedPaused
              configPaused "exp_2" H1 H2) as (_ & Hx & _).
  exact Hx.
Defined.

Lemma throwing_experiment_ends_initialisation_witness :
  config (sdk (loadConfig (FetchOk configBroken) unexposed)) = Some configBroken /\
  experiments configBroken = [experiment1] ++ experimentBroken :: [experimentPaused] /\
  forEach (processExperiment (H := exampleHost)) [experiment1]
    (loadConfig (FetchOk configBroken) unexposed) = (Normal tt, brokenLoad) /\
  (processExperiment (H := exampleHost) experimentBroken brokenLoad).1
  = Abrupt SyntaxError /\
  init (H := exampleHost) (FetchOk configBroken) unexposed
  = (Normal tt, revealPage brokenLoad).
Proof.
  assert (H1 : config (sdk (loadConfig (FetchOk configBroken) unexposed))
               = Some configBroken) by (vm_compute; reflexivity).
  assert (H2 : experiments configBroken
               = [experiment1] ++ experimentBroken :: [experimentPaused])
    by reflexivity.
  assert (H3 : forEach (processExperiment (H := exampleHost)) [experiment1]
                 (loadConfig (FetchOk configBroken) unexposed)
               = (Normal tt, brokenLoad)) by (vm_compute; reflexivity).
  assert (H4 : (processExperiment (H := exampleHost) experimentBroken brokenLoad).1
               = Abrupt SyntaxError) by (vm_compute; reflexivity).
  refine (conj H1 (conj H2 (conj H3 (conj H4 _)))).
  exact (proj1 (throwing_experiment_ends_initialisation (H := exampleHost)
                  (FetchOk configBroken) unexposed brokenLoad configBroken
                  [experiment1] [experimentPaused] experimentBroken SyntaxError
                  H1 H2 H3 H4)).
Defined.


Lemma batches_hold_one_to_five_witness :
  posted (freshBrowser (pageAt 1000)) = [] /\
  (length (eventQueue (sdk (run (H := exampleHost) threeTurns
                              (construct options1 "visitor-1" "session-1"
                                 (freshBrowser (pageAt 1000)))))) < 5)%nat.
Proof.
  assert (H1 : posted (freshBrowser (pageAt 1000)) = []) by reflexivity.
  refine (conj H1 _).
  exact (proj1 (batches_hold_one_to_five (H := exampleHost) options1 "visitor-1"
                  "session-1" (freshBrowser (pageAt 1000)) threeTurns H1)).
Defined.


Lemma caller_data_overrides_sdk_fields_witness :
  NoDup spoofedData.*1 /\
  obj_get "visitorId" spoofedData = Some (JStr "someone-else") /\
  obj_get "visitorId"
    (envelope firstLoad "GOAL_CONVERSION" (conversionData goal1 [] (Some spoofedData)))
  = Some (JStr "someone-else").
Proof.
  assert (H1 : NoDup spoofedData.*1) by (apply (bool_decide_unpack _); vm_compute; exact I).
  assert (H2 : obj_get "visitorId" spoofedData = Some (JStr "someone-else"))
    by reflexivity.
  refine (conj H1 (conj H2 _)).
  exact (proj1 (caller_data_overrides_sdk_fields firstLoad goal1 [] "signup" spoofedData
                  "visitorId" (JStr "someone-else") H1 H2)).
Defined.

Lemma no_exposure_no_envelope_witness :
  exposures (sdk unexposed) = ∅ /\
  forall eventName data, trackEvent eventName data unexposed = unexposed.
Proof.
  assert (H1 : exposures (sdk unexposed) = ∅) by (vm_compute; reflexivity).
  refine (conj H1 _).
  destruct (no_exposure_no_envelope (H := exampleHost) unexposed H1)
    as (_ & _ & _ & _ & Htrack).
  exact Htrack.
Defined.


Lemma memory_fallback_round_trip_witness :
  (ws_denied deniedStorage = true \/
   ws_accepts deniedStorage "__ab_test__" "__ab_test__" = false) /\
  SafeStorage.getItem STORAGE_KEYS.VISITOR_ID (SafeStorage.new (Some deniedStorage))
  = None.
Proof.
  assert (H1 : ws_denied deniedStorage = true \/
               ws_accepts deniedStorage "__ab_test__" "__ab_test__" = false)
    by (left; reflexivity).
  refine (conj H1 _).
  exact (proj2 (proj2 (memory_fallback_round_trip (Some deniedStorage)
                         STORAGE_KEYS.VISITOR_ID "visitor-1" H1))).
Defined.

Lemma rejected_write_is_not_read_back_witness :
  ws_denied fullStorage = false /\
  (ws_accepts fullStorage STORAGE_KEYS.VISITOR_ID "visitor-2" = false ->
   SafeStorage.getItem STORAGE_KEYS.VISITOR_ID
     (SafeStorage.setItem STORAGE_KEYS.VISITOR_ID "visitor-2"
        {| SafeStorage.storage := Some fullStorage; SafeStorage.fallback := ∅ |})
   = ItemString <$> ws_items fullStorage !! STORAGE_KEYS.VISITOR_ID /\
   SafeStorage.storage
     (SafeStorage.setItem STORAGE_KEYS.VISITOR_ID "visitor-2"
        {| SafeStorage.storage := Some fullStorage; SafeStorage.fallback := ∅ |})
   = Some fullStorage /\
   SafeStorage.fallback
     (SafeStorage.setItem STORAGE_KEYS.VISITOR_ID "visitor-2"
        {| SafeStorage.storage := Some fullStorage; SafeStorage.fallback := ∅ |})
   = MemoryStorage.setItem STORAGE_KEYS.VISITOR_ID "visitor-2" ∅).
Proof.
  assert (H1 : ws_denied fullStorage = false) by reflexivity.
  refine (conj H1 _).
  exact (proj2 (rejected_write_is_not_read_back fullStorage ∅ STORAGE_KEYS.VISITOR_ID
                  "visitor-2" H1)).
Defined.

Lemma cookie_get_finds_exact_name_witness :
  hasChar "=" "ab_ent_vid" = false /\
  Forall plainCookie cookieJar /\
  CookieUtils.get "ab_ent_vid" (documentCookie cookieJar)
  = snd <$> List.find (fun kv : string * string => String.eqb kv.1 "ab_ent_vid") cookieJar.
Proof.
  assert (H1 : hasChar "=" "ab_ent_vid" = false) by reflexivity.
  assert (H2 : Forall plainCookie cookieJar) by (repeat constructor).
  refine (conj H1 (conj H2 _)).
  exact (cookie_get_finds_exact_name "ab_ent_vid" cookieJar H1 H2).
Defined.
